(** * Project hours analyzer: sessions from activity events

    A shallow embedding of [project_hours_analyzer.py]: quarter-hour
    rounding, the minimum-duration floor, project classification, the
    per-day session builder, the session merger and the significance
    filter, with the properties the specification states about them.

    Conventions of the embedding.
    - A naive local datetime is an integer number of microseconds since
      the epoch (Python's [datetime] has microsecond resolution); a date
      is a day number, a time of day is the number of microseconds since
      midnight.
    - Python floats are modelled by exact rationals ([Q]).  The ties of
      the quarter-hour rounding are at multiples of 7.5 minutes, which
      floats represent exactly, and every other input is at least one
      microsecond away from a tie.
      [round(x, 2)] is the nearest hundredth of the exact value, ties to
      even; on the durations the builder produces (multiples of a quarter
      hour) no tie occurs and the float result is the same.  On other
      values Python rounds the binary float, and a value half-way between
      two hundredths can go to either of them: what is stated about such
      a value fixes it only up to that choice.
    - The timestamps are whole numbers, so every datetime is a whole
      number of microseconds.
    - pandas and [urlparse] are not part of the program: the conversion of
      a timestamp to local time and the path of a URL are parameters.
    - A dict whose order is not observed is a [gmap]; a dict that is
      iterated is an association list in insertion order. *)

From Stdlib Require Import ZArith QArith Qround List String Ascii Lia Bool.
From Stdlib Require Import Qabs Lqa Sorting.Sorted Sorting.Permutation.
From stdpp Require Import gmap.
Import ListNotations.
Open Scope Z_scope.

(** ** Datetimes *)

Definition us_second : Z := 1000000.
Definition us_minute : Z := 60000000.
Definition us_quarter : Z := 900000000.
Definition us_hour : Z := 3600000000.
Definition us_day : Z := 86400000000.

(** [dt.microsecond], [dt.second], [dt.minute], [dt.hour]. *)
Definition microsecond (dt : Z) : Z := dt mod us_second.
Definition second (dt : Z) : Z := (dt / us_second) mod 60.
Definition minute (dt : Z) : Z := (dt / us_minute) mod 60.
Definition hour (dt : Z) : Z := (dt / us_hour) mod 24.

(** [dt.date()], [dt.time()] and [datetime.combine(date, time)]. *)
Definition date (dt : Z) : Z := dt / us_day.
Definition time (dt : Z) : Z := dt mod us_day.
Definition combine (d t : Z) : Z := d * us_day + t.

(** [dt.replace(minute=m, second=0, microsecond=0)]. *)
Definition replace_minute (dt m : Z) : Z :=
  dt - (minute dt * us_minute + second dt * us_second + microsecond dt)
  + m * us_minute.

(** Python's [round(x)]: nearest integer, ties to the even one. *)
Definition py_round (x : Q) : Z :=
  let f := Qfloor x in
  match (x - inject_Z f ?= 1 # 2)%Q with
  | Lt => f
  | Gt => f + 1
  | Eq => if Z.even f then f else f + 1
  end.

(** [round(x, 2)]: the nearest hundredth; the even one at a tie of the
    exact value (there the float result can be either neighbour). *)
Definition py_round2 (x : Q) : Q := (inject_Z (py_round (x * 100)) / 100)%Q.

(** [timedelta(hours=h)], a whole number of microseconds. *)
Definition timedelta_hours (h : Q) : Z := py_round (h * inject_Z us_hour).

(** [(b - a).total_seconds() / 3600]. *)
Definition hours_between (a b : Z) : Q := (inject_Z (b - a) / inject_Z us_hour)%Q.

(** ** Quarter-hour rounding *)

Definition total_minutes (dt : Z) : Q :=
  (inject_Z (minute dt) + inject_Z (second dt) / 60
   + inject_Z (microsecond dt) / 60000000)%Q.

Definition quarter_hours (dt : Z) : Z := py_round (total_minutes dt / 15) * 15.

Definition round_to_quarter_hour (dt : Z) : Z :=
  if 60 <=? quarter_hours dt
  then replace_minute (dt + us_hour) 0
  else replace_minute dt (quarter_hours dt).

(** ** Minimum session duration *)

Definition Qlt_bool (a b : Q) : bool := negb (Qle_bool b a).

Definition ensure_minimum_session_duration (start_dt end_dt : Z) (min_hours : Q)
  : Z * Z :=
  if Qlt_bool (hours_between start_dt end_dt) min_hours
  then (start_dt, round_to_quarter_hour (start_dt + timedelta_hours min_hours))
  else (start_dt, end_dt).

(** The default of the [min_hours] parameter. *)
Definition default_min_hours : Q := 1 # 4.

(** ** Sessions *)

(** A session dict: [start_date], [start_time], [end_date], [end_time],
    [hours]. *)
Record session := mk_session {
  start_date : Z;
  start_time : Z;
  end_date : Z;
  end_time : Z;
  hours : Q
}.

(** The dict built from two datetimes, with
    [hours = round((end - start).total_seconds() / 3600, 2)]. *)
Definition session_of (start_dt end_dt : Z) : session :=
  {| start_date := date start_dt;
     start_time := time start_dt;
     end_date := date end_dt;
     end_time := time end_dt;
     hours := py_round2 (hours_between start_dt end_dt) |}.

Definition start_dt (s : session) : Z := combine (start_date s) (start_time s).
Definition end_dt (s : session) : Z := combine (end_date s) (end_time s).

(** ** Configuration *)

Record config := mk_config {
  time_multiplier : Q;
  min_activity_hours : Q;
  max_session_gap_hours : Q;
  session_end_buffer : Q;
  min_activities : Z
}.

Definition default_config : config :=
  {| time_multiplier := 1;
     min_activity_hours := 1 # 4;
     max_session_gap_hours := 2;
     session_end_buffer := 1 # 4;
     min_activities := 3 |}.

(** ** Session builder *)

(** The block that closes a session (it occurs three times in
    [analyze_all_projects]): round both endpoints, apply
    [ensure_minimum_session_duration] with its default [min_hours], and
    build the dict.  The second component is [actual_hours]. *)
Definition close_session (session_start session_end : Z) : session * Q :=
  let rounded_start := round_to_quarter_hour session_start in
  let rounded_end := round_to_quarter_hour session_end in
  let '(rounded_start, rounded_end) :=
    ensure_minimum_session_duration rounded_start rounded_end default_min_hours in
  (session_of rounded_start rounded_end, hours_between rounded_start rounded_end).

(** The loop [for i in range(1, len(timestamps))]: [prev] is
    [timestamps[i-1]], the list holds [timestamps[i:]].
    ([current_session_end] is assigned but never read, and is left out.) *)
Fixpoint session_loop (cfg : config) (prev : Z) (timestamps : list Z)
    (current_session_start : Z) (daily_session_time : Q)
    (sessions : list session) : Z * Q * list session :=
  match timestamps with
  | [] => (current_session_start, daily_session_time, sessions)
  | t :: rest =>
      let time_diff := hours_between prev t in
      if Qle_bool time_diff (max_session_gap_hours cfg)
      then session_loop cfg t rest current_session_start
             (daily_session_time + time_diff)%Q sessions
      else
        let session_duration :=
          ((daily_session_time + min_activity_hours cfg) * time_multiplier cfg)%Q in
        let session_end_time :=
          current_session_start + timedelta_hours session_duration in
        session_loop cfg t rest t (min_activity_hours cfg)
          (sessions ++ [fst (close_session current_session_start session_end_time)])
  end.

(** [sum(session['hours'] for session in sessions if ...)]. *)
Definition sum_hours (l : list session) : Q :=
  fold_left (fun acc s => (acc + hours s)%Q) l 0%Q.

Definition started_on (d : Z) (s : session) : bool := start_date s =? d.

(** One iteration of [for date, group in project_df.groupby('date')]:
    the state is the growing [sessions] list and [daily_hours]. *)
Definition build_day (cfg : config) (st : list session * gmap Z Q)
    (day : Z) (timestamps : list Z) : list session * gmap Z Q :=
  let '(sessions, daily_hours) := st in
  match timestamps with
  | [] => st
  | [start_time] =>
      let end_time :=
        start_time
        + timedelta_hours (min_activity_hours cfg * time_multiplier cfg) in
      let '(s, actual_hours) := close_session start_time end_time in
      (sessions ++ [s], <[day := actual_hours]> daily_hours)
  | t0 :: rest =>
      let '(current_session_start, daily_session_time, sessions) :=
        session_loop cfg t0 rest t0 0%Q sessions in
      let final_session_duration :=
        ((daily_session_time + session_end_buffer cfg) * time_multiplier cfg)%Q in
      let final_session_end :=
        current_session_start + timedelta_hours final_session_duration in
      let sessions :=
        sessions ++ [fst (close_session current_session_start final_session_end)] in
      (sessions,
       <[day := sum_hours (List.filter (started_on day) sessions)]> daily_hours)
  end.

(** [sorted(...)] on datetimes. *)
Fixpoint insert_sorted (x : Z) (l : list Z) : list Z :=
  match l with
  | [] => [x]
  | y :: l' => if x <=? y then x :: l else y :: insert_sorted x l'
  end.

Definition sorted (l : list Z) : list Z := fold_right insert_sorted [] l.

(** The keys of [groupby('date')]: the distinct dates, ascending. *)
Fixpoint insert_key (d : Z) (l : list Z) : list Z :=
  match l with
  | [] => [d]
  | y :: l' =>
      if d <? y then d :: l
      else if d =? y then l
      else y :: insert_key d l'
  end.

Definition group_keys (dts : list Z) : list Z :=
  fold_right insert_key [] (map date dts).

Definition on_date (d : Z) (t : Z) : bool := date t =? d.

Definition groupby_date (dts : list Z) : list (Z * list Z) :=
  map (fun d => (d, List.filter (on_date d) dts)) (group_keys dts).

(** The body of the loop over significant projects, up to the merge:
    [dts] is the [datetime] column of the project's rows. *)
Definition build_project (cfg : config) (dts : list Z)
  : list session * gmap Z Q :=
  let project_df := sorted dts in
  fold_left (fun st g => build_day cfg st (fst g) (sorted (snd g)))
    (groupby_date project_df) ([], ∅).

(** The session start and the nominal end - [session_end_time] when a
    long gap closes the session, [final_session_end] after the loop - of
    every session the loop over [timestamps[1:]] closes, in the order
    the sessions are appended. *)
Fixpoint nominal_sessions (cfg : config) (prev : Z) (timestamps : list Z)
    (current_session_start : Z) (daily_session_time : Q) : list (Z * Z) :=
  match timestamps with
  | [] =>
      let final_session_duration :=
        ((daily_session_time + session_end_buffer cfg) * time_multiplier cfg)%Q in
      [(current_session_start,
        current_session_start + timedelta_hours final_session_duration)]
  | t :: rest =>
      let time_diff := hours_between prev t in
      if Qle_bool time_diff (max_session_gap_hours cfg)
      then nominal_sessions cfg t rest current_session_start
             (daily_session_time + time_diff)%Q
      else
        let session_duration :=
          ((daily_session_time + min_activity_hours cfg) * time_multiplier cfg)%Q in
        (current_session_start,
         current_session_start + timedelta_hours session_duration)
        :: nominal_sessions cfg t rest t (min_activity_hours cfg)
  end.

(** The same for one date: [(start_time, end_time)] for a single event. *)
Definition nominal_day (cfg : config) (timestamps : list Z) : list (Z * Z) :=
  match timestamps with
  | [] => []
  | [start_time] =>
      [(start_time,
        start_time
        + timedelta_hours (min_activity_hours cfg * time_multiplier cfg))]
  | t0 :: rest => nominal_sessions cfg t0 rest t0 0%Q
  end.

(** The same for a project, date after date. *)
Definition nominal_project (cfg : config) (dts : list Z) : list (Z * Z) :=
  flat_map (fun g => nominal_day cfg (sorted (snd g)))
    (groupby_date (sorted dts)).

(** ** Session merger *)

(** An entry of [session_intervals] ([original] is never read). *)
Record interval := mk_interval { iv_start : Z; iv_end : Z }.

Definition to_interval (s : session) : interval :=
  {| iv_start := start_dt s; iv_end := end_dt s |}.

(** [session_intervals.sort(key=lambda x: x['start_dt'])], a stable sort. *)
Fixpoint insert_interval (x : interval) (l : list interval) : list interval :=
  match l with
  | [] => [x]
  | y :: l' =>
      if iv_start x <=? iv_start y then x :: l else y :: insert_interval x l'
  end.

Definition sort_intervals (l : list interval) : list interval :=
  fold_right insert_interval [] l.

(** The scan: [current] absorbs every next interval that starts at most
    15 minutes after its end. *)
Fixpoint merge_scan (current : interval) (rest : list interval) : list interval :=
  match rest with
  | [] => [current]
  | next_session :: rest' =>
      if iv_start next_session <=? iv_end current + 15 * us_minute
      then merge_scan
             {| iv_start := iv_start current;
                iv_end := Z.max (iv_end current) (iv_end next_session) |} rest'
      else current :: merge_scan next_session rest'
  end.

Definition final_session (iv : interval) : session :=
  session_of (iv_start iv) (iv_end iv).

Definition merge_overlapping_sessions (sessions : list session) : list session :=
  match sessions with
  | [] => sessions
  | _ :: _ =>
      match sort_intervals (map to_interval sessions) with
      | [] => []
      | current :: rest => map final_session (merge_scan current rest)
      end
  end.

(** One project of [analyze_all_projects]: its [project_hours] entry and
    its [project_sessions] entry. *)
Definition analyze_project (cfg : config) (dts : list Z)
  : gmap Z Q * list session :=
  let '(sessions, daily_hours) := build_project cfg dts in
  (daily_hours, merge_overlapping_sessions sessions).

(** ** Project classification *)

(** Strings are strings of 8-bit characters. *)

(** [sub in s]. *)
Fixpoint contains (sub s : string) : bool :=
  String.prefix sub s
  || match s with
     | EmptyString => false
     | String _ s' => contains sub s'
     end.

(** [s.split(sep)] for a non-empty [sep]: [skip] characters of a
    separator just matched remain to be passed over, [cur] is the part
    being read. *)
Fixpoint split_from (sep : string) (skip : nat) (s cur : string) : list string :=
  match s with
  | EmptyString => [cur]
  | String c s' =>
      match skip with
      | S n => split_from sep n s' cur
      | O =>
          if String.prefix sep s
          then cur :: split_from sep (String.length sep - 1) s' EmptyString
          else split_from sep 0 s' (cur ++ String c EmptyString)%string
      end
  end.

Definition py_split (sep s : string) : list string :=
  split_from sep 0 s EmptyString.

(** The characters [str.strip()] removes, among the 8-bit ones. *)
Definition is_space (c : ascii) : bool :=
  let n := nat_of_ascii c in
  ((9 <=? n) && (n <=? 13) || (28 <=? n) && (n <=? 32)
   || (n =? 133) || (n =? 160))%nat.

Fixpoint lstrip (s : string) : string :=
  match s with
  | EmptyString => EmptyString
  | String c s' => if is_space c then lstrip s' else s
  end.

Fixpoint rstrip (s : string) : string :=
  match s with
  | EmptyString => EmptyString
  | String c s' =>
      match rstrip s' with
      | EmptyString => if is_space c then EmptyString else String c EmptyString
      | r => String c r
      end
  end.

Definition strip (s : string) : string := rstrip (lstrip s).

Definition newline : string := String (ascii_of_nat 10) EmptyString.

Definition nonempty (s : string) : bool :=
  match s with EmptyString => false | _ => true end.

(** What [row.get(column, '')] returns: the default when the column is
    missing, NaN for an empty cell, the text of the cell otherwise. *)
Inductive cell :=
| Missing
| NaN
| Text (s : string).

(** [str(...)] of it. *)
Definition py_str (c : cell) : string :=
  match c with
  | Missing => EmptyString
  | NaN => "nan"%string
  | Text s => s
  end.

Definition Unknown_Project : string := "Unknown_Project"%string.

(** The fallback on the blurb, when there is no dataLink. *)
Definition project_of_blurb (blurb : string) : string :=
  if contains "In " blurb && contains "[" blurb
  then
    let project_name :=
      strip (nth 0 (py_split " [" (nth 1 (py_split "In " blurb) EmptyString))
               EmptyString) in
    if nonempty project_name
       && (String.length project_name <? 100)%nat
       && negb (contains newline project_name)
    then project_name
    else Unknown_Project
  else Unknown_Project.

(** The project of a parsed path: [path_segments[3]], else
    [path_segments[2]], else the sentinel. *)
Definition project_of_path (path : string) : string :=
  let path_segments := List.filter nonempty (py_split "/" path) in
  if (4 <=? length path_segments)%nat then nth 3 path_segments EmptyString
  else if (3 <=? length path_segments)%nat then nth 2 path_segments EmptyString
  else Unknown_Project.

(** A row of the table.  [timestamp] is the column after
    [pd.to_numeric(..., errors='coerce')]: [None] is the NaN that the
    coercion makes of a value that does not parse as a number. *)
Record row := mk_row {
  timestamp : option Z;
  dataLink : cell;
  blurb : cell
}.

Section Classifier.

(** [urlparse(data_link).path]; [None] when [urlparse] raises. *)
Variable urlparse_path : string -> option string.

(** The body of the loop of [extract_project_names]. *)
Definition project_of_row (r : row) : string :=
  let data_link := py_str (dataLink r) in
  if nonempty data_link && negb (String.eqb data_link "nan")
  then
    match urlparse_path data_link with
    | Some path => project_of_path path
    | None =>
        let parts := py_split "/" data_link in
        if (6 <? length parts)%nat then nth 6 parts EmptyString
        else Unknown_Project
    end
  else project_of_blurb (py_str (blurb r)).

Definition extract_project_names (df : list row) : list string :=
  map project_of_row df.

End Classifier.

(** ** The analysis of all projects *)

(** [Counter(...)]: the counts in the order of first occurrence. *)
Fixpoint count_add (p : string) (counts : list (string * nat))
  : list (string * nat) :=
  match counts with
  | [] => [(p, 1%nat)]
  | (q, n) :: counts' =>
      if String.eqb p q then (q, S n) :: counts'
      else (q, n) :: count_add p counts'
  end.

Definition Counter (l : list string) : list (string * nat) :=
  fold_left (fun counts p => count_add p counts) l [].

(** [counts[p]], which is 0 for a key that is not there. *)
Fixpoint count_of (p : string) (counts : list (string * nat)) : nat :=
  match counts with
  | [] => 0%nat
  | (q, n) :: counts' => if String.eqb p q then n else count_of p counts'
  end.

Definition is_significant (cfg : config) (item : string * nat) : bool :=
  (min_activities cfg <=? Z.of_nat (snd item))
  && negb (String.eqb (fst item) Unknown_Project).

Definition significant_projects (cfg : config) (project_counts : list (string * nat))
  : list (string * nat) :=
  List.filter (is_significant cfg) project_counts.

(** [df.dropna(subset=['timestamp'])], each row kept with its number. *)
Fixpoint dropna (rows : list row) : list (Z * row) :=
  match rows with
  | [] => []
  | r :: rows' =>
      match timestamp r with
      | Some t => (t, r) :: dropna rows'
      | None => dropna rows'
      end
  end.

(** [df['timestamp'].max()]; NaN ([None]) on an empty column. *)
Definition column_max (ts : list Z) : option Z :=
  match ts with
  | [] => None
  | t :: ts' => Some (fold_left Z.max ts' t)
  end.

Inductive time_unit := Seconds | Milliseconds.

(** [df['timestamp'].max() > 1e12]: a comparison with NaN is false. *)
Definition detect_unit (ts : list Z) : time_unit :=
  match column_max ts with
  | Some m => if 1000000000000 <? m then Milliseconds else Seconds
  | None => Seconds
  end.

(** The triple [analyze_all_projects] returns. *)
Record results := mk_results {
  project_hours : list (string * gmap Z Q);
  project_sessions : list (string * list session);
  project_counts : list (string * nat)
}.

Definition empty_results : results :=
  {| project_hours := []; project_sessions := []; project_counts := [] |}.

(** The message printed before the early return. *)
Inductive diagnostic := Error_converting_timestamps.

(** How a run ends: in the [except] branch of the conversion, or at the
    last [return]. *)
Inductive outcome :=
| Failed (d : diagnostic)
| Completed (r : results).

(** What the caller receives: [{}, {}, {}] after a failure. *)
Definition returned (o : outcome) : results :=
  match o with
  | Failed _ => empty_results
  | Completed r => r
  end.

Section Analysis.

Variable urlparse_path : string -> option string.

(** The conversion of one timestamp by pandas: [pd.to_datetime] with
    the unit, then [tz_localize('UTC')], [tz_convert(timezone)] and
    [tz_localize(None)]; the result is the naive local datetime, and
    [None] stands for a value on which pandas raises.  The conversion
    works value by value, so it succeeds on an empty column. *)
Variable to_local : time_unit -> Z -> option Z.

Fixpoint convert_column (u : time_unit) (ts : list Z) : option (list Z) :=
  match ts with
  | [] => Some []
  | t :: ts' =>
      match to_local u t, convert_column u ts' with
      | Some dt, Some dts => Some (dt :: dts)
      | _, _ => None
      end
  end.

(** [df[df['project'] == project_name]['datetime']]. *)
Definition project_datetimes (project_name : string)
    (table : list (Z * string)) : list Z :=
  map fst (List.filter (fun e => String.eqb (snd e) project_name) table).

Definition analyze_all_projects (cfg : config) (rows : list row) : outcome :=
  let df := dropna rows in
  let ts := map fst df in
  match convert_column (detect_unit ts) ts with
  | None => Failed Error_converting_timestamps
  | Some datetimes =>
      let projects := extract_project_names urlparse_path (map snd df) in
      let table := List.combine datetimes projects in
      let counts := Counter projects in
      let significant := significant_projects cfg counts in
      Completed
        {| project_hours :=
             map (fun item =>
                    (fst item,
                     fst (analyze_project cfg
                            (project_datetimes (fst item) table))))
               significant;
           project_sessions :=
             map (fun item =>
                    (fst item,
                     snd (analyze_project cfg
                            (project_datetimes (fst item) table))))
               significant;
           project_counts := counts |}
  end.

End Analysis.

(** [project_counts[p]] of the returned triple. *)
Definition event_count (res : results) (p : string) : nat :=
  count_of p (project_counts res).

Definition has_timestamp (r : row) : bool :=
  match timestamp r with Some _ => true | None => false end.

(** The conversion for the zone UTC, for the examples. *)
Definition to_utc (u : time_unit) (t : Z) : option Z :=
  Some match u with
       | Seconds => t * 1000000
       | Milliseconds => t * 1000
       end.

(** Modelled from the spec: the text rule of the Project Classifier as
    section 4.2 words it - search the text for "In " followed later by
    " [", take the text between them, trim it, accept it when it is
    non-empty, shorter than 100 characters and free of newlines. *)
Fixpoint text_after (sub s : string) : option string :=
  if String.prefix sub s
  then Some (String.substring (String.length sub)
               (String.length s - String.length sub) s)
  else match s with
       | EmptyString => None
       | String _ s' => text_after sub s'
       end.

Fixpoint text_before (sub s : string) : option string :=
  if String.prefix sub s then Some EmptyString
  else match s with
       | EmptyString => None
       | String c s' =>
           match text_before sub s' with
           | Some t => Some (String c t)
           | None => None
           end
       end.

Definition spec_project_of_text (text : string) : string :=
  match text_after "In " text with
  | None => Unknown_Project
  | Some rest =>
      match text_before " [" rest with
      | None => Unknown_Project
      | Some between =>
          let name := strip between in
          if nonempty name
             && (String.length name <? 100)%nat
             && negb (contains newline name)
          then name
          else Unknown_Project
      end
  end.

(** ** Predicates of the specification *)

Definition le_start (a b : interval) : Prop := iv_start a <= iv_start b.

(** [b] starts no earlier than [a], and more than 15 minutes after [a]
    ends. *)
Definition apart (a b : interval) : Prop :=
  iv_start a <= iv_start b /\ iv_end a + 15 * us_minute < iv_start b.

Definition starts_before (a b : session) : Prop := start_dt a <= start_dt b.

(** The closed intervals of [a] and [b] share a point. *)
Definition overlap (a b : session) : Prop :=
  start_dt a <= end_dt b /\ start_dt b <= end_dt a.

(** [b] starts strictly more than 15 minutes after [a] ends. *)
Definition separated (a b : session) : Prop :=
  end_dt a + 15 * us_minute < start_dt b.

(** [hours] is [(end - start)] in hours rounded to two decimals: a whole
    number of hundredths, at most half a hundredth away from the
    duration.  (At a tie either hundredth qualifies.) *)
Definition hours_rounded (m : session) : Prop :=
  exists n : Z,
    (hours m == n # 100)%Q /\
    (Qabs (hours m - hours_between (start_dt m) (end_dt m)) <= 1 # 200)%Q.

(** The pair of a session start and a nominal end, closed. *)
Definition close_pair (p : Z * Z) : session :=
  fst (close_session (fst p) (snd p)).

(** [s] was closed by the builder from a session start [a] in [T]. *)
Definition closes (T : Z -> Prop) (s : session) : Prop :=
  exists a b, T a /\ s = fst (close_session a b).

(** The loop body of [build_project] for the group of key [k]. *)
Definition build_key (cfg : config) (project_df : list Z)
    (st : list session * gmap Z Q) (k : Z) : list session * gmap Z Q :=
  build_day cfg st k (sorted (List.filter (on_date k) project_df)).

(** The keys of a counter are distinct and its counts positive. *)
Definition counter_ok (counts : list (string * nat)) : Prop :=
  List.NoDup (map fst counts) /\ Forall (fun item => (0 < snd item)%nat) counts.

(** Every gap between consecutive timestamps, from [prev] on, is at most
    [g] hours. *)
Fixpoint gaps_within (g : Q) (prev : Z) (timestamps : list Z) : bool :=
  match timestamps with
  | [] => true
  | t :: rest => Qle_bool (hours_between prev t) g && gaps_within g t rest
  end.

(** The endpoints of [s] are quarter-hour marks at least a quarter hour
    apart, and its hours are exactly its duration. *)
Definition quarter_hour_session (s : session) : Prop :=
  start_dt s mod us_quarter = 0 /\
  end_dt s mod us_quarter = 0 /\
  start_dt s + us_quarter <= end_dt s /\
  (hours s == hours_between (start_dt s) (end_dt s))%Q /\
  (1 # 4 <= hours s)%Q.

(** ** File names *)

(** [invalid_chars]: the characters less-than, greater-than, colon,
    double quote, slash, backslash, bar, question mark, star, newline,
    carriage return and tab. *)
Definition invalid_chars : list ascii :=
  map ascii_of_nat [60; 62; 58; 34; 47; 92; 124; 63; 42; 10; 13; 9]%nat.

Definition underscore : ascii := ascii_of_nat 95.

(** [s.replace(old, new)] for a non-empty [old]: [skip] characters of an
    occurrence just replaced remain to be passed over. *)
Fixpoint replace_from (old new : string) (skip : nat) (s : string) : string :=
  match s with
  | EmptyString => EmptyString
  | String c s' =>
      match skip with
      | S n => replace_from old new n s'
      | O =>
          if String.prefix old s
          then (new ++ replace_from old new (String.length old - 1) s')%string
          else String c (replace_from old new 0 s')
      end
  end.

Definition py_replace (old new s : string) : string := replace_from old new 0 s.

(** [for char in invalid_chars: filename = filename.replace(char, '_')]. *)
Definition replace_invalid (filename : string) : string :=
  fold_left (fun name c => py_replace (String c EmptyString) "_" name)
    invalid_chars filename.

(** [while '__' in filename: filename = filename.replace('__', '_')],
    run for at most [fuel] turns. *)
Fixpoint collapse_underscores (fuel : nat) (filename : string) : string :=
  match fuel with
  | O => filename
  | S fuel' =>
      if contains "__" filename
      then collapse_underscores fuel' (py_replace "__" "_" filename)
      else filename
  end.

(** [c in chars]. *)
Definition in_chars (chars : string) (c : ascii) : bool :=
  contains (String c EmptyString) chars.

(** [s.strip(chars)]. *)
Fixpoint lstrip_chars (chars s : string) : string :=
  match s with
  | EmptyString => EmptyString
  | String c s' => if in_chars chars c then lstrip_chars chars s' else s
  end.

Fixpoint rstrip_chars (chars s : string) : string :=
  match s with
  | EmptyString => EmptyString
  | String c s' =>
      match rstrip_chars chars s' with
      | EmptyString =>
          if in_chars chars c then EmptyString else String c EmptyString
      | r => String c r
      end
  end.

Definition strip_chars (chars s : string) : string :=
  rstrip_chars chars (lstrip_chars chars s).

(** [s[:n]]. *)
Fixpoint take_chars (n : nat) (s : string) : string :=
  match n, s with
  | S n', String c s' => String c (take_chars n' s')
  | _, _ => EmptyString
  end.

(** [sanitize_filename].  Every turn of the loop shortens the name, so
    as many turns as the name has characters are enough. *)
Definition sanitize_filename (filename : string) : string :=
  let filename := replace_invalid filename in
  let filename := collapse_underscores (String.length filename) filename in
  let filename := strip_chars "_ " filename in
  let filename :=
    if (200 <? String.length filename)%nat then take_chars 200 filename
    else filename in
  if negb (nonempty filename) || String.eqb filename "_"
  then Unknown_Project
  else filename.

(** ** The legacy daily totals *)

(** The loop over the gaps in [calculate_daily_project_hours] and in
    [calculate_hours_from_text_data]: a gap within the threshold counts
    in full, a longer one counts as [min_activity_hours]. *)
Fixpoint legacy_gaps (cfg : config) (prev : Z) (timestamps : list Z)
    (total_session_time : Q) : Q :=
  match timestamps with
  | [] => total_session_time
  | t :: rest =>
      let time_diff := hours_between prev t in
      if Qle_bool time_diff (max_session_gap_hours cfg)
      then legacy_gaps cfg t rest (total_session_time + time_diff)%Q
      else legacy_gaps cfg t rest (total_session_time + min_activity_hours cfg)%Q
  end.

(** The total of one date from its sorted timestamps. *)
Definition legacy_day_hours (cfg : config) (timestamps : list Z) : Q :=
  match timestamps with
  | [_] => (min_activity_hours cfg * time_multiplier cfg)%Q
  | [] => py_round2 ((0 + session_end_buffer cfg) * time_multiplier cfg)
  | t0 :: rest =>
      py_round2 ((legacy_gaps cfg t0 rest 0 + session_end_buffer cfg)
                 * time_multiplier cfg)
  end.

(** The loop [for date, group in project_df.groupby('date')] of
    [calculate_daily_project_hours]; [dts] is the [datetime] column of
    [project_df]. *)
Definition legacy_daily_hours (cfg : config) (dts : list Z) : gmap Z Q :=
  fold_left
    (fun daily_hours g =>
       <[fst g := legacy_day_hours cfg (sorted (snd g))]> daily_hours)
    (groupby_date (sorted dts)) ∅.

(** ** The longest streak of [analyze_work_patterns] *)

(** The loop over [sorted_dates[1:]]; [prev] is [sorted_dates[i-1]]. *)
Fixpoint streak_loop (prev : Z) (sorted_dates : list Z)
    (current_streak max_streak : nat) : nat :=
  match sorted_dates with
  | [] => max_streak
  | d :: rest =>
      if d - prev =? 1
      then streak_loop d rest (S current_streak)
             (Nat.max max_streak (S current_streak))
      else streak_loop d rest 1 max_streak
  end.

(** The number printed as the longest work streak, from the keys of
    [daily_hours]; nothing is printed for an empty dict. *)
Definition longest_streak (dates : list Z) : option nat :=
  match sorted dates with
  | [] => None
  | d0 :: rest => Some (streak_loop d0 rest 1 1)
  end.

(** The [k] consecutive dates that end at [e] all satisfy [S]. *)
Definition run_ending (S : Z -> Prop) (e : Z) (k : nat) : Prop :=
  forall i, 0 <= i < Z.of_nat k -> S (e - i).

(** No occurrence of [sep] in [a ++ tail] starts inside [a]. *)
Fixpoint starts_nowhere (sep a tail : string) : bool :=
  match a with
  | EmptyString => true
  | String c a' =>
      negb (String.prefix sep (a ++ tail)) && starts_nowhere sep a' tail
  end.

(** ** The largest project of [calculate_daily_project_hours] *)

(** [sum(daily_hours.values())]. *)
Definition sum_values (daily_hours : gmap Z Q) : Q :=
  map_fold (fun _ h acc => (acc + h)%Q) 0%Q daily_hours.

(** [max(..., key=key)] over [best :: l]: a later item replaces the best
    one only when its key is strictly greater. *)
Fixpoint py_max_by {A : Type} (key : A -> Q) (best : A) (l : list A) : A :=
  match l with
  | [] => best
  | x :: l' =>
      if Qlt_bool (key best) (key x) then py_max_by key x l'
      else py_max_by key best l'
  end.

(** [project_hours[k]]. *)
Fixpoint hours_of_project (k : string) (project_hours : list (string * gmap Z Q))
  : gmap Z Q :=
  match project_hours with
  | [] => ∅
  | (q, m) :: rest => if String.eqb k q then m else hours_of_project k rest
  end.

(** The branch [project_name is None], from the [project_hours] that
    [analyze_all_projects] returned: the daily hours of the project with
    the largest total, [{}] when there is no project. *)
Definition largest_project_hours (project_hours : list (string * gmap Z Q))
  : gmap Z Q :=
  match map fst project_hours with
  | [] => ∅
  | k :: keys =>
      let largest_project :=
        py_max_by (fun k => sum_values (hours_of_project k project_hours))
          k keys in
      hours_of_project largest_project project_hours
  end.

(** * Properties *)

(** ** Rounding to the nearest integer *)

Lemma py_round_comp (x y : Q) : (x == y)%Q -> py_round x = py_round y.
Proof.
  intros E. unfold py_round.
  rewrite (Qfloor_comp _ _ E).
  assert (C : ((x - inject_Z (Qfloor y) ?= 1 # 2) = (y - inject_Z (Qfloor y) ?= 1 # 2))%Q)
    by (apply Qcompare_comp; [rewrite E|]; reflexivity).
  now rewrite C.
Qed.

Lemma py_round_frac (n : Z) (p : positive) :
  py_round (n # p) =
  match 2 * (n mod Z.pos p) ?= Z.pos p with
  | Lt => n / Z.pos p
  | Gt => n / Z.pos p + 1
  | Eq => if Z.even (n / Z.pos p) then n / Z.pos p else n / Z.pos p + 1
  end.
Proof.
  unfold py_round.
  assert (F : Qfloor (n # p) = n / Z.pos p) by reflexivity.
  rewrite F.
  assert (C : ((n # p) - inject_Z (n / Z.pos p) ?= 1 # 2)%Q
              = (2 * (n mod Z.pos p) ?= Z.pos p)).
  { unfold Qcompare, Qminus, Qplus, Qopp, inject_Z; simpl Qnum; simpl Qden.
    f_equal.
    - pose proof (Z.div_mod n (Z.pos p)). lia.
    - lia. }
  now rewrite C.
Qed.

Lemma py_round_Z (n : Z) : py_round (inject_Z n) = n.
Proof.
  unfold inject_Z. rewrite py_round_frac.
  rewrite Z.mod_1_r, Z.div_1_r. reflexivity.
Qed.

(** [py_round] is the nearest integer, and on a tie the even one. *)
Lemma py_round_nearest (x : Q) :
  (Qabs (x - inject_Z (py_round x)) < 1 # 2)%Q \/
  ((Qabs (x - inject_Z (py_round x)) == 1 # 2)%Q /\ Z.even (py_round x) = true).
Proof.
  unfold py_round.
  pose proof (Qfloor_le x) as Hlo. pose proof (Qlt_floor x) as Hhi.
  set (f := Qfloor x) in *.
  assert (Hf1 : (inject_Z (f + 1) == inject_Z f + 1)%Q)
    by (rewrite inject_Z_plus; reflexivity).
  rewrite Hf1 in Hhi.
  destruct (x - inject_Z f ?= 1 # 2)%Q eqn:C.
  - apply Qeq_alt in C.
    destruct (Z.even f) eqn:Ev.
    + right. split; [|exact Ev].
      rewrite C. reflexivity.
    + right. split.
      * rewrite Hf1.
        assert (E : (x - (inject_Z f + 1) == - (1 # 2))%Q) by lra.
        rewrite E. reflexivity.
      * rewrite Z.even_add, Ev. reflexivity.
  - apply Qlt_alt in C. left.
    apply Qabs_Qlt_condition. split; lra.
  - apply Qgt_alt in C. left.
    rewrite Hf1. apply Qabs_Qlt_condition. split; lra.
Qed.

(** [py_round2] gives a whole number of hundredths, at most half a
    hundredth away. *)
Lemma py_round2_near (x : Q) :
  exists n : Z,
    (py_round2 x == n # 100)%Q /\ (Qabs (py_round2 x - x) <= 1 # 200)%Q.
Proof.
  exists (py_round (x * 100)). unfold py_round2.
  set (n := py_round (x * 100)).
  assert (En : (inject_Z n / 100 == n # 100)%Q).
  { unfold Qeq, Qdiv, Qmult, Qinv, inject_Z. simpl Qnum; simpl Qden. lia. }
  split; [exact En|].
  assert (Hn : (Qabs (x * 100 - inject_Z n) <= 1 # 2)%Q).
  { subst n. destruct (py_round_nearest (x * 100)) as [Hlt | [Heq _]].
    - now apply Qlt_le_weak.
    - rewrite Heq. apply Qle_refl. }
  apply Qabs_Qle_condition in Hn. destruct Hn as [Hlo Hhi].
  assert (Ei : (inject_Z n / 100 == inject_Z n * (1 # 100))%Q) by reflexivity.
  apply Qabs_Qle_condition. rewrite Ei. split; lra.
Qed.

(** ** Quarter-hour rounding *)

Lemma hour_offset_split (dt : Z) :
  minute dt * us_minute + second dt * us_second + microsecond dt = dt mod us_hour.
Proof.
  unfold minute, second, microsecond, us_minute, us_second, us_hour.
  Z.div_mod_to_equations. lia.
Qed.

Lemma total_minutes_frac (dt : Z) :
  (total_minutes dt / 15 == (dt mod us_hour) # 900000000)%Q.
Proof.
  rewrite <- hour_offset_split.
  unfold total_minutes, us_minute, us_second.
  generalize (minute dt) (second dt) (microsecond dt). intros m s u.
  unfold Qeq, Qdiv, Qmult, Qplus, Qinv, inject_Z; simpl Qnum; simpl Qden.
  lia.
Qed.

Lemma quarter_hours_cases (dt : Z) :
  let r := dt mod us_hour in
  quarter_hours dt =
  15 * match 2 * (r mod us_quarter) ?= us_quarter with
       | Lt => r / us_quarter
       | Gt => r / us_quarter + 1
       | Eq => if Z.even (r / us_quarter) then r / us_quarter
               else r / us_quarter + 1
       end.
Proof.
  intros r. unfold quarter_hours.
  rewrite (py_round_comp _ _ (total_minutes_frac dt)), py_round_frac.
  fold r. change (Z.pos 900000000) with us_quarter. lia.
Qed.

Lemma quarter_hours_range (dt : Z) : In (quarter_hours dt) [0; 15; 30; 45; 60].
Proof.
  rewrite quarter_hours_cases. cbv zeta.
  assert (R : 0 <= dt mod us_hour < us_hour) by (apply Z.mod_pos_bound; reflexivity).
  set (r := dt mod us_hour) in *.
  assert (K : 0 <= r / us_quarter <= 3).
  { unfold us_hour, us_quarter in *. Z.div_mod_to_equations. lia. }
  assert (D : r / us_quarter = 0 \/ r / us_quarter = 1 \/
              r / us_quarter = 2 \/ r / us_quarter = 3) by lia.
  simpl In.
  destruct D as [D | [D | [D | D]]]; rewrite D;
    destruct (2 * (r mod us_quarter) ?= us_quarter); simpl; lia.
Qed.

Lemma replace_minute_hour (dt m : Z) :
  replace_minute dt m = us_hour * (dt / us_hour) + m * us_minute.
Proof.
  unfold replace_minute. rewrite hour_offset_split.
  pose proof (Z.div_mod dt us_hour). unfold us_hour in *. lia.
Qed.

Lemma fields_hour_aligned (k m : Z) :
  0 <= m < 60 ->
  let r := us_hour * k + m * us_minute in
  minute r = m /\ second r = 0 /\ microsecond r = 0 /\
  hour r = k mod 24 /\ date r = k / 24.
Proof.
  intros Hm r. subst r.
  unfold minute, second, microsecond, hour, date,
    us_hour, us_minute, us_second, us_day.
  repeat split; Z.div_mod_to_equations; lia.
Qed.

Lemma hour_date_of_hours (dt : Z) :
  hour dt = (dt / us_hour) mod 24 /\ date dt = (dt / us_hour) / 24.
Proof.
  unfold hour, date, us_hour, us_day. split; [reflexivity|].
  Z.div_mod_to_equations. lia.
Qed.

(** Rounding is the nearest multiple of a quarter hour on the whole time
    line, ties to the even quarter. *)
Lemma round_to_quarter_hour_global (dt : Z) :
  round_to_quarter_hour dt = us_quarter * py_round (dt # 900000000).
Proof.
  unfold round_to_quarter_hour.
  pose proof (quarter_hours_range dt) as Hr.
  rewrite !replace_minute_hour.
  revert Hr. rewrite quarter_hours_cases. cbv zeta.
  rewrite py_round_frac. change (Z.pos 900000000) with us_quarter.
  assert (R : 0 <= dt mod us_hour < us_hour) by (apply Z.mod_pos_bound; reflexivity).
  assert (E1 : (dt mod us_hour) mod us_quarter = dt mod us_quarter).
  { unfold us_hour, us_quarter in *. Z.div_mod_to_equations. lia. }
  assert (E2 : dt / us_quarter = 4 * (dt / us_hour) + (dt mod us_hour) / us_quarter).
  { unfold us_hour, us_quarter in *. Z.div_mod_to_equations. lia. }
  assert (E3 : (dt + us_hour) / us_hour = dt / us_hour + 1).
  { unfold us_hour. Z.div_mod_to_equations. lia. }
  assert (Ev : Z.even (dt / us_quarter) = Z.even ((dt mod us_hour) / us_quarter)).
  { rewrite E2, Z.even_add, Z.even_mul. simpl. now destruct (Z.even _). }
  rewrite E1, E3, Ev, E2.
  set (k := (dt mod us_hour) / us_quarter).
  set (h := dt / us_hour).
  intros Hr.
  destruct (2 * (dt mod us_quarter) ?= us_quarter);
    [destruct (Z.even k)| |];
    match goal with
    | |- context [60 <=? ?q] => destruct (Z.leb_spec 60 q)
    end; simpl in Hr; unfold us_hour, us_minute, us_quarter in *; lia.
Qed.

Lemma round_to_quarter_hour_aligned (dt : Z) :
  round_to_quarter_hour dt mod us_quarter = 0.
Proof.
  rewrite round_to_quarter_hour_global, Z.mul_comm. apply Z.mod_mul. discriminate.
Qed.

(** The rounded value is the quarter at or below [dt], or the next one. *)
Lemma round_to_quarter_hour_near (dt : Z) :
  round_to_quarter_hour dt = us_quarter * (dt / us_quarter) \/
  round_to_quarter_hour dt = us_quarter * (dt / us_quarter) + us_quarter.
Proof.
  rewrite round_to_quarter_hour_global, py_round_frac.
  change (Z.pos 900000000) with us_quarter.
  destruct (2 * (dt mod us_quarter) ?= us_quarter);
    [destruct (Z.even _)| |]; unfold us_quarter; lia.
Qed.

Lemma round_to_quarter_hour_fixed (k : Z) :
  round_to_quarter_hour (us_quarter * k) = us_quarter * k.
Proof.
  rewrite round_to_quarter_hour_global, py_round_frac.
  change (Z.pos 900000000) with us_quarter.
  rewrite (Z.mul_comm us_quarter k), Z.mod_mul, Z.div_mul by discriminate.
  simpl. lia.
Qed.

(** Rounding never moves a datetime to an earlier date. *)
Lemma round_to_quarter_hour_date (dt : Z) :
  date dt <= date (round_to_quarter_hour dt).
Proof.
  unfold date.
  destruct (round_to_quarter_hour_near dt) as [E | E]; rewrite E;
    unfold us_quarter, us_day; Z.div_mod_to_equations; lia.
Qed.

(** C3: quarter-hour rounding.  With [q] fifteen times the nearest
    integer (ties to even) of [total_minutes / 15], [q] is one of 0, 15,
    30, 45, 60; when [q] is 60 the result is the next hour with minute 0,
    otherwise the same hour with minute [q]; the result has second and
    microsecond 0 and its minute is one of 0, 15, 30, 45. *)
Theorem round_to_quarter_hour_spec (dt : Z) :
  let x := (total_minutes dt / 15)%Q in
  let n := py_round x in
  let r := round_to_quarter_hour dt in
  ((total_minutes dt ==
    inject_Z (minute dt) + inject_Z (second dt) / 60
    + inject_Z (microsecond dt) / 60000000)%Q) /\
  ((Qabs (x - inject_Z n) < 1 # 2)%Q \/
   ((Qabs (x - inject_Z n) == 1 # 2)%Q /\ Z.even n = true)) /\
  quarter_hours dt = 15 * n /\
  In (quarter_hours dt) [0; 15; 30; 45; 60] /\
  ((quarter_hours dt = 60 /\ r = replace_minute (dt + us_hour) 0 /\
    minute r = 0 /\ hour r = hour (dt + us_hour) /\ date r = date (dt + us_hour))
   \/
   (quarter_hours dt < 60 /\ r = replace_minute dt (quarter_hours dt) /\
    minute r = quarter_hours dt /\ hour r = hour dt /\ date r = date dt)) /\
  second r = 0 /\ microsecond r = 0 /\ In (minute r) [0; 15; 30; 45].
Proof.
  intros x n r.
  pose proof (quarter_hours_range dt) as Hq.
  assert (Hr : (quarter_hours dt = 60 /\ r = replace_minute (dt + us_hour) 0) \/
               (quarter_hours dt < 60 /\ r = replace_minute dt (quarter_hours dt))).
  { subst r. unfold round_to_quarter_hour.
    destruct (Z.leb_spec 60 (quarter_hours dt)); [left | right]; split;
      auto; simpl in Hq; lia. }
  split; [reflexivity|].
  split; [apply py_round_nearest|].
  split; [unfold quarter_hours; fold x; fold n; lia|].
  split; [exact Hq|].
  destruct Hr as [[Hq60 Er] | [Hlt Er]].
  - rewrite replace_minute_hour in Er.
    destruct (fields_hour_aligned ((dt + us_hour) / us_hour) 0 ltac:(lia))
      as (Hm & Hs & Hu & Hh & Hd).
    destruct (hour_date_of_hours (dt + us_hour)) as [Hh' Hd'].
    rewrite <- Er in Hm, Hs, Hu, Hh, Hd.
    split; [left; rewrite replace_minute_hour; repeat split; auto; congruence|].
    rewrite Hm. simpl. auto.
  - rewrite replace_minute_hour in Er.
    assert (Hb : 0 <= quarter_hours dt < 60) by (simpl in Hq; lia).
    destruct (fields_hour_aligned (dt / us_hour) (quarter_hours dt) Hb)
      as (Hm & Hs & Hu & Hh & Hd).
    destruct (hour_date_of_hours dt) as [Hh' Hd'].
    rewrite <- Er in Hm, Hs, Hu, Hh, Hd.
    split; [right; rewrite replace_minute_hour; repeat split; auto; congruence|].
    rewrite Hm. simpl in Hq. simpl. lia.
Qed.

(** ** Session merger *)

Lemma combine_date_time (dt : Z) : combine (date dt) (time dt) = dt.
Proof.
  unfold combine, date, time. pose proof (Z.div_mod dt us_day).
  unfold us_day in *. lia.
Qed.

Lemma start_dt_session_of (a b : Z) : start_dt (session_of a b) = a.
Proof. apply combine_date_time. Qed.

Lemma end_dt_session_of (a b : Z) : end_dt (session_of a b) = b.
Proof. apply combine_date_time. Qed.

Lemma to_interval_final_session (iv : interval) :
  to_interval (final_session iv) = iv.
Proof.
  destruct iv as [a b]. unfold to_interval, final_session. simpl.
  now rewrite start_dt_session_of, end_dt_session_of.
Qed.

Lemma insert_interval_perm (x : interval) (l : list interval) :
  Permutation (x :: l) (insert_interval x l).
Proof.
  induction l as [|y l IH]; simpl; [reflexivity|].
  destruct (iv_start x <=? iv_start y); [reflexivity|].
  rewrite perm_swap. now apply perm_skip.
Qed.

Lemma sort_intervals_perm (l : list interval) : Permutation l (sort_intervals l).
Proof.
  induction l as [|x l IH]; simpl; [reflexivity|].
  rewrite <- insert_interval_perm. now apply perm_skip.
Qed.

Lemma insert_interval_sorted (x : interval) (l : list interval) :
  StronglySorted le_start l -> StronglySorted le_start (insert_interval x l).
Proof.
  induction 1 as [|y l Hs IH Hy]; simpl.
  - repeat constructor.
  - destruct (Z.leb_spec (iv_start x) (iv_start y)) as [Hle | Hgt].
    + constructor; [now constructor|].
      constructor; [exact Hle|].
      eapply List.Forall_impl; [|exact Hy]. unfold le_start. intros; lia.
    + constructor; [exact IH|].
      rewrite <- (insert_interval_perm x l).
      constructor; [unfold le_start; lia | exact Hy].
Qed.

Lemma sort_intervals_sorted (l : list interval) :
  StronglySorted le_start (sort_intervals l).
Proof.
  induction l; simpl; [constructor | now apply insert_interval_sorted].
Qed.

(** A stable sort leaves a sorted list as it is. *)
Lemma sort_intervals_fixed (l : list interval) :
  StronglySorted le_start l -> sort_intervals l = l.
Proof.
  induction 1 as [|x l Hs IH Hx]; simpl; [reflexivity|].
  rewrite IH. destruct Hx as [|y l' Hxy _]; simpl; [reflexivity|].
  unfold le_start in Hxy.
  destruct (Z.leb_spec (iv_start x) (iv_start y)); [reflexivity | lia].
Qed.

(** The scan starts its output with an interval that begins where
    [current] begins and ends no earlier. *)
Lemma merge_scan_head (rest : list interval) (current : interval) :
  exists m out,
    merge_scan current rest = m :: out /\
    iv_start m = iv_start current /\ iv_end current <= iv_end m.
Proof.
  revert current. induction rest as [|next rest IH]; intros current; simpl.
  - exists current, []. repeat split; lia.
  - destruct (iv_start next <=? iv_end current + 15 * us_minute).
    + destruct (IH {| iv_start := iv_start current;
                      iv_end := Z.max (iv_end current) (iv_end next) |})
        as (m & out & E & Hs & He).
      simpl in Hs, He. exists m, out. repeat split; auto; lia.
    + exists current, (merge_scan next rest). repeat split; lia.
Qed.

(** Every output interval begins where some scanned interval begins. *)
Lemma merge_scan_starts (rest : list interval) (current m : interval) :
  In m (merge_scan current rest) ->
  exists x, In x (current :: rest) /\ iv_start m = iv_start x.
Proof.
  revert current. induction rest as [|next rest IH]; intros current; simpl.
  - intros [E | []]. exists current. subst m. auto.
  - destruct (iv_start next <=? iv_end current + 15 * us_minute).
    + intros Hm. destruct (IH _ Hm) as (x & [Ex | Hx] & E).
      * exists current. subst x. simpl in E. auto.
      * exists x. auto.
    + intros [E | Hm].
      * exists current. subst m. auto.
      * destruct (IH _ Hm) as (x & Hx & E). exists x. simpl in *. tauto.
Qed.

Lemma merge_scan_apart (rest : list interval) (current : interval) :
  StronglySorted le_start (current :: rest) ->
  StronglySorted apart (merge_scan current rest).
Proof.
  revert current. induction rest as [|next rest IH]; intros current Hs; simpl.
  - repeat constructor.
  - apply StronglySorted_inv in Hs. destruct Hs as [Hrest Hcur].
    pose proof (StronglySorted_inv Hrest) as [Hrest' Hnext].
    destruct (Z.leb_spec (iv_start next) (iv_end current + 15 * us_minute))
      as [Hle | Hgt].
    + apply IH. constructor; [exact Hrest'|].
      apply List.Forall_inv_tail in Hcur.
      eapply List.Forall_impl; [|exact Hcur]. unfold le_start. simpl. auto.
    + constructor; [now apply IH|].
      apply List.Forall_forall. intros m Hm.
      destruct (merge_scan_starts _ _ _ Hm) as (x & Hx & E).
      assert (Hnx : iv_start next <= iv_start x).
      { destruct Hx as [Ex | Hx]; [subst x; lia|].
        rewrite List.Forall_forall in Hnext. now apply Hnext. }
      apply List.Forall_inv in Hcur. unfold le_start in Hcur.
      unfold apart. lia.
Qed.

(** Once merged, nothing is left to merge. *)
Lemma merge_scan_fixed (rest : list interval) (current : interval) :
  StronglySorted apart (current :: rest) ->
  merge_scan current rest = current :: rest.
Proof.
  revert current. induction rest as [|next rest IH]; intros current Hs; simpl.
  - reflexivity.
  - apply StronglySorted_inv in Hs. destruct Hs as [Hrest Hcur].
    apply List.Forall_inv in Hcur. destruct Hcur as [_ Hgap].
    destruct (Z.leb_spec (iv_start next) (iv_end current + 15 * us_minute));
      [lia|].
    now rewrite IH.
Qed.

Lemma merge_scan_covers (rest : list interval) (current x : interval) :
  StronglySorted le_start (current :: rest) ->
  In x (current :: rest) ->
  exists m, In m (merge_scan current rest) /\
            iv_start m <= iv_start x /\ iv_end x <= iv_end m.
Proof.
  revert current. induction rest as [|next rest IH]; intros current Hs Hx.
  - destruct Hx as [Ex | []]. exists current. subst x. simpl. split; [auto | lia].
  - apply StronglySorted_inv in Hs. destruct Hs as [Hrest Hcur].
    pose proof (StronglySorted_inv Hrest) as [Hrest' Hnext].
    pose proof (List.Forall_inv Hcur) as Hcn. unfold le_start in Hcn.
    simpl merge_scan.
    destruct (Z.leb_spec (iv_start next) (iv_end current + 15 * us_minute))
      as [Hle | Hgt].
    + set (cur' := {| iv_start := iv_start current;
                      iv_end := Z.max (iv_end current) (iv_end next) |}).
      assert (Hs' : StronglySorted le_start (cur' :: rest)).
      { constructor; [exact Hrest'|]. apply List.Forall_inv_tail in Hcur.
        eapply List.Forall_impl; [|exact Hcur]. unfold le_start. simpl. auto. }
      destruct (merge_scan_head rest cur') as (m & out & E & Hms & Hme).
      simpl in Hms, Hme.
      destruct Hx as [Ex | [Ex | Hx]].
      * exists m. rewrite E. subst x. split; [left; reflexivity | lia].
      * exists m. rewrite E. subst x. split; [left; reflexivity | lia].
      * destruct (IH cur' Hs' (or_intror Hx)) as (m' & Hm' & Hb).
        exists m'. auto.
    + destruct Hx as [Ex | Hx].
      * exists current. subst x. split; [left; reflexivity | lia].
      * destruct (IH next Hrest Hx) as (m' & Hm' & Hb).
        exists m'. split; [right; exact Hm' | exact Hb].
Qed.

Lemma StronglySorted_map {A B : Type} (R : A -> A -> Prop) (R' : B -> B -> Prop)
    (f : A -> B) (l : list A) :
  (forall a b, R a b -> R' (f a) (f b)) ->
  StronglySorted R l -> StronglySorted R' (map f l).
Proof.
  intros HR. induction 1 as [|x l Hs IH Hx]; simpl; constructor; auto.
  apply List.Forall_forall. intros y Hy. apply in_map_iff in Hy.
  destruct Hy as (z & <- & Hz). apply HR.
  rewrite List.Forall_forall in Hx. auto.
Qed.

Lemma StronglySorted_pairs {A : Type} (R : A -> A -> Prop) (l : list A) :
  StronglySorted R l -> ForallOrdPairs R l.
Proof. induction 1; constructor; auto. Qed.

Lemma StronglySorted_weaken {A : Type} (R R' : A -> A -> Prop) (l : list A) :
  (forall a b, R a b -> R' a b) -> StronglySorted R l -> StronglySorted R' l.
Proof.
  intros HR Hs. rewrite <- (map_id l). eapply StronglySorted_map; eauto.
Qed.

Lemma merged_apart (sessions : list session) :
  StronglySorted (fun a b => starts_before a b /\ separated a b)
    (merge_overlapping_sessions sessions).
Proof.
  unfold merge_overlapping_sessions. destruct sessions as [|s0 sessions].
  - constructor.
  - pose proof (sort_intervals_sorted (map to_interval (s0 :: sessions))) as Hs.
    destruct (sort_intervals (map to_interval (s0 :: sessions)))
      as [|current rest]; [constructor|].
    apply (StronglySorted_map apart); [|now apply merge_scan_apart].
    intros a b [H1 H2]. unfold starts_before, separated, final_session.
    rewrite !start_dt_session_of, !end_dt_session_of. auto.
Qed.

(** C4: the output of the merger is sorted by start, no two of its
    sessions overlap, consecutive sessions are separated by strictly more
    than 15 minutes, and the hours of every output session are its own
    duration in hours rounded to two decimals: a whole number of
    hundredths at most half a hundredth away from [(end - start)], not a
    value carried over from the input. *)
Theorem merge_overlapping_sessions_postcondition (sessions : list session) :
  let out := merge_overlapping_sessions sessions in
  StronglySorted starts_before out /\
  ForallOrdPairs (fun a b => ~ overlap a b) out /\
  Sorted separated out /\
  Forall hours_rounded out.
Proof.
  intros out. pose proof (merged_apart sessions) as H. fold out in H.
  split; [|split; [|split]].
  - eapply StronglySorted_weaken; [|exact H]. simpl. tauto.
  - apply StronglySorted_pairs.
    eapply StronglySorted_weaken; [|exact H].
    unfold overlap, starts_before, separated, us_minute. simpl. lia.
  - apply StronglySorted_Sorted.
    eapply StronglySorted_weaken; [|exact H]. simpl. tauto.
  - subst out. unfold merge_overlapping_sessions.
    destruct sessions as [|s0 sessions]; [constructor|].
    destruct (sort_intervals (map to_interval (s0 :: sessions)))
      as [|current rest]; [constructor|].
    apply List.Forall_forall. intros m Hm. apply in_map_iff in Hm.
    destruct Hm as (iv & <- & _). unfold hours_rounded, final_session.
    rewrite start_dt_session_of, end_dt_session_of.
    apply py_round2_near.
Qed.

(** C5: merging the output of the merger returns it unchanged. *)
Theorem merge_overlapping_sessions_idempotent (sessions : list session) :
  merge_overlapping_sessions (merge_overlapping_sessions sessions)
  = merge_overlapping_sessions sessions.
Proof.
  assert (Hform : merge_overlapping_sessions sessions = [] \/
                  exists current rest,
                    StronglySorted le_start (current :: rest) /\
                    merge_overlapping_sessions sessions
                    = map final_session (merge_scan current rest)).
  { unfold merge_overlapping_sessions.
    destruct sessions as [|s0 sessions]; [now left|].
    pose proof (sort_intervals_sorted (map to_interval (s0 :: sessions))) as Hs.
    destruct (sort_intervals (map to_interval (s0 :: sessions)))
      as [|current rest]; [now left|].
    right. exists current, rest. auto. }
  destruct Hform as [E | (current & rest & Hs & E)]; rewrite E; [reflexivity|].
  pose proof (merge_scan_apart rest current Hs) as Hap.
  destruct (merge_scan_head rest current) as (m & out & Em & _).
  rewrite Em in *. unfold merge_overlapping_sessions.
  change (map final_session (m :: out))
    with (final_session m :: map final_session out) at 1.
  cbv iota.
  change (final_session m :: map final_session out)
    with (map final_session (m :: out)).
  rewrite map_map.
  rewrite (map_ext _ (fun iv => iv) to_interval_final_session), map_id.
  rewrite sort_intervals_fixed.
  - now rewrite merge_scan_fixed.
  - eapply StronglySorted_weaken; [|exact Hap]. unfold apart, le_start. tauto.
Qed.

(** C9: the merger returns the empty list for the empty list. *)
Theorem merge_overlapping_sessions_nil :
  merge_overlapping_sessions [] = [].
Proof. reflexivity. Qed.

(** C10: every input session lies inside some output session: an output
    session starts no later and ends no earlier. *)
Theorem merge_overlapping_sessions_covers (sessions : list session) (s : session) :
  In s sessions ->
  exists m, In m (merge_overlapping_sessions sessions) /\
            start_dt m <= start_dt s /\ end_dt s <= end_dt m.
Proof.
  intros Hs. unfold merge_overlapping_sessions.
  destruct sessions as [|s0 sessions]; [destruct Hs|].
  pose proof (sort_intervals_sorted (map to_interval (s0 :: sessions))) as Hsorted.
  assert (Hin : In (to_interval s) (sort_intervals (map to_interval (s0 :: sessions)))).
  { eapply Permutation_in; [apply sort_intervals_perm|]. now apply in_map. }
  destruct (sort_intervals (map to_interval (s0 :: sessions)))
    as [|current rest]; [destruct Hin|].
  destruct (merge_scan_covers rest current _ Hsorted Hin) as (m & Hm & H1 & H2).
  exists (final_session m). split; [now apply in_map|].
  unfold final_session. rewrite start_dt_session_of, end_dt_session_of.
  exact (conj H1 H2).
Qed.

Lemma merge_overlapping_sessions_covers_witness :
  let s1 := session_of 0 us_hour in
  let s2 := session_of us_hour (2 * us_hour) in
  In s1 [s1; s2] /\
  exists m, In m (merge_overlapping_sessions [s1; s2]) /\
            start_dt m <= start_dt s1 /\ end_dt s1 <= end_dt m.
Proof.
  intros s1 s2.
  split; [left; reflexivity|].
  apply (merge_overlapping_sessions_covers [s1; s2] s1). left; reflexivity.
Defined.

(** ** Session builder *)

Lemma insert_sorted_perm (x : Z) (l : list Z) :
  Permutation (x :: l) (insert_sorted x l).
Proof.
  induction l as [|y l IH]; simpl; [reflexivity|].
  destruct (x <=? y); [reflexivity|].
  rewrite perm_swap. now apply perm_skip.
Qed.

Lemma sorted_perm (l : list Z) : Permutation l (sorted l).
Proof.
  induction l as [|x l IH]; simpl; [reflexivity|].
  rewrite <- insert_sorted_perm. now apply perm_skip.
Qed.

Lemma filter_perm {A : Type} (p : A -> bool) (l l' : list A) :
  Permutation l l' -> Permutation (List.filter p l) (List.filter p l').
Proof.
  induction 1 as [| x l l' _ IH | x y l | l l' l'' _ IH1 _ IH2]; simpl.
  - reflexivity.
  - destruct (p x); [now apply perm_skip | exact IH].
  - destruct (p x), (p y); try reflexivity. apply perm_swap.
  - now rewrite IH1.
Qed.

(** The timestamps of the group of key [k] are the project's datetimes
    of that date, in some order. *)
Lemma group_timestamps_perm (dts : list Z) (k : Z) :
  Permutation (List.filter (on_date k) dts)
    (sorted (List.filter (on_date k) (sorted dts))).
Proof.
  rewrite <- sorted_perm. apply filter_perm, sorted_perm.
Qed.

Lemma insert_key_in (d x : Z) (l : list Z) :
  In x (insert_key d l) <-> x = d \/ In x l.
Proof.
  induction l as [|y l IH]; simpl; [intuition|].
  destruct (Z.ltb_spec d y); [simpl; intuition|].
  destruct (Z.eqb_spec d y); simpl; [subst; intuition|].
  rewrite IH. intuition.
Qed.

Lemma insert_key_sorted (d : Z) (l : list Z) :
  StronglySorted Z.lt l -> StronglySorted Z.lt (insert_key d l).
Proof.
  induction 1 as [|y l Hs IH Hy]; simpl.
  - repeat constructor.
  - destruct (Z.ltb_spec d y).
    + constructor; [now constructor|]. constructor; [assumption|].
      eapply List.Forall_impl; [|exact Hy]. intros; lia.
    + destruct (Z.eqb_spec d y); [now constructor|].
      constructor; [exact IH|].
      apply List.Forall_forall. intros x Hx. apply insert_key_in in Hx.
      rewrite List.Forall_forall in Hy. destruct Hx as [-> | Hx]; [lia | auto].
Qed.

Lemma group_keys_in (dts : list Z) (d : Z) :
  In d (group_keys dts) <-> exists t, In t dts /\ date t = d.
Proof.
  unfold group_keys. induction dts as [|t dts IH]; simpl.
  - split; [intros [] | intros (t & [] & _)].
  - rewrite insert_key_in, IH. split.
    + intros [-> | (t' & Ht & E)]; [exists t; auto | exists t'; auto].
    + intros (t' & [-> | Ht] & E); [left; auto | right; exists t'; auto].
Qed.

Lemma group_keys_sorted (dts : list Z) : StronglySorted Z.lt (group_keys dts).
Proof.
  unfold group_keys. induction (map date dts); simpl;
    [constructor | now apply insert_key_sorted].
Qed.

Lemma build_project_fold (cfg : config) (dts : list Z) :
  build_project cfg dts
  = fold_left (build_key cfg (sorted dts)) (group_keys (sorted dts)) ([], ∅).
Proof.
  unfold build_project, groupby_date.
  generalize (@nil session, (∅ : gmap Z Q)).
  induction (group_keys (sorted dts)) as [|k ks IH]; intros st; simpl;
    [reflexivity | apply IH].
Qed.

(** The start and the end of a closed session. *)
Lemma close_session_endpoints (a b : Z) :
  let rs := round_to_quarter_hour a in
  let re := round_to_quarter_hour b in
  let s := fst (close_session a b) in
  start_dt s = rs /\
  (((hours_between rs re < default_min_hours)%Q /\
    end_dt s = round_to_quarter_hour (rs + timedelta_hours default_min_hours))
   \/
   (~ (hours_between rs re < default_min_hours)%Q /\ end_dt s = re)) /\
  snd (close_session a b) = hours_between (start_dt s) (end_dt s).
Proof.
  intros rs re s. subst s. unfold close_session, ensure_minimum_session_duration.
  fold rs re. unfold Qlt_bool.
  destruct (Qle_bool default_min_hours (hours_between rs re)) eqn:C; simpl;
    rewrite start_dt_session_of, end_dt_session_of.
  - apply Qle_bool_iff in C. split; [reflexivity|]. split; [|reflexivity].
    right. split; [|reflexivity]. now apply Qle_not_lt.
  - split; [reflexivity|]. split; [|reflexivity].
    left. split; [|reflexivity]. apply Qnot_le_lt. intros Hle.
    apply Qle_bool_iff in Hle. congruence.
Qed.

Lemma close_session_start_date (a b : Z) :
  start_date (fst (close_session a b)) = date (round_to_quarter_hour a).
Proof.
  unfold close_session, ensure_minimum_session_duration.
  destruct (Qlt_bool _ _); reflexivity.
Qed.

Lemma closes_weaken (T T' : Z -> Prop) (l : list session) :
  (forall a, T a -> T' a) -> Forall (closes T) l -> Forall (closes T') l.
Proof.
  intros HT H. eapply List.Forall_impl; [|exact H].
  intros s (a & b & Ha & E). exists a, b. auto.
Qed.

Lemma session_loop_spec (cfg : config) (timestamps : list Z) :
  forall prev current acc sessions,
  exists added,
    snd (session_loop cfg prev timestamps current acc sessions)
    = sessions ++ added /\
    Forall (closes (fun a => a = current \/ In a timestamps)) added /\
    (fst (fst (session_loop cfg prev timestamps current acc sessions)) = current
     \/ In (fst (fst (session_loop cfg prev timestamps current acc sessions)))
          timestamps).
Proof.
  induction timestamps as [|t rest IH]; intros prev current acc sessions; simpl.
  - exists []. rewrite app_nil_r. auto.
  - destruct (Qle_bool (hours_between prev t) (max_session_gap_hours cfg)).
    + destruct (IH t current (acc + hours_between prev t)%Q sessions)
        as (added & E & Hc & Hcur).
      exists added. split; [exact E|]. split.
      * eapply closes_weaken; [|exact Hc]. intros a Ha; simpl in *; intuition auto.
      * destruct Hcur as [Hcur | Hcur]; [left | right; right]; exact Hcur.
    + match goal with
      | |- context [session_loop cfg t rest t ?a (sessions ++ [?s])] =>
          destruct (IH t t a (sessions ++ [s])) as (added & E & Hc & Hcur);
          exists (s :: added)
      end.
      split; [rewrite E, <- app_assoc; reflexivity|]. split.
      * constructor.
        -- eexists _, _. split; [left; reflexivity | reflexivity].
        -- eapply closes_weaken; [|exact Hc]. intros a Ha; simpl in *; intuition auto.
      * destruct Hcur as [Hcur | Hcur]; right; [left; symmetry | right]; exact Hcur.
Qed.

(** One day of the builder: the sessions it appends are closed from that
    day's timestamps, and the day's total is written as the code does -
    the single session's duration, or the sum over the list built so far
    of the hours of the sessions that start on that day. *)
Lemma build_day_spec (cfg : config) (sessions : list session)
    (daily_hours : gmap Z Q) (day : Z) (timestamps : list Z) :
  exists added,
    fst (build_day cfg (sessions, daily_hours) day timestamps)
    = sessions ++ added /\
    Forall (closes (fun a => In a timestamps)) added /\
    snd (build_day cfg (sessions, daily_hours) day timestamps)
    = match timestamps with
      | [] => daily_hours
      | [t] =>
          <[day := snd (close_session t
                          (t + timedelta_hours
                                 (min_activity_hours cfg * time_multiplier cfg)))]>
            daily_hours
      | _ =>
          <[day := sum_hours (List.filter (started_on day) (sessions ++ added))]>
            daily_hours
      end /\
    match timestamps with
    | [t] =>
        added = [fst (close_session t
                        (t + timedelta_hours
                               (min_activity_hours cfg * time_multiplier cfg)))]
    | _ => True
    end.
Proof.
  destruct timestamps as [|t0 [|t1 rest]].
  - exists []. simpl. rewrite app_nil_r. auto.
  - simpl.
    destruct (close_session t0 _) as [s h] eqn:E.
    exists [s]. simpl. repeat split; auto.
    constructor; [|constructor].
    eexists _, _. split; [left; reflexivity|]. now rewrite E.
  - unfold build_day.
    destruct (session_loop_spec cfg (t1 :: rest) t0 t0 0%Q sessions)
      as (added & E & Hc & Hcur).
    destruct (session_loop cfg t0 (t1 :: rest) t0 0%Q sessions)
      as [[current acc] sessions'].
    simpl in E, Hcur. subst sessions'.
    match goal with
    | |- context [fst (close_session current ?e)] =>
        exists (added ++ [fst (close_session current e)])
    end.
    cbn [fst snd]. rewrite <- app_assoc.
    split; [reflexivity|]. split; [|split; [reflexivity | exact I]].
    apply Forall_app. split.
    + eapply closes_weaken; [|exact Hc]. intros a Ha; simpl in *; intuition auto.
    + constructor; [|constructor].
      eexists _, _. split; [|reflexivity].
      destruct Hcur as [-> | Hcur]; [left; reflexivity | right; exact Hcur].
Qed.

Lemma build_key_spec (cfg : config) (dts : list Z) (st : list session * gmap Z Q)
    (k : Z) :
  let timestamps := sorted (List.filter (on_date k) (sorted dts)) in
  exists added,
    fst (build_key cfg (sorted dts) st k) = fst st ++ added /\
    Forall (closes (fun a => In a dts /\ date a = k)) added /\
    snd (build_key cfg (sorted dts) st k)
    = match timestamps with
      | [] => snd st
      | [t] =>
          <[k := snd (close_session t
                        (t + timedelta_hours
                               (min_activity_hours cfg * time_multiplier cfg)))]>
            (snd st)
      | _ =>
          <[k := sum_hours (List.filter (started_on k) (fst st ++ added))]>
            (snd st)
      end.
Proof.
  intros timestamps. destruct st as [sessions daily_hours]. unfold build_key.
  destruct (build_day_spec cfg sessions daily_hours k timestamps)
    as (added & E1 & Hc & E2 & _).
  exists added. split; [exact E1|]. split; [|exact E2].
  eapply closes_weaken; [|exact Hc].
  intros a Ha. subst timestamps.
  eapply Permutation_in in Ha; [|symmetry; apply group_timestamps_perm].
  apply List.filter_In in Ha. destruct Ha as [Ha Hd].
  split; [exact Ha|]. unfold on_date in Hd. lia.
Qed.

(** A session closed from a start on a later date does not start on [d]. *)
Lemma closes_later_not_started (d k : Z) (l : list session) :
  d < k ->
  Forall (closes (fun a => date a = k)) l ->
  List.filter (started_on d) l = [].
Proof.
  intros Hdk. induction 1 as [|s l (a & b & Ha & ->) _ IH]; simpl; [reflexivity|].
  unfold started_on at 1. rewrite close_session_start_date.
  pose proof (round_to_quarter_hour_date a).
  destruct (Z.eqb_spec (date (round_to_quarter_hour a)) d); [lia | exact IH].
Qed.

(** The groups of later dates leave the total of [d] and the sessions
    that start on [d] as they are. *)
Lemma later_keys_preserve (cfg : config) (dts : list Z) (d : Z) (ks : list Z) :
  Forall (fun k => d < k) ks ->
  forall st,
    snd (fold_left (build_key cfg (sorted dts)) ks st) !! d = snd st !! d /\
    List.filter (started_on d) (fst (fold_left (build_key cfg (sorted dts)) ks st))
    = List.filter (started_on d) (fst st).
Proof.
  induction 1 as [|k ks Hk _ IH]; intros st; simpl; [auto|].
  destruct (IH (build_key cfg (sorted dts) st k)) as [E1 E2].
  rewrite E1, E2.
  destruct (build_key_spec cfg dts st k) as (added & Ef & Hc & Es).
  rewrite Ef, Es. split.
  - destruct (sorted (List.filter (on_date k) (sorted dts))) as [|t0 [|t1 rest]];
      [reflexivity | |]; apply lookup_insert_ne; lia.
  - rewrite List.filter_app, (closes_later_not_started d k added Hk).
    + apply app_nil_r.
    + eapply closes_weaken; [|exact Hc]. intros a [_ Ha]. exact Ha.
Qed.

Lemma sorted_keys_split (ks : list Z) (d : Z) :
  StronglySorted Z.lt ks -> In d ks ->
  exists pre post, ks = pre ++ d :: post /\ Forall (fun k => d < k) post.
Proof.
  induction 1 as [|k ks Hs IH Hk]; intros Hd; [destruct Hd|].
  destruct Hd as [-> | Hd].
  - exists [], ks. auto.
  - destruct (IH Hd) as (pre & post & -> & Hpost).
    exists (k :: pre), post. auto.
Qed.

Lemma group_length (dts : list Z) (d : Z) :
  length (sorted (List.filter (on_date d) (sorted dts)))
  = length (List.filter (on_date d) dts).
Proof. symmetry. apply Permutation_length, group_timestamps_perm. Qed.

(** The total the code records for a date with events. *)
Lemma build_project_daily_hours (cfg : config) (dts : list Z) (d : Z) :
  In d (map date dts) ->
  snd (build_project cfg dts) !! d
  = Some match List.filter (on_date d) dts with
         | [t] =>
             snd (close_session t
                    (t + timedelta_hours
                           (min_activity_hours cfg * time_multiplier cfg)))
         | _ =>
             sum_hours (List.filter (started_on d) (fst (build_project cfg dts)))
         end.
Proof.
  intros Hd. rewrite build_project_fold.
  assert (Hk : In d (group_keys (sorted dts))).
  { apply group_keys_in. apply in_map_iff in Hd. destruct Hd as (t & E & Ht).
    exists t. split; [|exact E].
    eapply Permutation_in; [apply sorted_perm | exact Ht]. }
  destruct (sorted_keys_split _ d (group_keys_sorted (sorted dts)) Hk)
    as (pre & post & -> & Hpost).
  rewrite fold_left_app. simpl.
  set (st := fold_left (build_key cfg (sorted dts)) pre ([], ∅)).
  destruct (later_keys_preserve cfg dts d post Hpost
              (build_key cfg (sorted dts) st d)) as [E1 E2].
  rewrite E1, E2.
  destruct (build_key_spec cfg dts st d) as (added & Ef & _ & Es).
  rewrite Ef, Es.
  pose proof (group_timestamps_perm dts d) as Hp.
  pose proof (group_length dts d) as Hl.
  destruct (List.filter (on_date d) dts) as [|t0 [|t1 rest]] eqn:Efilter.
  - apply in_map_iff in Hd. destruct Hd as (t & E & Ht).
    assert (Hin : In t (List.filter (on_date d) dts)).
    { apply List.filter_In. split; [exact Ht|]. unfold on_date. lia. }
    rewrite Efilter in Hin. destruct Hin.
  - apply Permutation_length_1_inv in Hp. rewrite Hp.
    apply lookup_insert_eq.
  - destruct (sorted (List.filter (on_date d) (sorted dts)))
      as [|u0 [|u1 urest]]; try discriminate Hl.
    apply lookup_insert_eq.
Qed.

Lemma build_project_closes (cfg : config) (dts : list Z) :
  Forall (closes (fun a => In a dts)) (fst (build_project cfg dts)).
Proof.
  rewrite build_project_fold.
  assert (H : forall ks st,
             Forall (closes (fun a => In a dts)) (fst st) ->
             Forall (closes (fun a => In a dts))
               (fst (fold_left (build_key cfg (sorted dts)) ks st))).
  { induction ks as [|k ks IH]; intros st Hst; simpl; [exact Hst|].
    apply IH.
    destruct (build_key_spec cfg dts st k) as (added & Ef & Hc & _).
    rewrite Ef. apply Forall_app. split; [exact Hst|].
    eapply closes_weaken; [|exact Hc]. intros a [Ha _]. exact Ha. }
  apply H. constructor.
Qed.

Lemma timedelta_default_min_hours : timedelta_hours default_min_hours = us_quarter.
Proof. reflexivity. Qed.

(** The hours of a closed session are exactly its duration: two decimals
    hold every multiple of a quarter hour. *)
Lemma close_session_hours_exact (a b : Z) :
  (hours (fst (close_session a b)) == snd (close_session a b))%Q.
Proof.
  destruct (close_session_endpoints a b) as (Hs & He & Hh). cbv zeta in *.
  rewrite Hh.
  assert (Hrec : hours (fst (close_session a b))
                 = py_round2 (hours_between (start_dt (fst (close_session a b)))
                                (end_dt (fst (close_session a b))))).
  { unfold close_session, ensure_minimum_session_duration.
    destruct (Qlt_bool _ _); simpl;
      now rewrite start_dt_session_of, end_dt_session_of. }
  rewrite Hrec.
  assert (Hk : exists k, end_dt (fst (close_session a b))
                         - start_dt (fst (close_session a b)) = us_quarter * k).
  { rewrite Hs. destruct He as [[_ ->] | [_ ->]];
      rewrite !round_to_quarter_hour_global; eexists; rewrite <- Z.mul_sub_distr_l;
      reflexivity. }
  destruct Hk as [k Hk]. unfold py_round2, hours_between. rewrite Hk.
  assert (E : (inject_Z (us_quarter * k) / inject_Z us_hour * 100 == inject_Z (25 * k))%Q).
  { unfold Qeq, Qdiv, Qmult, Qinv, inject_Z, us_quarter, us_hour;
      simpl Qnum; simpl Qden. lia. }
  rewrite (py_round_comp _ _ E), py_round_Z.
  unfold Qeq, Qdiv, Qmult, Qinv, inject_Z, us_quarter, us_hour;
    simpl Qnum; simpl Qden. lia.
Qed.

(** C1 (as the code computes it): the daily total of a date with events
    is written while the sessions are built, before the merge.  For a
    date with two or more events it is the sum of the hours of the
    sessions of the pre-merge list that start on that date; for a date
    with one event it is the duration of the one session built for it.
    The list returned with it is the merge of that pre-merge list. *)
Theorem daily_hours_from_builder (cfg : config) (dts : list Z) (d : Z) :
  In d (map date dts) ->
  snd (analyze_project cfg dts)
  = merge_overlapping_sessions (fst (build_project cfg dts)) /\
  fst (analyze_project cfg dts) !! d
  = Some match List.filter (on_date d) dts with
         | [t] =>
             snd (close_session t
                    (t + timedelta_hours
                           (min_activity_hours cfg * time_multiplier cfg)))
         | _ =>
             sum_hours (List.filter (started_on d) (fst (build_project cfg dts)))
         end.
Proof.
  intros Hd. pose proof (build_project_daily_hours cfg dts d Hd) as H.
  unfold analyze_project. destruct (build_project cfg dts) as [sessions daily_hours].
  split; [reflexivity | exact H].
Qed.

Lemma daily_hours_from_builder_witness :
  let dts := [32400000000; 37800000000] in
  In 0 (map date dts) /\
  snd (analyze_project default_config dts)
  = merge_overlapping_sessions (fst (build_project default_config dts)) /\
  fst (analyze_project default_config dts) !! 0
  = Some (sum_hours (List.filter (started_on 0)
                       (fst (build_project default_config dts)))).
Proof.
  intros dts.
  split; [left; reflexivity|].
  apply (daily_hours_from_builder default_config dts 0). left; reflexivity.
Defined.

(** C1 fails as stated: three events of one project at 23:50 of day
    20298 and at 00:10 and 00:20 of the next day give the sessions
    23:45-00:00 and 00:15-00:30, which the merger joins into one session
    of 0.75 h starting on day 20298, while the recorded total of that day
    stays 0.25 h (and the next day keeps 0.25 h with no merged session
    starting on it). *)
Lemma daily_hours_not_from_merged_sessions :
  let text := Text "In Bonsai_Tutorials [https://www.dropbox.com/home/Gitea_OD/Bonsai_Tutorials], you edited House.ifc" in
  let rows :=
    [ {| timestamp := Some 1753833000; dataLink := NaN; blurb := text |};
      {| timestamp := Some 1753834200; dataLink := NaN; blurb := text |};
      {| timestamp := Some 1753834800; dataLink := NaN; blurb := text |} ] in
  let res := returned (analyze_all_projects (fun _ => None) to_utc
                         default_config rows) in
  exists daily_hours merged h h',
    project_hours res = [("Bonsai_Tutorials"%string, daily_hours)] /\
    project_sessions res = [("Bonsai_Tutorials"%string, merged)] /\
    merged = [session_of (combine 20298 85500000000) (combine 20299 1800000000)] /\
    daily_hours !! 20298 = Some h /\ (h == 1 # 4)%Q /\
    (sum_hours (List.filter (started_on 20298) merged) == 3 # 4)%Q /\
    ~ (h == sum_hours (List.filter (started_on 20298) merged))%Q /\
    daily_hours !! 20299 = Some h' /\ (h' == 1 # 4)%Q /\
    List.filter (started_on 20299) merged = [].
Proof.
  intros text rows res.
  exists (fst (analyze_project default_config
                 [1753833000000000; 1753834200000000; 1753834800000000])),
         (snd (analyze_project default_config
                 [1753833000000000; 1753834200000000; 1753834800000000])),
         (900000000 # 3600000000)%Q, (25 # 100)%Q.
  split; [vm_compute; reflexivity|].
  split; [vm_compute; reflexivity|].
  split; [vm_compute; reflexivity|].
  split; [vm_compute; reflexivity|].
  split; [vm_compute; reflexivity|].
  split; [vm_compute; reflexivity|].
  split; [vm_compute; discriminate|].
  split; [vm_compute; reflexivity|].
  split; vm_compute; reflexivity.
Qed.

(** The sessions of the builder are its nominal sessions, closed. *)
Lemma session_loop_nominal (cfg : config) (timestamps : list Z) :
  forall prev current acc sessions,
    let '(current_session_start, daily_session_time, closed) :=
      session_loop cfg prev timestamps current acc sessions in
    closed
    ++ [fst (close_session current_session_start
               (current_session_start
                + timedelta_hours
                    ((daily_session_time + session_end_buffer cfg)
                     * time_multiplier cfg)))]
    = sessions ++ map close_pair (nominal_sessions cfg prev timestamps current acc).
Proof.
  induction timestamps as [|t rest IH]; intros prev current acc sessions.
  - reflexivity.
  - simpl. destruct (Qle_bool (hours_between prev t) (max_session_gap_hours cfg)).
    + apply IH.
    + specialize (IH t t (min_activity_hours cfg)
                    (sessions ++ [fst (close_session current
                       (current + timedelta_hours
                          ((acc + min_activity_hours cfg) * time_multiplier cfg)))])).
      destruct (session_loop cfg t rest t (min_activity_hours cfg) _)
        as [[c a] closed].
      rewrite IH, <- app_assoc. reflexivity.
Qed.

Lemma build_day_nominal (cfg : config) (sessions : list session)
    (daily_hours : gmap Z Q) (day : Z) (timestamps : list Z) :
  fst (build_day cfg (sessions, daily_hours) day timestamps)
  = sessions ++ map close_pair (nominal_day cfg timestamps).
Proof.
  destruct timestamps as [|t0 [|t1 rest]].
  - simpl. now rewrite app_nil_r.
  - unfold build_day.
    destruct (close_session t0 _) as [s actual_hours] eqn:E.
    simpl. unfold close_pair. simpl. now rewrite E.
  - unfold build_day, nominal_day.
    pose proof (session_loop_nominal cfg (t1 :: rest) t0 t0 0%Q sessions) as H.
    destruct (session_loop cfg t0 (t1 :: rest) t0 0%Q sessions) as [[c a] closed].
    simpl fst. exact H.
Qed.

Lemma build_keys_nominal (cfg : config) (project_df : list Z) (ks : list Z) :
  forall st,
    fst (fold_left (build_key cfg project_df) ks st)
    = fst st
      ++ map close_pair
           (flat_map (fun k => nominal_day cfg
                                 (sorted (List.filter (on_date k) project_df))) ks).
Proof.
  induction ks as [|k ks IH]; intros [sessions daily_hours].
  - simpl. now rewrite app_nil_r.
  - cbn [fold_left]. rewrite IH. unfold build_key.
    rewrite build_day_nominal. cbn [flat_map fst].
    rewrite map_app, app_assoc. reflexivity.
Qed.

Lemma build_project_nominal (cfg : config) (dts : list Z) :
  fst (build_project cfg dts) = map close_pair (nominal_project cfg dts).
Proof.
  rewrite build_project_fold, build_keys_nominal. simpl.
  unfold nominal_project, groupby_date. f_equal.
  induction (group_keys (sorted dts)) as [|k ks IH]; simpl; [reflexivity|].
  now rewrite IH.
Qed.

(** Every nominal session starts at an event. *)
Lemma nominal_sessions_starts (cfg : config) (timestamps : list Z) :
  forall prev current acc,
    Forall (fun p => fst p = current \/ In (fst p) timestamps)
      (nominal_sessions cfg prev timestamps current acc).
Proof.
  induction timestamps as [|t rest IH]; intros prev current acc; simpl.
  - constructor; [now left | constructor].
  - destruct (Qle_bool _ _).
    + eapply List.Forall_impl; [|apply IH]. simpl. intuition.
    + constructor; [now left|].
      eapply List.Forall_impl; [|apply IH]. simpl. intuition.
Qed.

Lemma nominal_day_starts (cfg : config) (timestamps : list Z) :
  Forall (fun p => In (fst p) timestamps) (nominal_day cfg timestamps).
Proof.
  destruct timestamps as [|t0 [|t1 rest]].
  - constructor.
  - constructor; [now left | constructor].
  - unfold nominal_day.
    eapply List.Forall_impl; [|apply nominal_sessions_starts].
    simpl. intuition.
Qed.

Lemma nominal_project_starts (cfg : config) (dts : list Z) :
  Forall (fun p => In (fst p) dts) (nominal_project cfg dts).
Proof.
  unfold nominal_project. apply List.Forall_forall. intros p Hp.
  apply in_flat_map in Hp. destruct Hp as (g & Hg & Hp).
  unfold groupby_date in Hg. apply in_map_iff in Hg.
  destruct Hg as (k & <- & _). simpl in Hp.
  pose proof (nominal_day_starts cfg (sorted (List.filter (on_date k) (sorted dts)))) as H.
  rewrite List.Forall_forall in H. specialize (H p Hp).
  eapply Permutation_in in H; [|symmetry; apply sorted_perm].
  apply List.filter_In in H. destruct H as [H _].
  eapply Permutation_in; [symmetry; apply sorted_perm | exact H].
Qed.

(** A quarter hour after a quarter-hour mark is a quarter-hour mark. *)
Lemma quarter_after_rounded (t : Z) :
  round_to_quarter_hour (round_to_quarter_hour t + timedelta_hours (1 # 4))
  = round_to_quarter_hour t + 15 * us_minute.
Proof.
  change (timedelta_hours (1 # 4)) with us_quarter.
  rewrite (round_to_quarter_hour_global t).
  replace (us_quarter * py_round (t # 900000000) + us_quarter)
    with (us_quarter * (py_round (t # 900000000) + 1)) by lia.
  rewrite round_to_quarter_hour_fixed. unfold us_quarter, us_minute. lia.
Qed.

(** Events at 09:00, 09:01 and 12:00: the first session is closed by the
    long gap with the nominal end 09:00 + (1/60 + 0.25) h = 09:16, the
    last one after the loop with 12:00 + (0.25 + 0.25) h = 12:30. *)
Example nominal_project_two_sessions :
  nominal_project default_config [32400000000; 32460000000; 43200000000]
  = [(32400000000, 33360000000); (43200000000, 45000000000)].
Proof. vm_compute. reflexivity. Qed.

(** C2 (as the code applies it): the sessions of the builder are, one for
    one and in order, its nominal sessions - an event as start, and the
    nominal end the builder computes for it - closed as follows.  With
    both endpoints rounded to the quarter hour, when the rounded duration
    is below 0.25 h - the default of [min_hours], whatever
    [min_activity_hours] is - the session runs from the rounded start to
    the rounded start plus 0.25 h, rounded again, which is 15 minutes
    after the start; otherwise it runs from the rounded start to the
    rounded end, unchanged.  So every session lasts at least 15
    minutes. *)
Theorem builder_floor_is_default (cfg : config) (dts : list Z) :
  Forall2
    (fun s p =>
       let rounded_start := round_to_quarter_hour (fst p) in
       let rounded_end := round_to_quarter_hour (snd p) in
       In (fst p) dts /\
       (((hours_between rounded_start rounded_end < 1 # 4)%Q /\
         s = session_of rounded_start
               (round_to_quarter_hour (rounded_start + timedelta_hours (1 # 4))) /\
         end_dt s = rounded_start + 15 * us_minute)
        \/
        (~ (hours_between rounded_start rounded_end < 1 # 4)%Q /\
         s = session_of rounded_start rounded_end)) /\
       15 * us_minute <= end_dt s - start_dt s)
    (fst (build_project cfg dts)) (nominal_project cfg dts).
Proof.
  rewrite build_project_nominal.
  pose proof (nominal_project_starts cfg dts) as Hin.
  induction Hin as [|p l Hp _ IH]; simpl; constructor; [|exact IH].
  split; [exact Hp|]. clear IH Hp.
  destruct p as [a b]. unfold close_pair, close_session. simpl fst; simpl snd.
  set (rs := round_to_quarter_hour a). set (re := round_to_quarter_hour b).
  unfold ensure_minimum_session_duration, default_min_hours, Qlt_bool.
  destruct (Qle_bool (1 # 4) (hours_between rs re)) eqn:C; simpl.
  - apply Qle_bool_iff in C. split.
    + right. split; [now apply Qle_not_lt | reflexivity].
    + rewrite start_dt_session_of, end_dt_session_of.
      unfold hours_between, Qle, Qdiv, Qmult, Qinv, inject_Z, us_hour in C.
      simpl Qnum in C; simpl Qden in C. unfold us_minute. lia.
  - assert (Hlt : (hours_between rs re < 1 # 4)%Q).
    { apply Qnot_le_lt. intros Hle. apply Qle_bool_iff in Hle. congruence. }
    subst rs. rewrite end_dt_session_of, start_dt_session_of, quarter_after_rounded.
    split; [|lia].
    left. split; [exact Hlt|]. split; reflexivity.
Qed.

(** C2 fails as stated: with [min_activity_hours = 1] and
    [time_multiplier = 1/2], one event at 09:00 gives the session
    09:00-09:30; its rounded duration, 0.5 h, is below
    [min_activity_hours], yet the end is not 09:00 + 1 h. *)
Lemma builder_floor_not_min_activity_hours :
  let cfg := {| time_multiplier := 1 # 2; min_activity_hours := 1;
                max_session_gap_hours := 2; session_end_buffer := 1 # 4;
                min_activities := 1 |} in
  let t := 32400000000 in
  let rs := round_to_quarter_hour t in
  let re := round_to_quarter_hour
              (t + timedelta_hours (min_activity_hours cfg * time_multiplier cfg)) in
  fst (build_project cfg [t]) = [session_of rs re] /\
  (hours_between rs re < min_activity_hours cfg)%Q /\
  re = 34200000000 /\
  round_to_quarter_hour (rs + timedelta_hours (min_activity_hours cfg)) = 36000000000 /\
  end_dt (session_of rs re)
  <> round_to_quarter_hour (rs + timedelta_hours (min_activity_hours cfg)).
Proof.
  repeat split; try (vm_compute; reflexivity).
  vm_compute. discriminate.
Qed.

(** ** Project classification *)

(** The URL rule: with a dataLink that [urlparse] accepts, the project is
    the fourth non-empty path segment when there are at least four, the
    third when there are exactly three, the sentinel otherwise. *)
Lemma project_of_row_url (urlparse_path : string -> option string) (r : row)
    (path : string) :
  nonempty (py_str (dataLink r)) = true ->
  py_str (dataLink r) <> "nan"%string ->
  urlparse_path (py_str (dataLink r)) = Some path ->
  let path_segments := List.filter nonempty (py_split "/" path) in
  ((4 <= length path_segments)%nat /\
   project_of_row urlparse_path r = nth 3 path_segments EmptyString)
  \/
  (length path_segments = 3%nat /\
   project_of_row urlparse_path r = nth 2 path_segments EmptyString)
  \/
  ((length path_segments < 3)%nat /\
   project_of_row urlparse_path r = Unknown_Project).
Proof.
  intros Hne Hnan Hp segs. unfold project_of_row.
  rewrite Hne, Hp.
  destruct (String.eqb_spec (py_str (dataLink r)) "nan"); [contradiction|].
  simpl. unfold project_of_path. fold segs.
  destruct (Nat.leb_spec 4 (length segs)); [left; auto|].
  destruct (Nat.leb_spec 3 (length segs)); [right; left | right; right];
    split; auto; lia.
Qed.

(** Without a dataLink the blurb decides. *)
Lemma project_of_row_no_url (urlparse_path : string -> option string) (r : row) :
  dataLink r = Missing \/ dataLink r = NaN \/ dataLink r = Text EmptyString ->
  project_of_row urlparse_path r = project_of_blurb (py_str (blurb r)).
Proof.
  intros [E | [E | E]]; unfold project_of_row; rewrite E; reflexivity.
Qed.

(** C6, the text rule on two blurbs.  In the first no " [" follows
    "In ": the rule of the specification gives the sentinel, the code
    the rest of the text.  In the second, "In " occurs twice before
    " [": the code stops at the second "In ". *)
Theorem project_of_blurb_outside_pattern (urlparse_path : string -> option string) :
  let r1 := {| timestamp := Some 1753793081; dataLink := NaN;
               blurb := Text "[shared] In Bonsai_Tutorials" |} in
  let r2 := {| timestamp := Some 1753793081; dataLink := NaN;
               blurb := Text "In a In b [c]" |} in
  project_of_row urlparse_path r1 = "Bonsai_Tutorials"%string /\
  spec_project_of_text "[shared] In Bonsai_Tutorials" = Unknown_Project /\
  project_of_row urlparse_path r2 = "a"%string /\
  spec_project_of_text "In a In b [c]" = "a In b"%string.
Proof. repeat split; vm_compute; reflexivity. Qed.

(** ** Significant projects *)

Lemma count_add_keys (q : string) (counts : list (string * nat)) (x : string) :
  In x (map fst (count_add q counts)) <-> x = q \/ In x (map fst counts).
Proof.
  induction counts as [|[p n] counts IH]; simpl; [intuition|].
  destruct (String.eqb_spec q p); simpl; [subst; intuition|].
  rewrite IH. intuition.
Qed.

Lemma count_add_ok (q : string) (counts : list (string * nat)) :
  counter_ok counts -> counter_ok (count_add q counts).
Proof.
  induction counts as [|[p n] counts IH]; intros [Hnd Hpos]; simpl.
  - split.
    + constructor; [intros [] | constructor].
    + constructor; [simpl; lia | constructor].
  - simpl in Hnd. apply List.NoDup_cons_iff in Hnd. destruct Hnd as [Hp Hnd].
    apply Forall_cons_iff in Hpos. destruct Hpos as [Hn Hpos].
    destruct (String.eqb_spec q p) as [-> | Hne].
    + split; simpl; [constructor; assumption|].
      constructor; [simpl; lia | exact Hpos].
    + destruct (IH (conj Hnd Hpos)) as [Hnd' Hpos'].
      split; simpl; [|constructor; assumption].
      constructor; [|exact Hnd'].
      rewrite count_add_keys. intros [-> | Hin]; [congruence | contradiction].
Qed.

Lemma Counter_ok (l : list string) : counter_ok (Counter l).
Proof.
  unfold Counter.
  assert (H : forall counts, counter_ok counts ->
                counter_ok (fold_left (fun counts p => count_add p counts) l counts)).
  { induction l as [|p l IH]; intros counts Hc; simpl; [exact Hc|].
    apply IH, count_add_ok, Hc. }
  apply H. split; constructor.
Qed.

Lemma counter_in_iff (counts : list (string * nat)) (p : string) (n : nat) :
  counter_ok counts ->
  (In (p, n) counts <-> count_of p counts = n /\ (0 < n)%nat).
Proof.
  induction counts as [|[q m] counts IH]; intros [Hnd Hpos]; simpl.
  - split; [intros [] | lia].
  - simpl in Hnd. apply List.NoDup_cons_iff in Hnd. destruct Hnd as [Hq Hnd].
    apply Forall_cons_iff in Hpos. destruct Hpos as [Hm Hpos]. simpl in Hm.
    specialize (IH (conj Hnd Hpos)).
    destruct (String.eqb_spec p q) as [-> | Hne].
    + split.
      * intros [E | Hin]; [inversion E; subst; auto|].
        exfalso. apply Hq. apply in_map_iff. exists (q, n). auto.
      * intros [-> _]. left. reflexivity.
    + rewrite <- IH. split; [|auto].
      intros [E | Hin]; [inversion E; congruence | exact Hin].
Qed.

Lemma count_of_count_add (p q : string) (counts : list (string * nat)) :
  count_of p (count_add q counts)
  = if String.eqb p q then S (count_of p counts) else count_of p counts.
Proof.
  induction counts as [|[x n] counts IH]; simpl.
  - destruct (String.eqb p q); reflexivity.
  - destruct (String.eqb_spec q x) as [-> | Hqx]; simpl.
    + destruct (String.eqb p x); reflexivity.
    + rewrite IH. destruct (String.eqb_spec p x) as [-> | Hpx]; [|reflexivity].
      destruct (String.eqb_spec x q); [congruence | reflexivity].
Qed.

(** A counter holds, for each string, the number of its occurrences. *)
Lemma count_of_Counter (l : list string) (p : string) :
  count_of p (Counter l) = count_occ string_dec l p.
Proof.
  unfold Counter.
  assert (H : forall counts,
             count_of p (fold_left (fun counts p => count_add p counts) l counts)
             = (count_of p counts + count_occ string_dec l p)%nat).
  { induction l as [|q l IH]; intros counts; simpl; [lia|].
    rewrite IH, count_of_count_add.
    destruct (string_dec q p) as [-> | Hne].
    - rewrite String.eqb_refl. lia.
    - destruct (String.eqb_spec p q); [congruence | lia]. }
  rewrite H. reflexivity.
Qed.


Section AnalysisProperties.

Variable urlparse_path : string -> option string.
Variable to_local : time_unit -> Z -> option Z.

Let analyze := analyze_all_projects urlparse_path to_local.

Lemma analyze_cases (cfg : config) (rows : list row) :
  let projects := extract_project_names urlparse_path (map snd (dropna rows)) in
  analyze cfg rows = Failed Error_converting_timestamps \/
  exists hours sessions,
    analyze cfg rows
    = Completed {| project_hours := hours; project_sessions := sessions;
                   project_counts := Counter projects |} /\
    map fst hours = map fst (significant_projects cfg (Counter projects)) /\
    map fst sessions = map fst (significant_projects cfg (Counter projects)).
Proof.
  intros projects. unfold analyze, analyze_all_projects.
  destruct (convert_column to_local _ _) as [datetimes|]; [right | now left].
  eexists _, _. split; [reflexivity|].
  fold projects. rewrite !map_map. simpl. split; reflexivity.
Qed.

Lemma dropna_filter (rows : list row) :
  dropna (List.filter has_timestamp rows) = dropna rows.
Proof.
  induction rows as [|r rows IH]; simpl; [reflexivity|].
  unfold has_timestamp at 1.
  destruct (timestamp r) as [t|] eqn:E; simpl; [|exact IH].
  rewrite E, IH. reflexivity.
Qed.

Lemma dropna_rows (rows : list row) :
  map snd (dropna rows) = List.filter has_timestamp rows.
Proof.
  induction rows as [|r rows IH]; simpl; [reflexivity|].
  unfold has_timestamp at 1.
  destruct (timestamp r) as [t|]; simpl; now rewrite IH.
Qed.

Lemma dropna_none (rows : list row) :
  existsb has_timestamp rows = false -> dropna rows = [].
Proof.
  induction rows as [|r rows IH]; simpl; [reflexivity|].
  unfold has_timestamp at 1.
  destruct (timestamp r); simpl; [discriminate | exact IH].
Qed.


(** C8 (as the code behaves): the rows whose timestamp is not numeric
    are dropped and the run is the run on the other rows; unless the
    conversion of their timestamps fails, every kept row is counted
    under its project.  When no row has a numeric timestamp the run
    completes, on the empty table, and returns empty results: the
    early return of the failed conversion is not taken. *)
Theorem non_numeric_timestamps_dropped (cfg : config) (rows : list row) :
  analyze cfg rows = analyze cfg (List.filter has_timestamp rows) /\
  (analyze cfg rows = Failed Error_converting_timestamps \/
   forall p,
     event_count (returned (analyze cfg rows)) p
     = count_occ string_dec
         (map (project_of_row urlparse_path) (List.filter has_timestamp rows)) p) /\
  (existsb has_timestamp rows = true \/
   analyze cfg rows = Completed empty_results).
Proof.
  split; [|split].
  - unfold analyze, analyze_all_projects. now rewrite dropna_filter.
  - destruct (analyze_cases cfg rows) as [E | (hours & sessions & E & _)];
      [now left | right].
    intros p. rewrite E. unfold event_count. simpl.
    rewrite count_of_Counter. unfold extract_project_names.
    now rewrite dropna_rows.
  - destruct (existsb has_timestamp rows) eqn:E; [now left | right].
    unfold analyze, analyze_all_projects. rewrite (dropna_none rows E).
    reflexivity.
Qed.

End AnalysisProperties.

(** C8 fails as stated: on a table whose timestamps are all non-numeric
    the run does not fail; it completes and returns empty results. *)
Lemma all_non_numeric_run_completes :
  let rows :=
    [ {| timestamp := None;
         dataLink := Text "https://www.dropbox.com/pri/get/Gitea_OD/Bonsai_Tutorials/a.png";
         blurb := NaN |};
      {| timestamp := None; dataLink := NaN;
         blurb := Text "In Bonsai_Tutorials [https://www.dropbox.com/home]" |} ] in
  let to_utc := fun u t =>
    Some match u with Seconds => t * 1000000 | Milliseconds => t * 1000 end in
  let run := analyze_all_projects (fun _ => None) to_utc default_config rows in
  existsb has_timestamp rows = false /\
  run = Completed empty_results /\
  run <> Failed Error_converting_timestamps.
Proof.
  split; [reflexivity|]. split; [reflexivity | discriminate].
Qed.

(** ** The worked examples of the specification *)

(** An isolated event at 07:44: the session 07:45-08:00, 0.25 h. *)
Example isolated_event_0744 :
  fst (build_project default_config [27840000000])
  = [session_of 27900000000 28800000000]
  /\ (hours (session_of 27900000000 28800000000) == 1 # 4)%Q.
Proof. split; vm_compute; reflexivity. Qed.

(** Events at 09:00 and 10:30: one session 09:00-10:45, 1.75 h. *)
Example two_events_one_session :
  fst (build_project default_config [32400000000; 37800000000])
  = [session_of 32400000000 38700000000]
  /\ (hours (session_of 32400000000 38700000000) == 7 # 4)%Q.
Proof. split; vm_compute; reflexivity. Qed.

(** Events at 09:00 and 12:00: two sessions, 09:00-09:15 and 12:00-12:30. *)
Example two_events_two_sessions :
  fst (build_project default_config [32400000000; 43200000000])
  = [session_of 32400000000 33300000000; session_of 43200000000 45000000000].
Proof. vm_compute; reflexivity. Qed.

(** Ties go to the even quarter: 00:07:30 rounds down to 00:00 and
    00:22:30 rounds up to 00:30; 00:52:30 carries into the next hour. *)
Example round_to_quarter_hour_ties :
  round_to_quarter_hour 450000000 = 0 /\
  round_to_quarter_hour 1350000000 = 1800000000 /\
  round_to_quarter_hour 3150000000 = 3600000000.
Proof. repeat split; vm_compute; reflexivity. Qed.

Example detect_unit_examples :
  detect_unit [1700000000000] = Milliseconds /\
  detect_unit [1700000000] = Seconds /\
  detect_unit [] = Seconds.
Proof. repeat split; reflexivity. Qed.

(** * Further properties of the code *)

(** ** Quarter-hour rounding *)

(** X1: The rounded datetime is a quarter-hour mark, and no quarter-hour mark
    is closer to [dt]: it is at most 7.5 minutes away. *)
Theorem round_to_quarter_hour_closest (dt k : Z) :
  round_to_quarter_hour dt mod us_quarter = 0 /\
  2 * Z.abs (round_to_quarter_hour dt - dt) <= us_quarter /\
  Z.abs (round_to_quarter_hour dt - dt) <= Z.abs (us_quarter * k - dt).
Proof.
  split; [apply round_to_quarter_hour_aligned|].
  rewrite round_to_quarter_hour_global, py_round_frac.
  change (Z.pos 900000000) with us_quarter.
  pose proof (Z.div_mod dt us_quarter ltac:(discriminate)) as Hdm.
  pose proof (Z.mod_pos_bound dt us_quarter ltac:(reflexivity)) as Hr.
  set (q := dt / us_quarter) in *. set (r := dt mod us_quarter) in *.
  destruct (Z.compare_spec (2 * r) us_quarter) as [E | L | G];
    [destruct (Z.even q)| |]; unfold us_quarter in *; split; nia.
Qed.

(** X2: Rounding a rounded datetime changes nothing. *)
Theorem round_to_quarter_hour_idempotent (dt : Z) :
  round_to_quarter_hour (round_to_quarter_hour dt) = round_to_quarter_hour dt.
Proof.
  rewrite (round_to_quarter_hour_global dt). apply round_to_quarter_hour_fixed.
Qed.

(** X3: Rounding keeps the order of datetimes. *)
Theorem round_to_quarter_hour_monotone (a b : Z) :
  a <= b -> round_to_quarter_hour a <= round_to_quarter_hour b.
Proof.
  intros Hab. rewrite !round_to_quarter_hour_global, !py_round_frac.
  change (Z.pos 900000000) with us_quarter.
  pose proof (Z.div_mod a us_quarter ltac:(discriminate)) as Ha.
  pose proof (Z.mod_pos_bound a us_quarter ltac:(reflexivity)) as Hra.
  pose proof (Z.div_mod b us_quarter ltac:(discriminate)) as Hb.
  pose proof (Z.mod_pos_bound b us_quarter ltac:(reflexivity)) as Hrb.
  set (qa := a / us_quarter) in *. set (ra := a mod us_quarter) in *.
  set (qb := b / us_quarter) in *. set (rb := b mod us_quarter) in *.
  assert (Hq : qa < qb \/ (qa = qb /\ ra <= rb)) by (unfold us_quarter in *; nia).
  destruct Hq as [Hlt | [-> Hr]].
  - destruct (Z.compare_spec (2 * ra) us_quarter);
      destruct (Z.compare_spec (2 * rb) us_quarter);
      try destruct (Z.even qa); try destruct (Z.even qb);
      unfold us_quarter in *; nia.
  - destruct (Z.compare_spec (2 * ra) us_quarter);
      destruct (Z.compare_spec (2 * rb) us_quarter);
      try destruct (Z.even qb); unfold us_quarter in *; nia.
Qed.

Lemma round_to_quarter_hour_monotone_witness :
  27840000000 <= 28000000000 /\
  round_to_quarter_hour 27840000000 <= round_to_quarter_hour 28000000000.
Proof.
  split; [lia|]. apply (round_to_quarter_hour_monotone 27840000000 28000000000). lia.
Defined.

(** ** Minimum session duration *)

Lemma ensure_minimum_quarters_eq (start_dt end_dt k : Z) :
  start_dt mod us_quarter = 0 ->
  ensure_minimum_session_duration start_dt end_dt (k # 4)
  = (start_dt, Z.max end_dt (start_dt + k * us_quarter)).
Proof.
  intros Hal. unfold ensure_minimum_session_duration, Qlt_bool.
  assert (Htd : timedelta_hours (k # 4) = k * us_quarter).
  { unfold timedelta_hours.
    assert (E : ((k # 4) * inject_Z us_hour == inject_Z (k * us_quarter))%Q).
    { unfold Qeq, Qmult, inject_Z, us_hour, us_quarter; simpl Qnum; simpl Qden. lia. }
    rewrite (py_round_comp _ _ E). apply py_round_Z. }
  rewrite Htd.
  apply Z.mod_divide in Hal; [|discriminate]. destruct Hal as [j ->].
  replace (j * us_quarter + k * us_quarter) with (us_quarter * (j + k)) by lia.
  rewrite round_to_quarter_hour_fixed.
  destruct (Qle_bool (k # 4) (hours_between (j * us_quarter) end_dt)) eqn:C; simpl.
  - apply Qle_bool_iff in C.
    unfold hours_between, Qle, Qdiv, Qmult, Qinv, inject_Z, us_hour in C.
    simpl Qnum in C; simpl Qden in C.
    f_equal. unfold us_quarter in *. lia.
  - assert (Hlt : ~ (k # 4 <= hours_between (j * us_quarter) end_dt)%Q).
    { intros Hle. apply Qle_bool_iff in Hle. congruence. }
    unfold hours_between, Qle, Qdiv, Qmult, Qinv, inject_Z, us_hour in Hlt.
    simpl Qnum in Hlt; simpl Qden in Hlt.
    f_equal. unfold us_quarter in *. lia.
Qed.

(** X4: With a start on a quarter-hour mark and a minimum of [k] quarter
    hours, the returned end is the later of the given end and the start
    plus the minimum; the start is returned as it is. *)
Theorem ensure_minimum_session_duration_quarters (start_dt end_dt k : Z) :
  start_dt mod us_quarter = 0 ->
  ensure_minimum_session_duration start_dt end_dt (k # 4)
  = (start_dt, Z.max end_dt (start_dt + k * us_quarter)).
Proof. apply ensure_minimum_quarters_eq. Qed.

Lemma ensure_minimum_session_duration_quarters_witness :
  27900000000 mod us_quarter = 0 /\
  ensure_minimum_session_duration 27900000000 27900000000 (1 # 4)
  = (27900000000, Z.max 27900000000 (27900000000 + 1 * us_quarter)).
Proof.
  split; [reflexivity|].
  apply (ensure_minimum_session_duration_quarters 27900000000 27900000000 1).
  reflexivity.
Defined.

(** ** Session merger *)

Lemma merge_overlapping_sessions_form (sessions : list session) :
  sessions <> [] ->
  exists current rest,
    Permutation (map to_interval sessions) (current :: rest) /\
    StronglySorted le_start (current :: rest) /\
    merge_overlapping_sessions sessions
    = map final_session (merge_scan current rest).
Proof.
  intros Hne. unfold merge_overlapping_sessions.
  destruct sessions as [|s0 sessions]; [contradiction|].
  pose proof (sort_intervals_sorted (map to_interval (s0 :: sessions))) as Hs.
  pose proof (sort_intervals_perm (map to_interval (s0 :: sessions))) as Hp.
  destruct (sort_intervals (map to_interval (s0 :: sessions))) as [|current rest].
  - apply Permutation_length in Hp. discriminate.
  - exists current, rest. auto.
Qed.

Lemma merge_scan_ends (rest : list interval) (current m : interval) :
  In m (merge_scan current rest) ->
  exists x, In x (current :: rest) /\ iv_end m = iv_end x.
Proof.
  revert current. induction rest as [|next rest IH]; intros current; simpl.
  - intros [E | []]. exists current. subst m. auto.
  - destruct (iv_start next <=? iv_end current + 15 * us_minute).
    + intros Hm. destruct (IH _ Hm) as (x & [Ex | Hx] & E).
      * subst x. simpl in E.
        destruct (Z.max_spec (iv_end current) (iv_end next)) as [[_ Emax] | [_ Emax]];
          rewrite Emax in E; [exists next | exists current]; auto.
      * exists x. auto.
    + intros [E | Hm].
      * exists current. subst m. auto.
      * destruct (IH _ Hm) as (x & Hx & E). exists x. simpl in *. tauto.
Qed.

Lemma merge_scan_length (rest : list interval) (current : interval) :
  (1 <= length (merge_scan current rest) <= S (length rest))%nat.
Proof.
  revert current. induction rest as [|next rest IH]; intros current; simpl.
  - lia.
  - destruct (iv_start next <=? iv_end current + 15 * us_minute); simpl.
    + specialize (IH {| iv_start := iv_start current;
                        iv_end := Z.max (iv_end current) (iv_end next) |}). lia.
    + specialize (IH next). lia.
Qed.

Lemma merge_scan_ordered (rest : list interval) (current : interval) :
  iv_start current <= iv_end current ->
  Forall (fun x => iv_start x <= iv_end x) rest ->
  Forall (fun x => iv_start x <= iv_end x) (merge_scan current rest).
Proof.
  revert current. induction rest as [|next rest IH]; intros current Hc Hr; simpl.
  - constructor; [exact Hc | constructor].
  - apply Forall_cons_iff in Hr. destruct Hr as [Hn Hr].
    destruct (iv_start next <=? iv_end current + 15 * us_minute).
    + apply IH; [simpl; lia | exact Hr].
    + constructor; [exact Hc | apply IH; assumption].
Qed.

Lemma in_to_interval (sessions : list session) (x : interval) :
  In x (map to_interval sessions) ->
  exists s, In s sessions /\ iv_start x = start_dt s /\ iv_end x = end_dt s.
Proof.
  intros Hx. apply in_map_iff in Hx. destruct Hx as (s & <- & Hs).
  exists s. auto.
Qed.

Lemma py_round_nonneg (x : Q) : (0 <= x)%Q -> 0 <= py_round x.
Proof.
  intros Hx. unfold py_round.
  assert (Hf : 0 <= Qfloor x).
  { change 0 with (Qfloor 0). now apply Qfloor_resp_le. }
  destruct (x - inject_Z (Qfloor x) ?= 1 # 2)%Q; [destruct (Z.even _)| |]; lia.
Qed.

(** X5: Every merged session starts where some input session starts and ends
    where some input session ends: merging invents no endpoint. *)
Theorem merge_overlapping_sessions_endpoints (sessions : list session)
    (m : session) :
  In m (merge_overlapping_sessions sessions) ->
  exists s1 s2,
    In s1 sessions /\ In s2 sessions /\
    start_dt m = start_dt s1 /\ end_dt m = end_dt s2.
Proof.
  intros Hm.
  destruct sessions as [|s0 sessions]; [destruct Hm|].
  destruct (merge_overlapping_sessions_form (s0 :: sessions) ltac:(discriminate))
    as (current & rest & Hp & _ & E).
  rewrite E in Hm. apply in_map_iff in Hm. destruct Hm as (iv & <- & Hiv).
  destruct (merge_scan_starts _ _ _ Hiv) as (x & Hx & Ex).
  destruct (merge_scan_ends _ _ _ Hiv) as (y & Hy & Ey).
  apply (Permutation_in _ (Permutation_sym Hp)) in Hx.
  apply (Permutation_in _ (Permutation_sym Hp)) in Hy.
  destruct (in_to_interval _ _ Hx) as (s1 & Hs1 & E1 & _).
  destruct (in_to_interval _ _ Hy) as (s2 & Hs2 & _ & E2).
  exists s1, s2. unfold final_session.
  rewrite start_dt_session_of, end_dt_session_of.
  repeat split; auto; congruence.
Qed.

Lemma merge_overlapping_sessions_endpoints_witness :
  let s1 := session_of 0 us_hour in
  let s2 := session_of us_hour (2 * us_hour) in
  let m := session_of 0 (2 * us_hour) in
  In m (merge_overlapping_sessions [s1; s2]) /\
  exists a b,
    In a [s1; s2] /\ In b [s1; s2] /\
    start_dt m = start_dt a /\ end_dt m = end_dt b.
Proof.
  intros s1 s2 m.
  split; [left; vm_compute; reflexivity|].
  apply (merge_overlapping_sessions_endpoints [s1; s2] m).
  left; vm_compute; reflexivity.
Defined.

(** X6: Merging never adds sessions, and returns no session only for no
    session. *)
Theorem merge_overlapping_sessions_length (sessions : list session) :
  (length (merge_overlapping_sessions sessions) <= length sessions)%nat /\
  (merge_overlapping_sessions sessions = [] <-> sessions = []).
Proof.
  destruct sessions as [|s0 sessions]; [simpl; split; [lia | tauto]|].
  destruct (merge_overlapping_sessions_form (s0 :: sessions) ltac:(discriminate))
    as (current & rest & Hp & _ & E).
  rewrite E, length_map. apply Permutation_length in Hp.
  rewrite length_map in Hp. simpl in Hp.
  pose proof (merge_scan_length rest current) as Hl.
  split; [simpl; lia|].
  split; [|discriminate].
  intros H. apply (f_equal (@length session)) in H.
  rewrite length_map in H. simpl in H. lia.
Qed.

(** X7: When no input session ends before it starts, no merged session does,
    and the hours of the merged sessions are not negative. *)
Theorem merge_overlapping_sessions_ordered (sessions : list session) :
  Forall (fun s => start_dt s <= end_dt s) sessions ->
  Forall (fun m => start_dt m <= end_dt m /\ (0 <= hours m)%Q)
    (merge_overlapping_sessions sessions).
Proof.
  intros Hwf.
  destruct sessions as [|s0 sessions]; [constructor|].
  destruct (merge_overlapping_sessions_form (s0 :: sessions) ltac:(discriminate))
    as (current & rest & Hp & _ & E).
  rewrite E.
  assert (Hiv : Forall (fun x => iv_start x <= iv_end x) (current :: rest)).
  { apply List.Forall_forall. intros x Hx.
    apply (Permutation_in _ (Permutation_sym Hp)) in Hx.
    destruct (in_to_interval _ _ Hx) as (s & Hs & -> & ->).
    rewrite List.Forall_forall in Hwf. now apply Hwf. }
  apply Forall_cons_iff in Hiv. destruct Hiv as [Hc Hr].
  pose proof (merge_scan_ordered rest current Hc Hr) as Ho.
  apply List.Forall_forall. intros m Hm. apply in_map_iff in Hm.
  destruct Hm as (iv & <- & Hin).
  rewrite List.Forall_forall in Ho. specialize (Ho iv Hin).
  unfold final_session. rewrite start_dt_session_of, end_dt_session_of.
  split; [exact Ho|]. simpl. unfold py_round2.
  assert (Hx : (0 <= hours_between (iv_start iv) (iv_end iv) * 100)%Q).
  { unfold hours_between, Qle, Qdiv, Qmult, Qinv, inject_Z, us_hour.
    simpl Qnum; simpl Qden. lia. }
  apply py_round_nonneg in Hx.
  revert Hx. generalize (py_round (hours_between (iv_start iv) (iv_end iv) * 100)).
  intros n Hn. unfold Qle, Qdiv, Qmult, Qinv, inject_Z. simpl Qnum; simpl Qden. lia.
Qed.

Lemma merge_overlapping_sessions_ordered_witness :
  let s1 := session_of 0 us_hour in
  let s2 := session_of us_hour (2 * us_hour) in
  Forall (fun s => start_dt s <= end_dt s) [s1; s2] /\
  Forall (fun m => start_dt m <= end_dt m /\ (0 <= hours m)%Q)
    (merge_overlapping_sessions [s1; s2]).
Proof.
  intros s1 s2.
  assert (H : Forall (fun s => start_dt s <= end_dt s) [s1; s2]).
  { repeat constructor; vm_compute; discriminate. }
  split; [exact H|].
  apply (merge_overlapping_sessions_ordered [s1; s2] H).
Defined.

(** ** Sessions of the builder and of the analysis *)

Lemma py_round2_quarters (a b k : Z) :
  b - a = us_quarter * k ->
  (py_round2 (hours_between a b) == hours_between a b)%Q /\
  (hours_between a b == k # 4)%Q.
Proof.
  intros Hk. unfold py_round2, hours_between. rewrite Hk.
  assert (E : (inject_Z (us_quarter * k) / inject_Z us_hour * 100
               == inject_Z (25 * k))%Q).
  { unfold Qeq, Qdiv, Qmult, Qinv, inject_Z, us_quarter, us_hour;
      simpl Qnum; simpl Qden. lia. }
  rewrite (py_round_comp _ _ E), py_round_Z.
  split; unfold Qeq, Qdiv, Qmult, Qinv, inject_Z, us_quarter, us_hour;
    simpl Qnum; simpl Qden; lia.
Qed.

Lemma session_of_quarter_hour (a b : Z) :
  a mod us_quarter = 0 -> b mod us_quarter = 0 -> a + us_quarter <= b ->
  quarter_hour_session (session_of a b).
Proof.
  intros Ha Hb Hab. unfold quarter_hour_session.
  rewrite start_dt_session_of, end_dt_session_of.
  apply Z.mod_divide in Ha; [|discriminate]. destruct Ha as [i ->].
  apply Z.mod_divide in Hb; [|discriminate]. destruct Hb as [j ->].
  destruct (py_round2_quarters (i * us_quarter) (j * us_quarter) (j - i)
              ltac:(lia)) as [E1 E2].
  split; [apply Z.mod_mul; discriminate|].
  split; [apply Z.mod_mul; discriminate|].
  split; [exact Hab|].
  split; [exact E1|].
  simpl hours. rewrite E1, E2.
  unfold Qle, us_quarter in *; simpl Qnum; simpl Qden. lia.
Qed.

Lemma close_session_quarter_hour (a b : Z) :
  quarter_hour_session (fst (close_session a b)).
Proof.
  unfold close_session.
  change default_min_hours with (1 # 4)%Q.
  rewrite (ensure_minimum_quarters_eq
             (round_to_quarter_hour a) (round_to_quarter_hour b) 1
             (round_to_quarter_hour_aligned a)).
  simpl fst. rewrite Z.mul_1_l. apply session_of_quarter_hour.
  - apply round_to_quarter_hour_aligned.
  - pose proof (round_to_quarter_hour_aligned a) as Ha.
    pose proof (round_to_quarter_hour_aligned b) as Hb.
    apply Z.mod_divide in Ha; [|discriminate]. destruct Ha as [i Hi].
    apply Z.mod_divide in Hb; [|discriminate]. destruct Hb as [j Hj].
    rewrite Hi, Hj.
    destruct (Z.max_spec (j * us_quarter) (i * us_quarter + us_quarter))
      as [[_ ->] | [_ ->]].
    + replace (i * us_quarter + us_quarter) with ((i + 1) * us_quarter) by lia.
      apply Z.mod_mul. discriminate.
    + apply Z.mod_mul. discriminate.
  - lia.
Qed.

(** X8: Every session the builder emits has quarter-hour endpoints at least a
    quarter hour apart, and hours that are exactly its duration. *)
Theorem built_sessions_quarter_hours (cfg : config) (dts : list Z) (s : session) :
  In s (fst (build_project cfg dts)) -> quarter_hour_session s.
Proof.
  intros Hs. pose proof (build_project_closes cfg dts) as H.
  rewrite List.Forall_forall in H. destruct (H s Hs) as (a & b & _ & ->).
  apply close_session_quarter_hour.
Qed.

Lemma built_sessions_quarter_hours_witness :
  let s := session_of 27900000000 28800000000 in
  In s (fst (build_project default_config [27840000000])) /\
  quarter_hour_session s.
Proof.
  intros s. split; [left; vm_compute; reflexivity|].
  apply (built_sessions_quarter_hours default_config [27840000000] s).
  left; vm_compute; reflexivity.
Defined.

Lemma merge_scan_longer (g : Z) (rest : list interval) (current : interval) :
  iv_start current + g <= iv_end current ->
  Forall (fun x => iv_start x + g <= iv_end x) rest ->
  Forall (fun x => iv_start x + g <= iv_end x) (merge_scan current rest).
Proof.
  revert current. induction rest as [|next rest IH]; intros current Hc Hr; simpl.
  - constructor; [exact Hc | constructor].
  - apply Forall_cons_iff in Hr. destruct Hr as [Hn Hr].
    destruct (iv_start next <=? iv_end current + 15 * us_minute).
    + apply IH; [simpl; lia | exact Hr].
    + constructor; [exact Hc | apply IH; assumption].
Qed.

Lemma merge_preserves_quarter_hours (sessions : list session) :
  Forall quarter_hour_session sessions ->
  Forall quarter_hour_session (merge_overlapping_sessions sessions).
Proof.
  intros Hq.
  destruct sessions as [|s0 sessions]; [constructor|].
  destruct (merge_overlapping_sessions_form (s0 :: sessions) ltac:(discriminate))
    as (current & rest & Hp & _ & E).
  rewrite E. rewrite List.Forall_forall in Hq.
  assert (Hlong : Forall (fun x => iv_start x + us_quarter <= iv_end x)
                    (current :: rest)).
  { apply List.Forall_forall. intros x Hx.
    apply (Permutation_in _ (Permutation_sym Hp)) in Hx.
    destruct (in_to_interval _ _ Hx) as (s & Hs & -> & ->).
    apply (Hq s Hs). }
  apply Forall_cons_iff in Hlong. destruct Hlong as [Hc Hr].
  pose proof (merge_scan_longer us_quarter rest current Hc Hr) as Hl.
  rewrite List.Forall_forall in Hl.
  apply List.Forall_forall. intros m Hm. apply in_map_iff in Hm.
  destruct Hm as (iv & <- & Hiv).
  destruct (merge_scan_starts _ _ _ Hiv) as (x & Hx & Ex).
  destruct (merge_scan_ends _ _ _ Hiv) as (y & Hy & Ey).
  apply (Permutation_in _ (Permutation_sym Hp)) in Hx.
  apply (Permutation_in _ (Permutation_sym Hp)) in Hy.
  destruct (in_to_interval _ _ Hx) as (s1 & Hs1 & E1 & _).
  destruct (in_to_interval _ _ Hy) as (s2 & Hs2 & _ & E2).
  unfold final_session. apply session_of_quarter_hour.
  - rewrite Ex, E1. apply (Hq s1 Hs1).
  - rewrite Ey, E2. apply (Hq s2 Hs2).
  - apply (Hl iv Hiv).
Qed.

(** X9: Every session the analysis of a project returns, after the merge, has
    quarter-hour endpoints at least a quarter hour apart, and hours that
    are exactly its duration. *)
Theorem analyzed_sessions_quarter_hours (cfg : config) (dts : list Z)
    (m : session) :
  In m (snd (analyze_project cfg dts)) -> quarter_hour_session m.
Proof.
  unfold analyze_project.
  pose proof (build_project_closes cfg dts) as H.
  destruct (build_project cfg dts) as [sessions daily_hours]. simpl in *.
  intros Hm.
  assert (Hq : Forall quarter_hour_session sessions).
  { eapply List.Forall_impl; [|exact H].
    intros s (a & b & _ & ->). apply close_session_quarter_hour. }
  apply merge_preserves_quarter_hours in Hq.
  rewrite List.Forall_forall in Hq. now apply Hq.
Qed.

Lemma analyzed_sessions_quarter_hours_witness :
  let m := session_of 27900000000 28800000000 in
  In m (snd (analyze_project default_config [27840000000])) /\
  quarter_hour_session m.
Proof.
  intros m. split; [left; vm_compute; reflexivity|].
  apply (analyzed_sessions_quarter_hours default_config [27840000000] m).
  left; vm_compute; reflexivity.
Defined.

(** ** Daily totals and the number of sessions *)

Lemma group_timestamps_nonempty (dts : list Z) (k : Z) :
  In k (group_keys (sorted dts)) ->
  sorted (List.filter (on_date k) (sorted dts)) <> [].
Proof.
  intros Hk. apply group_keys_in in Hk. destruct Hk as (t & Ht & Hd).
  assert (Hin : In t (sorted (List.filter (on_date k) (sorted dts)))).
  { eapply Permutation_in; [apply sorted_perm|].
    apply List.filter_In. split; [exact Ht|]. unfold on_date. lia. }
  intros E. rewrite E in Hin. destruct Hin.
Qed.

Lemma fold_keys_daily_hours (cfg : config) (dts : list Z) (d : Z) (ks : list Z) :
  (forall k, In k ks -> sorted (List.filter (on_date k) (sorted dts)) <> []) ->
  forall st,
    snd (fold_left (build_key cfg (sorted dts)) ks st) !! d = None <->
    snd st !! d = None /\ ~ In d ks.
Proof.
  induction ks as [|k ks IH]; intros Hne st; simpl; [tauto|].
  rewrite IH by (intros k' Hk'; apply Hne; now right).
  destruct (build_key_spec cfg dts st k) as (added & _ & _ & Es).
  rewrite Es. specialize (Hne k (or_introl eq_refl)).
  destruct (sorted (List.filter (on_date k) (sorted dts))) as [|t0 [|t1 rest]];
    [contradiction | |]; rewrite lookup_insert_None; intuition.
Qed.

(** X10: The recorded daily totals have an entry exactly for the dates on
    which the project has an event. *)
Theorem daily_hours_dates (cfg : config) (dts : list Z) (d : Z) :
  fst (analyze_project cfg dts) !! d = None <-> ~ In d (map date dts).
Proof.
  assert (E : fst (analyze_project cfg dts) = snd (build_project cfg dts)).
  { unfold analyze_project. now destruct (build_project cfg dts). }
  rewrite E, build_project_fold.
  rewrite fold_keys_daily_hours by (intros k; apply group_timestamps_nonempty).
  simpl. rewrite lookup_empty, group_keys_in. split.
  - intros [_ Hn] Hin. apply Hn. apply in_map_iff in Hin.
    destruct Hin as (t & Ed & Ht). exists t. split; [|exact Ed].
    eapply Permutation_in; [apply sorted_perm | exact Ht].
  - intros Hn. split; [reflexivity|]. intros (t & Ht & Ed). apply Hn.
    apply in_map_iff. exists t. split; [exact Ed|].
    eapply Permutation_in; [symmetry; apply sorted_perm | exact Ht].
Qed.

Lemma session_loop_length (cfg : config) (timestamps : list Z) :
  forall prev current acc sessions,
    (length sessions
     <= length (snd (session_loop cfg prev timestamps current acc sessions))
     <= length sessions + length timestamps)%nat.
Proof.
  induction timestamps as [|t rest IH]; intros prev current acc sessions; simpl.
  - lia.
  - destruct (Qle_bool (hours_between prev t) (max_session_gap_hours cfg)).
    + specialize (IH t current (acc + hours_between prev t)%Q sessions). lia.
    + match goal with
      | |- context [session_loop cfg t rest t ?a (sessions ++ [?s])] =>
          specialize (IH t t a (sessions ++ [s]))
      end.
      rewrite length_app in IH. simpl in IH. lia.
Qed.

Lemma build_day_length (cfg : config) (sessions : list session)
    (daily_hours : gmap Z Q) (day : Z) (timestamps : list Z) :
  timestamps <> [] ->
  (length sessions + 1
   <= length (fst (build_day cfg (sessions, daily_hours) day timestamps))
   <= length sessions + length timestamps)%nat.
Proof.
  intros Hne. destruct timestamps as [|t0 [|t1 rest]]; [contradiction| |].
  - simpl. destruct (close_session t0 _) as [s h]. simpl.
    rewrite length_app. simpl. lia.
  - unfold build_day.
    pose proof (session_loop_length cfg (t1 :: rest) t0 t0 0%Q sessions) as Hl.
    destruct (session_loop cfg t0 (t1 :: rest) t0 0%Q sessions)
      as [[current acc] sessions'].
    cbn [fst snd] in *. rewrite length_app. simpl in *. lia.
Qed.

Lemma fold_keys_length (cfg : config) (dts : list Z) (ks : list Z) :
  (forall k, In k ks -> sorted (List.filter (on_date k) (sorted dts)) <> []) ->
  forall st,
    (length (fst st) + length ks
     <= length (fst (fold_left (build_key cfg (sorted dts)) ks st))
     <= length (fst st)
        + list_sum (map (fun k => length (List.filter (on_date k) dts)) ks))%nat.
Proof.
  induction ks as [|k ks IH]; intros Hne st; simpl; [lia|].
  specialize (IH (fun k' Hk' => Hne k' (or_intror Hk'))
                 (build_key cfg (sorted dts) st k)).
  destruct st as [sessions daily_hours]. unfold build_key in IH at 1 3.
  pose proof (build_day_length cfg sessions daily_hours k _
                (Hne k (or_introl eq_refl))) as Hd.
  rewrite group_length in Hd. simpl fst in *. lia.
Qed.

Lemma count_key (ks : list Z) (d : Z) :
  List.NoDup ks -> In d ks ->
  list_sum (map (fun k => if d =? k then 1%nat else 0%nat) ks) = 1%nat.
Proof.
  induction 1 as [|k ks Hk Hnd IH]; intros Hin; [destruct Hin|]. simpl.
  destruct (Z.eqb_spec d k) as [-> | Hne].
  - assert (Hz : list_sum (map (fun k' => if k =? k' then 1%nat else 0%nat) ks) = 0%nat).
    { clear IH Hin Hnd. induction ks as [|k' ks IH]; simpl; [reflexivity|].
      destruct (Z.eqb_spec k k') as [-> | Hne].
      - exfalso. apply Hk. now left.
      - apply IH. intros H. apply Hk. now right. }
    lia.
  - destruct Hin as [-> | Hin]; [contradiction|]. now rewrite IH.
Qed.

(** The groups of the keys partition the datetimes. *)
Lemma groups_partition (ks dts : list Z) :
  List.NoDup ks -> (forall t, In t dts -> In (date t) ks) ->
  list_sum (map (fun k => length (List.filter (on_date k) dts)) ks) = length dts.
Proof.
  intros Hnd. induction dts as [|t dts IH]; intros Hin; simpl.
  - clear. induction ks as [|k ks IHk]; simpl; [reflexivity | exact IHk].
  - assert (Hsplit :
      list_sum (map (fun k => length (List.filter (on_date k) (t :: dts))) ks)
      = Nat.add
          (list_sum (map (fun k => if date t =? k then 1%nat else 0%nat) ks))
          (list_sum (map (fun k => length (List.filter (on_date k) dts)) ks))).
    { clear. induction ks as [|k ks IHk]; simpl; [reflexivity|].
      simpl in IHk. rewrite IHk.
      unfold on_date at 1. destruct (date t =? k); simpl; lia. }
    simpl in Hsplit. rewrite Hsplit.
    rewrite (count_key ks (date t) Hnd (Hin t (or_introl eq_refl))).
    rewrite IH by (intros t' Ht'; apply Hin; now right). reflexivity.
Qed.

Lemma sorted_keys_nodup (ks : list Z) : StronglySorted Z.lt ks -> List.NoDup ks.
Proof.
  induction 1 as [|k ks Hs IH Hk]; constructor; [|exact IH].
  intros Hin. rewrite List.Forall_forall in Hk. specialize (Hk k Hin). lia.
Qed.

Lemma group_keys_distinct_dates (dts : list Z) :
  length (group_keys (sorted dts)) = length (List.nodup Z.eq_dec (map date dts)).
Proof.
  assert (Hsame : forall d, In d (group_keys (sorted dts))
                            <-> In d (List.nodup Z.eq_dec (map date dts))).
  { intros d. rewrite group_keys_in, List.nodup_In, in_map_iff. split.
    - intros (t & Ht & E). exists t. split; [exact E|].
      eapply Permutation_in; [symmetry; apply sorted_perm | exact Ht].
    - intros (t & E & Ht). exists t. split; [|exact E].
      eapply Permutation_in; [apply sorted_perm | exact Ht]. }
  apply Nat.le_antisymm; apply List.NoDup_incl_length.
  - apply sorted_keys_nodup, group_keys_sorted.
  - intros d. apply Hsame.
  - apply List.NoDup_nodup.
  - intros d. apply Hsame.
Qed.

Lemma build_and_merge_lengths (cfg : config) (dts : list Z) :
  (length (List.nodup Z.eq_dec (map date dts))
   <= length (fst (build_project cfg dts)) <= length dts)%nat /\
  (length (snd (analyze_project cfg dts))
   <= length (fst (build_project cfg dts)))%nat /\
  (snd (analyze_project cfg dts) = [] <-> dts = []).
Proof.
  assert (Hb : (length (List.nodup Z.eq_dec (map date dts))
                <= length (fst (build_project cfg dts)) <= length dts)%nat).
  { rewrite <- group_keys_distinct_dates, build_project_fold.
    pose proof (fold_keys_length cfg dts (group_keys (sorted dts))
                  (fun k => group_timestamps_nonempty dts k) ([], ∅)) as H.
    rewrite groups_partition in H.
    - simpl in H. lia.
    - apply sorted_keys_nodup, group_keys_sorted.
    - intros t Ht. apply group_keys_in. exists t. split; [|reflexivity].
      eapply Permutation_in; [apply sorted_perm | exact Ht]. }
  split; [exact Hb|].
  assert (Hm : forall l : list session,
             (length (merge_overlapping_sessions l) <= length l)%nat /\
             (l <> [] -> merge_overlapping_sessions l <> [])).
  { intros l. destruct l as [|s0 l]; [simpl; split; [lia | tauto]|].
    destruct (merge_overlapping_sessions_form (s0 :: l) ltac:(discriminate))
      as (current & rest & Hp & _ & E).
    rewrite E, length_map. apply Permutation_length in Hp.
    rewrite length_map in Hp. simpl in Hp.
    pose proof (merge_scan_length rest current) as Hl.
    split; [simpl; lia|]. intros _ H.
    apply (f_equal (@length session)) in H. rewrite length_map in H.
    simpl in H. lia. }
  unfold analyze_project.
  destruct (build_project cfg dts) as [sessions daily_hours]. simpl in *.
  destruct (Hm sessions) as [Hlen Hne].
  split; [exact Hlen|]. split.
  - intros E. destruct dts as [|t dts]; [reflexivity|].
    exfalso. apply Hne; [|exact E].
    intros ->.
    assert (Hin : In (date t) (List.nodup Z.eq_dec (map date (t :: dts))))
      by (apply List.nodup_In; left; reflexivity).
    destruct (List.nodup Z.eq_dec (map date (t :: dts)));
      [destruct Hin | simpl in Hb; lia].
  - intros ->. simpl in Hb.
    destruct sessions; [reflexivity | simpl in Hb; lia].
Qed.

(** X11: The builder emits at least one session for every date with an event
    and never more sessions than events; the merged list is no longer,
    and it is empty only for a project without events. *)
Theorem session_count_bounds (cfg : config) (dts : list Z) :
  (length (List.nodup Z.eq_dec (map date dts))
   <= length (fst (build_project cfg dts)) <= length dts)%nat /\
  (length (snd (analyze_project cfg dts))
   <= length (fst (build_project cfg dts)))%nat /\
  (snd (analyze_project cfg dts) = [] <-> dts = []).
Proof. apply build_and_merge_lengths. Qed.

(** ** A day without a long gap *)

Lemma insert_sorted_sorted (x : Z) (l : list Z) :
  StronglySorted Z.le l -> StronglySorted Z.le (insert_sorted x l).
Proof.
  induction 1 as [|y l Hs IH Hy]; simpl.
  - repeat constructor.
  - destruct (Z.leb_spec x y).
    + constructor; [now constructor|]. constructor; [assumption|].
      eapply List.Forall_impl; [|exact Hy]. intros; lia.
    + constructor; [exact IH|].
      apply List.Forall_forall. intros z Hz.
      eapply Permutation_in in Hz; [|symmetry; apply insert_sorted_perm].
      rewrite List.Forall_forall in Hy.
      destruct Hz as [<- | Hz]; [lia | auto].
Qed.

Lemma sorted_sorted (l : list Z) : StronglySorted Z.le (sorted l).
Proof.
  induction l; simpl; [constructor | now apply insert_sorted_sorted].
Qed.

Lemma sorted_fixed (l : list Z) : StronglySorted Z.le l -> sorted l = l.
Proof.
  induction 1 as [|x l Hs IH Hx]; simpl; [reflexivity|].
  rewrite IH. destruct Hx as [|y l' Hxy _]; simpl; [reflexivity|].
  destruct (Z.leb_spec x y); [reflexivity | lia].
Qed.

Lemma filter_all {A : Type} (p : A -> bool) (l : list A) :
  Forall (fun x => p x = true) l -> List.filter p l = l.
Proof.
  induction 1 as [|x l Hx _ IH]; simpl; [reflexivity|]. now rewrite Hx, IH.
Qed.

Lemma group_keys_one_date (dts : list Z) (d : Z) :
  dts <> [] -> Forall (fun t => date t = d) dts -> group_keys dts = [d].
Proof.
  unfold group_keys. intros Hne H. induction H as [|t dts Ht H IH]; [contradiction|].
  simpl. rewrite Ht. destruct dts as [|t' dts]; [reflexivity|].
  rewrite IH by discriminate. simpl.
  rewrite Z.ltb_irrefl, Z.eqb_refl. reflexivity.
Qed.

Lemma hours_between_chain (a b c : Z) :
  (hours_between a b + hours_between b c == hours_between a c)%Q.
Proof.
  unfold hours_between, Qeq, Qdiv, Qmult, Qplus, Qinv, inject_Z, us_hour.
  simpl Qnum; simpl Qden. lia.
Qed.

(** While no gap exceeds the threshold the loop closes no session: it
    only adds up the gaps, which sum to the time from the first to the
    last timestamp. *)
Lemma session_loop_within (cfg : config) (timestamps : list Z) :
  forall prev current acc sessions,
    gaps_within (max_session_gap_hours cfg) prev timestamps = true ->
    exists acc',
      session_loop cfg prev timestamps current acc sessions
      = (current, acc', sessions) /\
      (acc' == acc + hours_between prev (List.last timestamps prev))%Q.
Proof.
  induction timestamps as [|t rest IH]; intros prev current acc sessions Hg.
  - exists acc. split; [reflexivity|].
    simpl. unfold hours_between. rewrite Z.sub_diag.
    unfold Qeq, Qdiv, Qmult, Qplus, Qinv, inject_Z, us_hour.
    simpl Qnum; simpl Qden. lia.
  - simpl in Hg. apply andb_true_iff in Hg. destruct Hg as [Hle Hg].
    simpl session_loop. rewrite Hle.
    destruct (IH t current (acc + hours_between prev t)%Q sessions Hg)
      as (acc' & E & Hacc).
    exists acc'. split; [exact E|].
    rewrite Hacc, <- Qplus_assoc.
    assert (El : List.last (t :: rest) prev = List.last rest t).
    { clear. revert t prev. induction rest as [|u rest IHr]; intros t prev;
        [reflexivity|].
      change (List.last (t :: u :: rest) prev) with (List.last (u :: rest) prev).
      rewrite (IHr u prev), (IHr u t). reflexivity. }
    rewrite El, hours_between_chain. reflexivity.
Qed.

(** X12: When all the events of a project fall on one date and no gap between
    consecutive events exceeds [max_session_gap_hours], the builder emits
    one session: it is closed from the first event and from the first
    event plus the time to the last event and the end buffer, scaled by
    the multiplier. *)
Theorem one_session_without_long_gap (cfg : config) (dts : list Z)
    (d t0 t1 : Z) (rest : list Z) :
  Forall (fun t => date t = d) dts ->
  sorted dts = t0 :: t1 :: rest ->
  gaps_within (max_session_gap_hours cfg) t0 (t1 :: rest) = true ->
  fst (build_project cfg dts)
  = [fst (close_session t0
            (t0 + timedelta_hours
                    ((hours_between t0 (List.last (t1 :: rest) t0)
                      + session_end_buffer cfg) * time_multiplier cfg)))].
Proof.
  intros Hd Es Hg. rewrite build_project_fold.
  assert (Hd' : Forall (fun t => date t = d) (sorted dts)).
  { apply List.Forall_forall. intros t Ht.
    eapply Permutation_in in Ht; [|symmetry; apply sorted_perm].
    rewrite List.Forall_forall in Hd. auto. }
  rewrite (group_keys_one_date (sorted dts) d)
    by first [exact Hd' | rewrite Es; discriminate].
  simpl fold_left. unfold build_key.
  rewrite filter_all
    by (eapply List.Forall_impl; [|exact Hd'];
        intros t Ht; unfold on_date; now apply Z.eqb_eq).
  rewrite (sorted_fixed (sorted dts)) by apply sorted_sorted.
  rewrite Es. unfold build_day.
  destruct (session_loop_within cfg (t1 :: rest) t0 t0 0%Q [] Hg)
    as (acc' & E & Hacc).
  rewrite E. cbn [fst snd app].
  assert (Et : timedelta_hours ((acc' + session_end_buffer cfg)
                                * time_multiplier cfg)
               = timedelta_hours
                   ((hours_between t0 (List.last (t1 :: rest) t0)
                     + session_end_buffer cfg) * time_multiplier cfg)).
  { unfold timedelta_hours. apply py_round_comp.
    rewrite Hacc, Qplus_0_l. reflexivity. }
  rewrite Et. reflexivity.
Qed.

Lemma one_session_without_long_gap_witness :
  let dts := [37800000000; 32400000000] in
  Forall (fun t => date t = 0) dts /\
  sorted dts = [32400000000; 37800000000] /\
  gaps_within (max_session_gap_hours default_config) 32400000000 [37800000000]
  = true /\
  fst (build_project default_config dts)
  = [fst (close_session 32400000000
            (32400000000
             + timedelta_hours
                 ((hours_between 32400000000 (List.last [37800000000] 32400000000)
                   + session_end_buffer default_config)
                  * time_multiplier default_config)))].
Proof.
  intros dts.
  assert (H1 : Forall (fun t => date t = 0) dts) by (repeat constructor).
  assert (H2 : sorted dts = [32400000000; 37800000000]) by reflexivity.
  assert (H3 : gaps_within (max_session_gap_hours default_config)
                 32400000000 [37800000000] = true) by reflexivity.
  split; [exact H1|]. split; [exact H2|]. split; [exact H3|].
  apply (one_session_without_long_gap default_config dts 0
           32400000000 37800000000 [] H1 H2 H3).
Defined.

(** ** Names the classifier returns *)

Lemma contains_char_nil (c : ascii) :
  contains (String c EmptyString) EmptyString = false.
Proof. reflexivity. Qed.

Lemma contains_char_cons (c a : ascii) (s : string) :
  contains (String c EmptyString) (String a s)
  = (if ascii_dec c a then true else contains (String c EmptyString) s).
Proof.
  simpl. destruct (ascii_dec c a); simpl; [|reflexivity].
  destruct s; reflexivity.
Qed.

Lemma contains_char_app (c a : ascii) (s : string) :
  contains (String c EmptyString) s = false -> c <> a ->
  contains (String c EmptyString) (s ++ String a EmptyString) = false.
Proof.
  intros Hs Hca. induction s as [|b s IH].
  - simpl. destruct (ascii_dec c a); [contradiction | reflexivity].
  - change ((String b s ++ String a EmptyString)%string)
      with (String b (s ++ String a EmptyString)%string).
    rewrite contains_char_cons in *.
    destruct (ascii_dec c b); [discriminate | auto].
Qed.

(** No part of a split on a character holds that character. *)
Lemma split_char_parts (c : ascii) (s cur : string) :
  contains (String c EmptyString) cur = false ->
  Forall (fun p => contains (String c EmptyString) p = false)
    (split_from (String c EmptyString) 0 s cur).
Proof.
  revert cur. induction s as [|a s IH]; intros cur Hcur.
  - simpl. constructor; [exact Hcur | constructor].
  - cbn [split_from String.prefix].
    destruct (ascii_dec c a) as [-> | Hne].
    + assert (Hp : String.prefix EmptyString s = true) by (destruct s; reflexivity).
      rewrite Hp. constructor; [exact Hcur|].
      apply IH. reflexivity.
    + apply IH. now apply contains_char_app.
Qed.

(** X13: The project read from a URL path is never empty and holds no
    slash. *)
Theorem project_of_path_clean (path : string) :
  nonempty (project_of_path path) = true /\
  contains "/" (project_of_path path) = false.
Proof.
  unfold project_of_path.
  set (segs := List.filter nonempty (py_split "/" path)).
  assert (Hsegs : forall p, In p segs ->
                    nonempty p = true /\ contains "/" p = false).
  { intros p Hp. apply List.filter_In in Hp. destruct Hp as [Hp Hn].
    split; [exact Hn|].
    pose proof (split_char_parts "/"%char path EmptyString eq_refl) as H.
    rewrite List.Forall_forall in H. now apply H. }
  destruct (Nat.leb_spec 4 (length segs)).
  - apply Hsegs, nth_In. lia.
  - destruct (Nat.leb_spec 3 (length segs)).
    + apply Hsegs, nth_In. lia.
    + split; reflexivity.
Qed.

Lemma rstrip_idempotent (s : string) : rstrip (rstrip s) = rstrip s.
Proof.
  induction s as [|c s IH]; [reflexivity|]. simpl.
  destruct (rstrip s) as [|d r] eqn:E.
  - destruct (is_space c) eqn:Hc; [reflexivity|]. simpl. now rewrite Hc.
  - simpl. simpl in IH. rewrite IH. reflexivity.
Qed.

Lemma lstrip_head (s : string) :
  lstrip s = EmptyString \/
  exists c r, lstrip s = String c r /\ is_space c = false.
Proof.
  induction s as [|c s IH]; [now left|]. simpl.
  destruct (is_space c) eqn:Hc; [exact IH|].
  right. exists c, s. auto.
Qed.

Lemma strip_idempotent (s : string) : strip (strip s) = strip s.
Proof.
  unfold strip.
  destruct (lstrip_head s) as [E | (c & r & E & Hc)]; rewrite E; [reflexivity|].
  assert (Hl : lstrip (rstrip (String c r)) = rstrip (String c r)).
  { simpl. destruct (rstrip r); [rewrite Hc|]; simpl; now rewrite Hc. }
  rewrite Hl. apply rstrip_idempotent.
Qed.

(** X14: The project read from the blurb is never empty, is shorter than 100
    characters, holds no newline and has no white space at either end. *)
Theorem project_of_blurb_clean (text : string) :
  nonempty (project_of_blurb text) = true /\
  (String.length (project_of_blurb text) < 100)%nat /\
  contains newline (project_of_blurb text) = false /\
  strip (project_of_blurb text) = project_of_blurb text.
Proof.
  assert (HU : nonempty Unknown_Project = true /\
               (String.length Unknown_Project < 100)%nat /\
               contains newline Unknown_Project = false /\
               strip Unknown_Project = Unknown_Project).
  { repeat split. simpl. lia. }
  unfold project_of_blurb.
  destruct (contains "In " text && contains "[" text); [|exact HU].
  cbv zeta.
  match goal with
  | |- context [strip ?x] => set (name := strip x)
  end.
  destruct (nonempty name && (String.length name <? 100)%nat
            && negb (contains newline name)) eqn:C; [|exact HU].
  apply andb_true_iff in C. destruct C as [C Hnl].
  apply andb_true_iff in C. destruct C as [Hne Hlen].
  apply Nat.ltb_lt in Hlen. apply negb_true_iff in Hnl.
  repeat split; auto. apply strip_idempotent.
Qed.

(** ** The run as a whole *)

Lemma count_add_sum (p : string) (counts : list (string * nat)) :
  list_sum (map snd (count_add p counts)) = S (list_sum (map snd counts)).
Proof.
  induction counts as [|[q n] counts IH]; simpl; [reflexivity|].
  destruct (String.eqb p q); simpl; [reflexivity|]. rewrite IH. lia.
Qed.

Lemma Counter_sum (l : list string) :
  list_sum (map snd (Counter l)) = length l.
Proof.
  unfold Counter.
  assert (H : forall counts,
             list_sum (map snd (fold_left (fun counts p => count_add p counts)
                                  l counts))
             = (list_sum (map snd counts) + length l)%nat).
  { induction l as [|p l IH]; intros counts; simpl; [lia|].
    rewrite IH, count_add_sum. lia. }
  rewrite H. reflexivity.
Qed.

Lemma convert_column_length (to_local : time_unit -> Z -> option Z)
    (u : time_unit) (ts dts : list Z) :
  convert_column to_local u ts = Some dts -> length dts = length ts.
Proof.
  revert dts. induction ts as [|t ts IH]; intros dts; simpl.
  - intros E. inversion E. reflexivity.
  - destruct (to_local u t); [|discriminate].
    destruct (convert_column to_local u ts) as [dts'|]; [|discriminate].
    intros E. inversion E. simpl. now rewrite (IH dts').
Qed.

Lemma convert_column_none (to_local : time_unit -> Z -> option Z)
    (u : time_unit) (ts : list Z) :
  convert_column to_local u ts = None <->
  exists t, In t ts /\ to_local u t = None.
Proof.
  induction ts as [|t ts IH]; simpl.
  - split; [discriminate | intros (t & [] & _)].
  - destruct (to_local u t) as [dt|] eqn:E.
    + destruct (convert_column to_local u ts) as [dts|].
      * split; [discriminate|].
        intros (t' & [-> | Ht'] & E'); [congruence|].
        assert (X : Some dts = None) by (apply IH; exists t'; auto).
        discriminate X.
      * split; [|reflexivity]. intros _.
        destruct (proj1 IH eq_refl) as (t' & Ht' & E'). exists t'. auto.
    + split; [|reflexivity]. intros _. exists t. auto.
Qed.

Lemma dropna_timestamps (rows : list row) (t : Z) :
  In t (map fst (dropna rows)) <-> exists r, In r rows /\ timestamp r = Some t.
Proof.
  induction rows as [|r rows IH]; simpl.
  - split; [intros [] | intros (r & [] & _)].
  - destruct (timestamp r) as [t'|] eqn:E; simpl; rewrite IH; split.
    + intros [-> | (r' & Hr' & E')]; [exists r; auto | exists r'; auto].
    + intros (r' & [-> | Hr'] & E'); [left; congruence | right; exists r'; auto].
    + intros (r' & Hr' & E'). exists r'. auto.
    + intros (r' & [-> | Hr'] & E'); [congruence | exists r'; auto].
Qed.

Lemma fold_max_gt (c : Z) (l : list Z) (a : Z) :
  c < fold_left Z.max l a <-> c < a \/ exists t, In t l /\ c < t.
Proof.
  revert a. induction l as [|x l IH]; intros a; simpl.
  - split; [auto | intros [H | (t & [] & _)]; exact H].
  - rewrite IH. split.
    + intros [H | (t & Ht & Hc)].
      * destruct (Z.max_spec a x) as [[_ E] | [_ E]]; rewrite E in H;
          [right; exists x; auto | left; exact H].
      * right. exists t. auto.
    + intros [H | (t & [-> | Ht] & Hc)].
      * left. lia.
      * left. lia.
      * right. exists t. auto.
Qed.

(** X15: The timestamps are read as milliseconds exactly when one of them is
    above 10^12; an empty column is read as seconds. *)
Theorem detect_unit_milliseconds (ts : list Z) :
  detect_unit ts = Milliseconds <-> exists t, In t ts /\ 1000000000000 < t.
Proof.
  unfold detect_unit, column_max. destruct ts as [|a ts].
  - split; [discriminate | intros (t & [] & _)].
  - destruct (Z.ltb_spec 1000000000000 (fold_left Z.max ts a)) as [H | H].
    + split; [intros _ | reflexivity].
      apply fold_max_gt in H. destruct H as [H | (t & Ht & Hc)].
      * exists a. split; [now left | exact H].
      * exists t. split; [now right | exact Hc].
    + split; [discriminate|]. intros (t & Ht & Hc). exfalso.
      assert (Hgt : 1000000000000 < fold_left Z.max ts a).
      { apply fold_max_gt. destruct Ht as [-> | Ht]; [now left|].
        right. exists t. auto. }
      lia.
Qed.

Section RunProperties.

Variable urlparse_path : string -> option string.
Variable to_local : time_unit -> Z -> option Z.

(** X16: The run ends in the failed conversion exactly when the conversion
    raises on the timestamp of some row; rows without a numeric
    timestamp cannot make it fail. *)
Theorem analyze_fails_iff (cfg : config) (rows : list row) :
  analyze_all_projects urlparse_path to_local cfg rows
  = Failed Error_converting_timestamps
  <->
  exists r t,
    In r rows /\ timestamp r = Some t /\
    to_local (detect_unit (map fst (dropna rows))) t = None.
Proof.
  unfold analyze_all_projects.
  destruct (convert_column to_local _ _) as [datetimes|] eqn:E.
  - split; [discriminate|]. intros (r & t & Hr & Et & En). exfalso.
    assert (Hn : convert_column to_local (detect_unit (map fst (dropna rows)))
                   (map fst (dropna rows)) = None).
    { apply convert_column_none. exists t. split; [|exact En].
      apply dropna_timestamps. exists r. auto. }
    congruence.
  - split; [intros _ | reflexivity].
    apply convert_column_none in E. destruct E as (t & Ht & En).
    apply dropna_timestamps in Ht. destruct Ht as (r & Hr & Et).
    exists r, t. auto.
Qed.

(** X17: In a completed run the counts add up to the number of rows with a
    numeric timestamp: every kept row is counted once, the rows of
    [Unknown_Project] included. *)
Theorem project_counts_total (cfg : config) (rows : list row) (res : results) :
  analyze_all_projects urlparse_path to_local cfg rows = Completed res ->
  list_sum (map snd (project_counts res))
  = length (List.filter has_timestamp rows).
Proof.
  unfold analyze_all_projects.
  destruct (convert_column to_local _ _) as [datetimes|]; [|discriminate].
  intros E. inversion E. simpl.
  rewrite Counter_sum. unfold extract_project_names.
  now rewrite length_map, dropna_rows.
Qed.

End RunProperties.

Lemma project_counts_total_witness :
  let rows :=
    [ {| timestamp := Some 1753793081; dataLink := NaN;
         blurb := Text "In Bonsai_Tutorials [https://www.dropbox.com/home]" |};
      {| timestamp := None; dataLink := NaN; blurb := NaN |};
      {| timestamp := Some 1753793408; dataLink := NaN; blurb := NaN |} ] in
  let res :=
    {| project_hours := []; project_sessions := [];
       project_counts := [("Bonsai_Tutorials"%string, 1%nat);
                          ("Unknown_Project"%string, 1%nat)] |} in
  analyze_all_projects (fun _ => None) to_utc default_config rows = Completed res /\
  list_sum (map snd (project_counts res))
  = length (List.filter has_timestamp rows).
Proof.
  intros rows res.
  assert (H : analyze_all_projects (fun _ => None) to_utc default_config rows
              = Completed res) by (vm_compute; reflexivity).
  split; [exact H|].
  apply (project_counts_total (fun _ => None) to_utc default_config rows res H).
Defined.

Lemma in_combine_exists {A B : Type} (l : list A) (l' : list B) (y : B) :
  length l = length l' -> In y l' -> exists x, In (x, y) (List.combine l l').
Proof.
  revert l. induction l' as [|b l' IH]; intros l Hlen Hy; [destruct Hy|].
  destruct l as [|a l]; [discriminate|]. simpl in Hlen.
  destruct Hy as [-> | Hy].
  - exists a. now left.
  - destruct (IH l ltac:(lia) Hy) as (x & Hx). exists x. now right.
Qed.

Lemma nodup_keys_filter {A B : Type} (p : A * B -> bool) (l : list (A * B)) :
  List.NoDup (map fst l) -> List.NoDup (map fst (List.filter p l)).
Proof.
  induction l as [|x l IH]; simpl; intros Hnd; [constructor|].
  apply List.NoDup_cons_iff in Hnd. destruct Hnd as [Hx Hnd].
  destruct (p x); simpl; [|now apply IH].
  constructor; [|now apply IH].
  intros Hin. apply Hx. apply in_map_iff in Hin.
  destruct Hin as (y & E & Hy). apply List.filter_In in Hy.
  apply in_map_iff. exists y. tauto.
Qed.

Section ResultProperties.

Variable urlparse_path : string -> option string.
Variable to_local : time_unit -> Z -> option Z.

(** X18: In a completed run the hours and the sessions are keyed by the same
    projects in the same order, no project occurs twice, and every
    project listed has at least one session. *)
Theorem results_projects (cfg : config) (rows : list row) (res : results) :
  analyze_all_projects urlparse_path to_local cfg rows = Completed res ->
  map fst (project_hours res) = map fst (project_sessions res) /\
  List.NoDup (map fst (project_sessions res)) /\
  Forall (fun item => snd item <> []) (project_sessions res).
Proof.
  unfold analyze_all_projects.
  destruct (convert_column to_local _ _) as [datetimes|] eqn:Ec; [|discriminate].
  intros E. inversion E. clear E. simpl.
  set (projects := extract_project_names urlparse_path (map snd (dropna rows))).
  split; [rewrite !map_map; reflexivity|]. split.
  - rewrite map_map. simpl.
    change (map (fun x : string * nat => fst x)) with (@map (string * nat) _ fst).
    apply nodup_keys_filter. apply Counter_ok.
  - apply List.Forall_forall. intros [p sess] Hin. simpl.
    apply in_map_iff in Hin. destruct Hin as ([q n] & Eq & Hsig).
    simpl in Eq. inversion Eq. subst q. clear Eq.
    apply List.filter_In in Hsig. destruct Hsig as [Hc _].
    apply (counter_in_iff _ _ _ (Counter_ok projects)) in Hc.
    destruct Hc as [Hn Hpos]. rewrite count_of_Counter in Hn.
    assert (Hp : In p projects).
    { apply (count_occ_In string_dec). lia. }
    assert (Hlen : length datetimes = length projects).
    { rewrite (convert_column_length _ _ _ _ Ec).
      unfold projects, extract_project_names. now rewrite !length_map. }
    destruct (in_combine_exists datetimes projects p Hlen Hp) as (dt & Hdt).
    intros Hnil.
    apply (proj1 (proj2 (proj2 (build_and_merge_lengths cfg _)))) in Hnil.
    assert (Hin : In dt (project_datetimes p (List.combine datetimes projects))).
    { unfold project_datetimes. apply in_map_iff. exists (dt, p).
      split; [reflexivity|]. apply List.filter_In. split; [exact Hdt|].
      simpl. apply String.eqb_refl. }
    rewrite Hnil in Hin. destruct Hin.
Qed.

End ResultProperties.

Lemma results_projects_witness :
  let text := Text "In Bonsai_Tutorials [https://www.dropbox.com/home]" in
  let rows := [ {| timestamp := Some 1753793081; dataLink := NaN; blurb := text |} ] in
  let cfg := {| time_multiplier := 1; min_activity_hours := 1 # 4;
                max_session_gap_hours := 2; session_end_buffer := 1 # 4;
                min_activities := 1 |} in
  exists res,
    analyze_all_projects (fun _ => None) to_utc cfg rows = Completed res /\
    map fst (project_hours res) = map fst (project_sessions res) /\
    List.NoDup (map fst (project_sessions res)) /\
    Forall (fun item => snd item <> []) (project_sessions res).
Proof.
  intros text rows cfg.
  eexists. split; [reflexivity|].
  apply (results_projects (fun _ => None) to_utc cfg rows). reflexivity.
Defined.

(** ** File names *)

Lemma prefix_nil (s : string) : String.prefix EmptyString s = true.
Proof. destruct s; reflexivity. Qed.

Lemma prefix_app (sub t u : string) :
  String.prefix sub t = true -> String.prefix sub (t ++ u) = true.
Proof.
  revert t. induction sub as [|a sub IH]; intros t H; [apply prefix_nil|].
  destruct t as [|b t]; [discriminate|]. simpl in *.
  destruct (ascii_dec a b); [now apply IH | discriminate].
Qed.

Lemma contains_cons (sub : string) (c : ascii) (s : string) :
  contains sub (String c s) = String.prefix sub (String c s) || contains sub s.
Proof. reflexivity. Qed.

Lemma contains_app_l (sub t u : string) :
  contains sub t = true -> contains sub (t ++ u) = true.
Proof.
  induction t as [|c t IH]; intros H.
  - simpl in H. rewrite orb_false_r in H.
    destruct sub; [|discriminate]. destruct u; reflexivity.
  - change ((String c t ++ u)%string) with (String c (t ++ u)%string).
    rewrite contains_cons in *. apply orb_true_iff in H.
    apply orb_true_iff. destruct H as [H | H].
    + left. apply (prefix_app sub (String c t) u H).
    + right. now apply IH.
Qed.

Lemma contains_app_r (sub t u : string) :
  contains sub u = true -> contains sub (t ++ u) = true.
Proof.
  intros H. induction t as [|c t IH]; [exact H|].
  change ((String c t ++ u)%string) with (String c (t ++ u)%string).
  rewrite contains_cons, IH. apply orb_true_r.
Qed.

Lemma lstrip_chars_suffix (chars s : string) :
  exists t, s = (t ++ lstrip_chars chars s)%string.
Proof.
  induction s as [|c s [t IH]]; [exists EmptyString; reflexivity|]. simpl.
  destruct (in_chars chars c).
  - exists (String c t).
    change (String c s = String c (t ++ lstrip_chars chars s)%string).
    f_equal. exact IH.
  - exists EmptyString. reflexivity.
Qed.

Lemma rstrip_chars_prefix (chars s : string) :
  exists u, s = (rstrip_chars chars s ++ u)%string.
Proof.
  induction s as [|c s [u IH]]; [exists EmptyString; reflexivity|]. simpl.
  destruct (rstrip_chars chars s) as [|d r].
  - destruct (in_chars chars c).
    + exists (String c s). reflexivity.
    + exists s. reflexivity.
  - exists u.
    change (String c s = String c (String d r ++ u)%string).
    f_equal. exact IH.
Qed.

Lemma take_chars_prefix (n : nat) (s : string) :
  exists u, s = (take_chars n s ++ u)%string.
Proof.
  revert s. induction n as [|n IH]; intros s; [exists s; reflexivity|].
  destruct s as [|c s]; [exists EmptyString; reflexivity|].
  destruct (IH s) as [u Hu]. exists u.
  change (String c s = String c (take_chars n s ++ u)%string).
  f_equal. exact Hu.
Qed.

Lemma take_chars_length (n : nat) (s : string) :
  (String.length (take_chars n s) <= n)%nat.
Proof.
  revert s. induction n as [|n IH]; intros s; [simpl; lia|].
  destruct s as [|c s]; simpl; [lia|]. specialize (IH s). lia.
Qed.

(** The part kept by stripping and by truncating holds nothing the name
    did not hold. *)
Lemma trimmed_contains (sub s : string) :
  contains sub s = false ->
  contains sub
    (if (200 <? String.length (strip_chars "_ " s))%nat
     then take_chars 200 (strip_chars "_ " s)
     else strip_chars "_ " s) = false.
Proof.
  intros H.
  assert (Hs : contains sub (strip_chars "_ " s) = false).
  { destruct (contains sub (strip_chars "_ " s)) eqn:C; [|reflexivity].
    unfold strip_chars in C.
    destruct (rstrip_chars_prefix "_ " (lstrip_chars "_ " s)) as [u Hu].
    destruct (lstrip_chars_suffix "_ " s) as [t Ht].
    apply (contains_app_l _ _ u) in C. rewrite <- Hu in C.
    apply (contains_app_r _ t) in C. rewrite <- Ht in C. congruence. }
  destruct (200 <? String.length (strip_chars "_ " s))%nat; [|exact Hs].
  destruct (contains sub (take_chars 200 (strip_chars "_ " s))) eqn:C;
    [|reflexivity].
  destruct (take_chars_prefix 200 (strip_chars "_ " s)) as [u Hu].
  apply (contains_app_l _ _ u) in C. rewrite <- Hu in C. congruence.
Qed.

(** Replacing a character by an underscore. *)
Lemma replace_char_cons (c a : ascii) (s : string) :
  py_replace (String c EmptyString) "_" (String a s)
  = if ascii_dec c a
    then String underscore (py_replace (String c EmptyString) "_" s)
    else String a (py_replace (String c EmptyString) "_" s).
Proof.
  unfold py_replace. cbn [replace_from String.prefix].
  destruct (ascii_dec c a); [|reflexivity].
  rewrite prefix_nil. reflexivity.
Qed.

Lemma replace_char_has (c d : ascii) (s : string) :
  d <> underscore ->
  contains (String d EmptyString) (py_replace (String c EmptyString) "_" s)
  = if ascii_dec c d then false else contains (String d EmptyString) s.
Proof.
  intros Hd. induction s as [|a s IH].
  - simpl. destruct (ascii_dec c d); reflexivity.
  - rewrite replace_char_cons.
    destruct (ascii_dec c a) as [-> | Hca]; rewrite !contains_char_cons, IH.
    + destruct (ascii_dec d underscore); [contradiction|].
      destruct (ascii_dec a d) as [-> | Had].
      * destruct (ascii_dec d d); [reflexivity | contradiction].
      * destruct (ascii_dec d a); [congruence | reflexivity].
    + destruct (ascii_dec d a) as [-> | Hda]; [|reflexivity].
      destruct (ascii_dec c a); [contradiction | reflexivity].
Qed.

Lemma replace_char_absent (c : ascii) (s : string) :
  contains (String c EmptyString) s = false ->
  py_replace (String c EmptyString) "_" s = s.
Proof.
  induction s as [|a s IH]; [reflexivity|].
  rewrite contains_char_cons, replace_char_cons.
  destruct (ascii_dec c a); [discriminate|]. intros H. now rewrite IH.
Qed.

Lemma replace_invalid_clean (s : string) (d : ascii) :
  In d invalid_chars ->
  contains (String d EmptyString) (replace_invalid s) = false.
Proof.
  unfold replace_invalid. intros Hd.
  assert (Hu : Forall (fun c => c <> underscore) invalid_chars).
  { repeat constructor; discriminate. }
  assert (H : forall l name,
             Forall (fun c => c <> underscore) l -> d <> underscore ->
             contains (String d EmptyString)
               (fold_left (fun name c => py_replace (String c EmptyString) "_" name)
                  l name)
             = if in_dec ascii_dec d l then false
               else contains (String d EmptyString) name).
  { induction l as [|c l IH]; intros name Hl Hdu; [reflexivity|].
    apply Forall_cons_iff in Hl. destruct Hl as [Hc Hl]. simpl fold_left.
    rewrite (IH _ Hl Hdu), (replace_char_has c d name Hdu).
    destruct (in_dec ascii_dec d l) as [Hin | Hnin];
      destruct (in_dec ascii_dec d (c :: l)) as [Hin' | Hnin'];
      simpl in *; try reflexivity; try tauto.
    - destruct (ascii_dec c d); [reflexivity | tauto].
    - destruct (ascii_dec c d); [tauto | reflexivity]. }
  rewrite (H invalid_chars s Hu).
  - destruct (in_dec ascii_dec d invalid_chars); [reflexivity | contradiction].
  - rewrite List.Forall_forall in Hu. now apply Hu.
Qed.

Lemma replace_invalid_fixed (s : string) :
  Forall (fun c => contains (String c EmptyString) s = false) invalid_chars ->
  replace_invalid s = s.
Proof.
  unfold replace_invalid. generalize invalid_chars.
  induction l as [|c l IH]; intros H; [reflexivity|].
  apply Forall_cons_iff in H. destruct H as [Hc H]. simpl.
  rewrite (replace_char_absent c s Hc). now apply IH.
Qed.

(** Replacing double underscores. *)
Lemma replace_double_cons (c : ascii) (s : string) :
  replace_from "__" "_" 0 (String c s)
  = if String.prefix "__" (String c s)
    then String underscore (replace_from "__" "_" 1 s)
    else String c (replace_from "__" "_" 0 s).
Proof. reflexivity. Qed.

Lemma replace_double_skip (c : ascii) (s : string) :
  replace_from "__" "_" 1 (String c s) = replace_from "__" "_" 0 s.
Proof. reflexivity. Qed.

Lemma prefix_double (c : ascii) (s : string) :
  String.prefix "__" (String c s) = true ->
  c = underscore /\ exists s', s = String underscore s'.
Proof.
  cbn [String.prefix].
  destruct (ascii_dec "_" c) as [E |]; [|discriminate].
  destruct s as [|d s]; cbn [String.prefix]; [discriminate|].
  destruct (ascii_dec "_" d) as [E' |]; [|discriminate].
  intros _. subst c d. split; [reflexivity|]. exists s. reflexivity.
Qed.

Lemma replace_double_length (s : string) :
  (String.length (replace_from "__" "_" 0 s) <= String.length s)%nat /\
  (String.length (replace_from "__" "_" 1 s) <= String.length s)%nat.
Proof.
  induction s as [|c s [IH0 IH1]]; [simpl; lia|].
  rewrite replace_double_cons, replace_double_skip.
  destruct (String.prefix "__" (String c s)); simpl; lia.
Qed.

Lemma replace_double_shorter (s : string) :
  contains "__" s = true ->
  (String.length (py_replace "__" "_" s) < String.length s)%nat.
Proof.
  unfold py_replace. induction s as [|c s IH]; [discriminate|].
  rewrite contains_cons, replace_double_cons.
  destruct (String.prefix "__" (String c s)) eqn:P.
  - intros _. destruct (prefix_double c s P) as (_ & s' & ->).
    rewrite replace_double_skip.
    pose proof (proj1 (replace_double_length s')). simpl. lia.
  - simpl. intros H. specialize (IH H). lia.
Qed.

Lemma replace_double_has (d : ascii) (s : string) :
  (contains (String d EmptyString) (replace_from "__" "_" 0 s) = true ->
   contains (String d EmptyString) s = true) /\
  (contains (String d EmptyString) (replace_from "__" "_" 1 s) = true ->
   contains (String d EmptyString) s = true).
Proof.
  induction s as [|c s [IH0 IH1]]; [simpl; auto|].
  rewrite replace_double_cons, replace_double_skip, !contains_char_cons.
  split.
  - destruct (String.prefix "__" (String c s)) eqn:P.
    + destruct (prefix_double c s P) as (-> & _).
      rewrite contains_char_cons.
      destruct (ascii_dec d underscore); [reflexivity | exact IH1].
    + rewrite contains_char_cons.
      destruct (ascii_dec d c); [reflexivity | exact IH0].
  - destruct (ascii_dec d c); [reflexivity | exact IH0].
Qed.

Lemma collapse_underscores_has (d : ascii) (fuel : nat) (s : string) :
  contains (String d EmptyString) (collapse_underscores fuel s) = true ->
  contains (String d EmptyString) s = true.
Proof.
  revert s. induction fuel as [|fuel IH]; intros s; simpl; [auto|].
  destruct (contains "__" s); [|auto].
  intros H. apply IH in H. now apply (proj1 (replace_double_has d s)).
Qed.

Lemma collapse_underscores_fixed (fuel : nat) (s : string) :
  contains "__" s = false -> collapse_underscores fuel s = s.
Proof. intros H. destruct fuel; simpl; [|rewrite H]; reflexivity. Qed.

Lemma collapse_underscores_done (fuel : nat) (s : string) :
  (String.length s <= fuel)%nat ->
  contains "__" (collapse_underscores fuel s) = false.
Proof.
  revert s. induction fuel as [|fuel IH]; intros s Hlen.
  - destruct s; [reflexivity | simpl in Hlen; lia].
  - simpl. destruct (contains "__" s) eqn:C; [|exact C].
    apply IH. pose proof (replace_double_shorter s C). lia.
Qed.

Lemma collapse_underscores_fuel (n m : nat) (s : string) :
  (String.length s <= n)%nat -> (String.length s <= m)%nat ->
  collapse_underscores n s = collapse_underscores m s.
Proof.
  revert m s. induction n as [|n IH]; intros m s Hn Hm.
  - destruct s; [|simpl in Hn; lia]. destruct m; reflexivity.
  - destruct m as [|m].
    + destruct s; [reflexivity | simpl in Hm; lia].
    + simpl. destruct (contains "__" s) eqn:C; [|reflexivity].
      pose proof (replace_double_shorter s C). apply IH; lia.
Qed.

(** X19: The loop that collapses underscores is over after at most as many
    turns as the name has characters: more turns change nothing, and no
    double underscore is left. *)
Theorem collapse_underscores_terminates (fuel : nat) (filename : string) :
  (String.length filename <= fuel)%nat ->
  collapse_underscores fuel filename
  = collapse_underscores (String.length filename) filename /\
  contains "__" (collapse_underscores fuel filename) = false.
Proof.
  intros H. split.
  - apply collapse_underscores_fuel; [exact H | lia].
  - now apply collapse_underscores_done.
Qed.

Lemma collapse_underscores_terminates_witness :
  (String.length "a____b" <= 10)%nat /\
  collapse_underscores 10 "a____b"
  = collapse_underscores (String.length "a____b") "a____b" /\
  contains "__" (collapse_underscores 10 "a____b") = false.
Proof.
  split; [simpl; lia|].
  apply (collapse_underscores_terminates 10 "a____b"). simpl; lia.
Defined.

(** X20: A sanitized name is never empty, has at most 200 characters, holds no
    double underscore and none of the invalid characters. *)
Theorem sanitize_filename_safe (filename : string) :
  nonempty (sanitize_filename filename) = true /\
  (String.length (sanitize_filename filename) <= 200)%nat /\
  contains "__" (sanitize_filename filename) = false /\
  Forall (fun c =>
            contains (String c EmptyString) (sanitize_filename filename) = false)
    invalid_chars.
Proof.
  unfold sanitize_filename.
  set (a := replace_invalid filename).
  set (b := collapse_underscores (String.length a) a).
  pose proof (trimmed_contains "__" b
                (collapse_underscores_done _ a (Nat.le_refl _))) as Hdd.
  assert (Hinv : forall c, In c invalid_chars ->
                   contains (String c EmptyString)
                     (if (200 <? String.length (strip_chars "_ " b))%nat
                      then take_chars 200 (strip_chars "_ " b)
                      else strip_chars "_ " b) = false).
  { intros c Hc. apply trimmed_contains.
    destruct (contains (String c EmptyString) b) eqn:C; [|reflexivity].
    apply collapse_underscores_has in C.
    unfold a in C. rewrite (replace_invalid_clean filename c Hc) in C.
    discriminate. }
  assert (Hlen : (String.length
                    (if (200 <? String.length (strip_chars "_ " b))%nat
                     then take_chars 200 (strip_chars "_ " b)
                     else strip_chars "_ " b) <= 200)%nat).
  { destruct (Nat.ltb_spec 200 (String.length (strip_chars "_ " b)));
      [apply take_chars_length | lia]. }
  set (t := if (200 <? String.length (strip_chars "_ " b))%nat
            then take_chars 200 (strip_chars "_ " b)
            else strip_chars "_ " b) in *.
  destruct (negb (nonempty t) || String.eqb t "_") eqn:C.
  - split; [reflexivity|]. split; [simpl; lia|]. split; [reflexivity|].
    repeat constructor.
  - apply orb_false_iff in C. destruct C as [Hne _].
    apply negb_false_iff in Hne.
    split; [exact Hne|]. split; [exact Hlen|]. split; [exact Hdd|].
    apply List.Forall_forall. exact Hinv.
Qed.

(** X21: A name that needs no repair is returned as it is: one without
    invalid characters and double underscores, that [strip('_ ')] leaves
    alone, not empty and of at most 200 characters. *)
Theorem sanitize_filename_unchanged (filename : string) :
  Forall (fun c => contains (String c EmptyString) filename = false)
    invalid_chars ->
  contains "__" filename = false ->
  strip_chars "_ " filename = filename ->
  nonempty filename = true ->
  (String.length filename <= 200)%nat ->
  sanitize_filename filename = filename.
Proof.
  intros Hinv Hdd Hstrip Hne Hlen. unfold sanitize_filename.
  rewrite (replace_invalid_fixed filename Hinv).
  rewrite (collapse_underscores_fixed _ filename Hdd), Hstrip.
  destruct (Nat.ltb_spec 200 (String.length filename)); [lia|].
  rewrite Hne. simpl.
  destruct (String.eqb_spec filename "_") as [-> | _]; [|reflexivity].
  discriminate Hstrip.
Qed.

Lemma sanitize_filename_unchanged_witness :
  let name := "Restaurant_Brookfield_3"%string in
  Forall (fun c => contains (String c EmptyString) name = false) invalid_chars /\
  contains "__" name = false /\
  strip_chars "_ " name = name /\
  nonempty name = true /\
  (String.length name <= 200)%nat /\
  sanitize_filename name = name.
Proof.
  intros name.
  assert (H1 : Forall (fun c => contains (String c EmptyString) name = false)
                 invalid_chars) by (repeat constructor).
  assert (H2 : contains "__" name = false) by reflexivity.
  assert (H3 : strip_chars "_ " name = name) by reflexivity.
  assert (H4 : nonempty name = true) by reflexivity.
  assert (H5 : (String.length name <= 200)%nat) by (simpl; lia).
  repeat (split; [assumption|]).
  apply (sanitize_filename_unchanged name H1 H2 H3 H4 H5).
Defined.

(** ** The legacy daily totals *)

Lemma legacy_gaps_within (cfg : config) (timestamps : list Z) :
  forall prev total,
    gaps_within (max_session_gap_hours cfg) prev timestamps = true ->
    (legacy_gaps cfg prev timestamps total
     == total + hours_between prev (List.last timestamps prev))%Q.
Proof.
  induction timestamps as [|t rest IH]; intros prev total Hg.
  - simpl. unfold hours_between. rewrite Z.sub_diag.
    unfold Qeq, Qdiv, Qmult, Qplus, Qinv, inject_Z, us_hour.
    simpl Qnum; simpl Qden. lia.
  - simpl in Hg. apply andb_true_iff in Hg. destruct Hg as [Hle Hg].
    simpl legacy_gaps. rewrite Hle, (IH t _ Hg), <- Qplus_assoc.
    assert (El : List.last (t :: rest) prev = List.last rest t).
    { clear. revert t prev. induction rest as [|u rest IHr]; intros t prev;
        [reflexivity|].
      change (List.last (t :: u :: rest) prev) with (List.last (u :: rest) prev).
      rewrite (IHr u prev), (IHr u t). reflexivity. }
    rewrite El, hours_between_chain. reflexivity.
Qed.

(** X22: In the legacy computation a date with two or more events and no gap
    above the threshold is credited the time from its first to its last
    event plus the end buffer, times the multiplier, to the nearest
    hundredth: a whole number of hundredths at most half a hundredth away
    from that amount. *)
Theorem legacy_day_without_long_gap (cfg : config) (t0 t1 : Z) (rest : list Z) :
  gaps_within (max_session_gap_hours cfg) t0 (t1 :: rest) = true ->
  exists n : Z,
    (legacy_day_hours cfg (t0 :: t1 :: rest) == n # 100)%Q /\
    (Qabs (legacy_day_hours cfg (t0 :: t1 :: rest)
           - (hours_between t0 (List.last (t1 :: rest) t0)
              + session_end_buffer cfg) * time_multiplier cfg) <= 1 # 200)%Q.
Proof.
  intros Hg. unfold legacy_day_hours.
  set (total := ((legacy_gaps cfg t0 (t1 :: rest) 0 + session_end_buffer cfg)
                 * time_multiplier cfg)%Q).
  assert (Et : (total
                == (hours_between t0 (List.last (t1 :: rest) t0)
                    + session_end_buffer cfg) * time_multiplier cfg)%Q).
  { subst total.
    rewrite (legacy_gaps_within cfg (t1 :: rest) t0 0 Hg), Qplus_0_l.
    reflexivity. }
  destruct (py_round2_near total) as (n & En & Hn).
  exists n. split; [exact En|]. rewrite <- Et. exact Hn.
Qed.

Lemma legacy_day_without_long_gap_witness :
  let t0 := 32400000000 in
  let t1 := 37800000000 in
  gaps_within (max_session_gap_hours default_config) t0 [t1] = true /\
  exists n : Z,
    (legacy_day_hours default_config [t0; t1] == n # 100)%Q /\
    (Qabs (legacy_day_hours default_config [t0; t1]
           - (hours_between t0 (List.last [t1] t0)
              + session_end_buffer default_config)
             * time_multiplier default_config) <= 1 # 200)%Q.
Proof.
  intros t0 t1.
  split; [reflexivity|].
  apply (legacy_day_without_long_gap default_config t0 t1 []).
  reflexivity.
Defined.

Lemma sorted_unique (l l' : list Z) :
  StronglySorted Z.le l -> StronglySorted Z.le l' -> Permutation l l' -> l = l'.
Proof.
  intros Hl. revert l'. induction Hl as [|x l Hs IH Hx]; intros l' Hl' Hp.
  - apply Permutation_nil in Hp. now subst.
  - destruct Hl' as [|y l' Hs' Hy].
    + apply Permutation_sym, Permutation_nil in Hp. discriminate.
    + assert (Exy : x = y).
      { rewrite List.Forall_forall in Hx, Hy.
        assert (H1 : In x (y :: l')) by (eapply Permutation_in; [exact Hp | now left]).
        assert (H2 : In y (x :: l))
          by (eapply Permutation_in; [symmetry; exact Hp | now left]).
        destruct H1 as [-> | H1]; [reflexivity|].
        destruct H2 as [-> | H2]; [reflexivity|].
        specialize (Hx y H2). specialize (Hy x H1). lia. }
      subst y. f_equal. apply IH; [exact Hs'|].
      now apply Permutation_cons_inv in Hp.
Qed.

Lemma sorted_group (dts : list Z) (d : Z) :
  sorted (List.filter (on_date d) (sorted dts))
  = sorted (List.filter (on_date d) dts).
Proof.
  apply sorted_unique; try apply sorted_sorted.
  etransitivity; [symmetry; apply sorted_perm|].
  etransitivity; [|apply sorted_perm].
  apply filter_perm. symmetry. apply sorted_perm.
Qed.

(** The entry of a date in the model: the day total of its sorted
    events. *)
Lemma legacy_daily_hours_value (cfg : config) (dts : list Z) (d : Z) :
  legacy_daily_hours cfg dts !! d
  = match List.filter (on_date d) dts with
    | [] => None
    | g => Some (legacy_day_hours cfg (sorted g))
    end.
Proof.
  unfold legacy_daily_hours, groupby_date.
  assert (H : forall ks (m : gmap Z Q),
             fold_left
               (fun daily_hours g =>
                  <[fst g := legacy_day_hours cfg (sorted (snd g))]> daily_hours)
               (map (fun k => (k, List.filter (on_date k) (sorted dts))) ks) m
             !! d
             = if in_dec Z.eq_dec d ks
               then Some (legacy_day_hours cfg
                            (sorted (List.filter (on_date d) (sorted dts))))
               else m !! d).
  { induction ks as [|k ks IH]; intros m; [reflexivity|].
    simpl fold_left. rewrite IH.
    destruct (in_dec Z.eq_dec d ks) as [Hin | Hnin];
      destruct (in_dec Z.eq_dec d (k :: ks)) as [Hin' | Hnin'];
      simpl in *; try reflexivity; try tauto.
    - destruct Hin' as [-> | Hin']; [|contradiction]. apply lookup_insert_eq.
    - apply lookup_insert_ne. tauto. }
  rewrite H, lookup_empty, sorted_group.
  destruct (in_dec Z.eq_dec d (group_keys (sorted dts))) as [Hin | Hnin].
  - apply group_keys_in in Hin. destruct Hin as (t & Ht & Ed).
    assert (Hf : In t (List.filter (on_date d) dts)).
    { apply List.filter_In. split.
      - eapply Permutation_in; [symmetry; apply sorted_perm | exact Ht].
      - unfold on_date. now apply Z.eqb_eq. }
    destruct (List.filter (on_date d) dts); [destruct Hf | reflexivity].
  - destruct (List.filter (on_date d) dts) as [|t g] eqn:Ef; [reflexivity|].
    exfalso. apply Hnin. apply group_keys_in.
    assert (Hf : In t (List.filter (on_date d) dts)) by (rewrite Ef; now left).
    apply List.filter_In in Hf. destruct Hf as [Ht Ed].
    exists t. split.
    + eapply Permutation_in; [apply sorted_perm | exact Ht].
    + unfold on_date in Ed. now apply Z.eqb_eq.
Qed.

(** X23: The legacy totals have an entry exactly for the dates with an
    event, and the entry of a date depends only on the events of that
    date: neither their order in the file nor the events of other dates
    change it. *)
Theorem legacy_daily_hours_entries (cfg : config) (dts dts' : list Z) (d : Z) :
  Permutation (List.filter (on_date d) dts) (List.filter (on_date d) dts') ->
  (legacy_daily_hours cfg dts !! d = None <-> ~ In d (map date dts)) /\
  legacy_daily_hours cfg dts' !! d = legacy_daily_hours cfg dts !! d.
Proof.
  intros Hp. rewrite !legacy_daily_hours_value. split.
  - destruct (List.filter (on_date d) dts) as [|t g] eqn:Ef.
    + split; [intros _ | reflexivity]. intros Hd. apply in_map_iff in Hd.
      destruct Hd as (t & Ed & Ht).
      assert (Hf : In t (List.filter (on_date d) dts)).
      { apply List.filter_In. split; [exact Ht|]. unfold on_date. now apply Z.eqb_eq. }
      rewrite Ef in Hf. destruct Hf.
    + split; [discriminate|]. intros Hd. exfalso. apply Hd.
      assert (Hf : In t (List.filter (on_date d) dts)) by (rewrite Ef; now left).
      apply List.filter_In in Hf. destruct Hf as [Ht Ed].
      apply in_map_iff. exists t. split; [|exact Ht].
      unfold on_date in Ed. now apply Z.eqb_eq.
  - assert (Es : sorted (List.filter (on_date d) dts')
                 = sorted (List.filter (on_date d) dts)).
    { apply sorted_unique; try apply sorted_sorted.
      etransitivity; [symmetry; apply sorted_perm|].
      etransitivity; [|apply sorted_perm]. now symmetry. }
    destruct (List.filter (on_date d) dts) as [|t g];
      destruct (List.filter (on_date d) dts') as [|t' g']; try reflexivity.
    + apply Permutation_nil in Hp. discriminate.
    + apply Permutation_sym, Permutation_nil in Hp. discriminate.
    + now rewrite Es.
Qed.

Lemma legacy_daily_hours_entries_witness :
  let dts := [32400000000; 37800000000; 122400000000] in
  let dts' := [37800000000; 32400000000; 295200000000] in
  Permutation (List.filter (on_date 0) dts) (List.filter (on_date 0) dts') /\
  (legacy_daily_hours default_config dts !! 0 = None <-> ~ In 0 (map date dts)) /\
  legacy_daily_hours default_config dts' !! 0
  = legacy_daily_hours default_config dts !! 0.
Proof.
  intros dts dts'.
  assert (Hp : Permutation (List.filter (on_date 0) dts)
                 (List.filter (on_date 0) dts')) by apply perm_swap.
  split; [exact Hp|].
  apply (legacy_daily_hours_entries default_config dts dts' 0 Hp).
Defined.

(** ** The longest streak *)

Lemma streak_loop_bounds (l : list Z) :
  forall prev c m,
    (m <= streak_loop prev l c m <= Nat.max m (c + length l))%nat.
Proof.
  induction l as [|d l IH]; intros prev c m; simpl; [lia|].
  destruct (d - prev =? 1).
  - specialize (IH d (S c) (Nat.max m (S c))). lia.
  - specialize (IH d 1%nat m). lia.
Qed.

Lemma streak_loop_run (S : Z -> Prop) (l : list Z) :
  forall prev c m,
    (forall x, In x (prev :: l) -> S x) ->
    run_ending S prev c ->
    (exists e, run_ending S e m) ->
    exists e, run_ending S e (streak_loop prev l c m).
Proof.
  induction l as [|d l IH]; intros prev c m HS Hc Hm; simpl; [exact Hm|].
  assert (HS' : forall x, In x (d :: l) -> S x)
    by (intros x Hx; apply HS; now right).
  destruct (Z.eqb_spec (d - prev) 1) as [E | _].
  - assert (Hc' : run_ending S d (Datatypes.S c)).
    { intros i Hi. destruct (Z.eq_dec i 0) as [-> | Hi0].
      - rewrite Z.sub_0_r. apply HS'. now left.
      - replace (d - i) with (prev - (i - 1)) by lia. apply Hc. lia. }
    apply IH; [exact HS' | exact Hc'|].
    destruct (Nat.max_spec m (Datatypes.S c)) as [[_ ->] | [_ ->]];
      [exists d; exact Hc' | exact Hm].
  - apply IH; [exact HS' | | exact Hm].
    intros i Hi. replace i with 0 by lia. rewrite Z.sub_0_r.
    apply HS'. now left.
Qed.

Lemma streak_loop_longest (S : Z -> Prop) (l : list Z) :
  forall prev c m,
    StronglySorted Z.lt (prev :: l) ->
    (forall x, S x -> x <= prev \/ In x l) ->
    (1 <= m)%nat ->
    (forall k, run_ending S prev k -> (k <= c)%nat) ->
    (forall e k, S e -> e <= prev -> run_ending S e k -> (k <= m)%nat) ->
    forall e k, S e -> run_ending S e k -> (k <= streak_loop prev l c m)%nat.
Proof.
  induction l as [|d l IH]; intros prev c m Hs Hup Hm1 Hc Hm e k He Hrun; simpl.
  - apply (Hm e k He); [|exact Hrun].
    destruct (Hup e He) as [H | []]. exact H.
  - apply StronglySorted_inv in Hs. destruct Hs as [Hs Hprev].
    pose proof (List.Forall_inv Hprev) as Hpd. simpl in Hpd.
    pose proof (StronglySorted_inv Hs) as [_ Hd].
    rewrite List.Forall_forall in Hd.
    assert (Hgap : forall x, S x -> x <= prev \/ d <= x).
    { intros x Hx. destruct (Hup x Hx) as [H | [-> | H]]; [now left | right; lia|].
      right. specialize (Hd x H). lia. }
    assert (Hup' : forall x, S x -> x <= d \/ In x l).
    { intros x Hx. destruct (Hup x Hx) as [H | [-> | H]];
        [left; lia | left; lia | now right]. }
    destruct (Z.eqb_spec (d - prev) 1) as [E | Hne].
    + eapply (IH d (Datatypes.S c) (Nat.max m (Datatypes.S c)) Hs Hup');
        [lia | | | exact He | exact Hrun].
      * intros k' Hk'. destruct k' as [|k']; [lia|].
        assert (Hp : run_ending S prev k').
        { intros i Hi. replace (prev - i) with (d - (i + 1)) by lia.
          apply Hk'. lia. }
        specialize (Hc k' Hp). lia.
      * intros e' k' He' Hle Hk'.
        destruct (Hgap e' He') as [H | H].
        -- specialize (Hm e' k' He' H Hk'). lia.
        -- assert (e' = d) by lia. subst e'.
           destruct k' as [|k']; [lia|].
           assert (Hp : run_ending S prev k').
           { intros i Hi. replace (prev - i) with (d - (i + 1)) by lia.
             apply Hk'. lia. }
           specialize (Hc k' Hp). lia.
    + assert (Hone : forall k', run_ending S d k' -> (k' <= 1)%nat).
      { intros k' Hk'. destruct k' as [|[|k']]; [lia | lia|].
        exfalso. assert (Hx : S (d - 1)) by (apply Hk'; lia).
        destruct (Hgap _ Hx); lia. }
      eapply (IH d 1%nat m Hs Hup' Hm1 Hone); [| exact He | exact Hrun].
      intros e' k' He' Hle Hk'.
      destruct (Hgap e' He') as [H | H].
      * apply (Hm e' k' He' H Hk').
      * assert (e' = d) by lia. subst e'. specialize (Hone k' Hk'). lia.
Qed.

Lemma sorted_strict (l : list Z) :
  List.NoDup l -> StronglySorted Z.lt (sorted l).
Proof.
  intros Hnd.
  assert (Hnd' : List.NoDup (sorted l))
    by (eapply Permutation_NoDup; [apply sorted_perm | exact Hnd]).
  pose proof (sorted_sorted l) as Hs.
  induction Hs as [|x s Hs IH Hx]; constructor.
  - apply IH. now inversion Hnd'.
  - apply List.NoDup_cons_iff in Hnd'. destruct Hnd' as [Hx' _].
    rewrite List.Forall_forall in *. intros y Hy.
    specialize (Hx y Hy). assert (x <> y) by (intros ->; contradiction). lia.
Qed.

(** X24: For the distinct dates of a dict, the streak that is printed is the
    length of the longest run of consecutive dates: it is at least 1 and
    at most the number of dates, some run of that many consecutive dates
    is among the dates, and no longer run is. *)
Theorem longest_streak_is_longest_run (dates : list Z) (n : nat) :
  List.NoDup dates ->
  longest_streak dates = Some n ->
  (1 <= n <= length dates)%nat /\
  (exists e, run_ending (fun x => In x dates) e n) /\
  (forall e k, run_ending (fun x => In x dates) e k -> (k <= n)%nat).
Proof.
  intros Hnd. unfold longest_streak.
  pose proof (sorted_strict dates Hnd) as Hs.
  pose proof (sorted_perm dates) as Hp.
  destruct (sorted dates) as [|d0 rest]; [discriminate|].
  intros E. injection E as <-.
  assert (Hin : forall x, In x (d0 :: rest) <-> In x dates).
  { intros x. split; intros Hx.
    - eapply Permutation_in; [symmetry; exact Hp | exact Hx].
    - eapply Permutation_in; [exact Hp | exact Hx]. }
  split; [|split].
  - pose proof (streak_loop_bounds rest d0 1 1) as Hb.
    apply Permutation_length in Hp. simpl in Hp. lia.
  - apply streak_loop_run.
    + intros x Hx. now apply Hin.
    + intros i Hi. replace i with 0 by lia. rewrite Z.sub_0_r.
      apply Hin. now left.
    + exists d0. intros i Hi. replace i with 0 by lia. rewrite Z.sub_0_r.
      apply Hin. now left.
  - intros e k Hrun. destruct k as [|k]; [lia|].
    assert (He : In e dates).
    { specialize (Hrun 0 ltac:(lia)). now rewrite Z.sub_0_r in Hrun. }
    assert (Hfirst : forall x, In x dates -> d0 <= x).
    { intros x Hx. apply Hin in Hx. destruct Hx as [-> | Hx]; [lia|].
      apply StronglySorted_inv in Hs. destruct Hs as [_ Hd].
      rewrite List.Forall_forall in Hd. specialize (Hd x Hx). lia. }
    assert (Hone : forall e' k', In e' dates -> e' <= d0 ->
                     run_ending (fun x => In x dates) e' k' -> (k' <= 1)%nat).
    { intros e' k' He' Hle Hk'. destruct k' as [|[|k']]; [lia | lia|].
      exfalso. specialize (Hk' 1 ltac:(lia)). simpl in Hk'.
      specialize (Hfirst _ Hk'). lia. }
    eapply (streak_loop_longest (fun x => In x dates) rest d0 1 1 Hs);
      [ | lia | | exact Hone | exact He | exact Hrun].
    + intros x Hx. apply Hin in Hx. destruct Hx as [-> | Hx]; [left; lia | now right].
    + intros k' Hk'. apply (Hone d0 k'); [apply Hin; now left | lia | exact Hk'].
Qed.

Lemma longest_streak_is_longest_run_witness :
  let dates := [20300; 20298; 20299; 20305] in
  List.NoDup dates /\
  longest_streak dates = Some 3%nat /\
  (1 <= 3 <= length dates)%nat /\
  (exists e, run_ending (fun x => In x dates) e 3) /\
  (forall e k, run_ending (fun x => In x dates) e k -> (k <= 3)%nat).
Proof.
  intros dates.
  assert (H1 : List.NoDup dates).
  { repeat constructor; simpl; intros H; repeat destruct H as [H | H];
      try discriminate H; exact H. }
  assert (H2 : longest_streak dates = Some 3%nat) by reflexivity.
  split; [exact H1|]. split; [exact H2|].
  apply (longest_streak_is_longest_run dates 3 H1 H2).
Defined.

(** ** The blurb of the expected form *)

Lemma string_app_cons (c : ascii) (s t : string) :
  (String c s ++ t)%string = String c (s ++ t)%string.
Proof. reflexivity. Qed.

Lemma string_app_nil_r (s : string) : (s ++ EmptyString)%string = s.
Proof.
  induction s as [|c s IH]; [reflexivity|]. now rewrite string_app_cons, IH.
Qed.

Lemma string_app_assoc (a b c : string) :
  ((a ++ b) ++ c)%string = (a ++ (b ++ c))%string.
Proof.
  induction a as [|x a IH]; [reflexivity|]. now rewrite !string_app_cons, IH.
Qed.

Lemma string_app_length (a b : string) :
  String.length (a ++ b) = (String.length a + String.length b)%nat.
Proof.
  induction a as [|x a IH]; [reflexivity|].
  rewrite string_app_cons. simpl. now rewrite IH.
Qed.

Lemma prefix_refl_app (sep b : string) : String.prefix sep (sep ++ b) = true.
Proof.
  induction sep as [|c sep IH]; [apply prefix_nil|]. simpl.
  destruct (ascii_dec c c); [exact IH | contradiction].
Qed.

(** Whether [sep] is a prefix is decided by the first characters. *)
Lemma prefix_app_short (sep u v : string) :
  (String.length sep <= String.length u)%nat ->
  String.prefix sep (u ++ v) = String.prefix sep u.
Proof.
  revert u. induction sep as [|a sep IH]; intros u Hlen.
  - now rewrite !prefix_nil.
  - destruct u as [|b u]; [simpl in Hlen; lia|]. simpl in *.
    destruct (ascii_dec a b); [apply IH; lia | reflexivity].
Qed.

Lemma starts_nowhere_of_contains (sep a t tail : string) :
  contains sep (a ++ t) = false ->
  (String.length sep <= Datatypes.S (String.length t))%nat ->
  starts_nowhere sep a (t ++ tail) = true.
Proof.
  intros Hc Hlen. induction a as [|c a IH]; [reflexivity|].
  change ((String c a ++ t)%string) with (String c (a ++ t)%string) in Hc.
  rewrite contains_cons in Hc. apply orb_false_iff in Hc.
  destruct Hc as [Hp Hc].
  cbn [starts_nowhere]. rewrite (IH Hc), andb_true_r.
  rewrite <- string_app_assoc, prefix_app_short.
  - change ((String c a ++ t)%string) with (String c (a ++ t)%string).
    now rewrite Hp.
  - rewrite string_app_length. simpl. lia.
Qed.

(** The split passes over a stretch in which no separator starts. *)
Lemma split_run (sep a tail cur : string) :
  starts_nowhere sep a tail = true ->
  split_from sep 0 (a ++ tail) cur = split_from sep 0 tail (cur ++ a).
Proof.
  revert cur. induction a as [|c a IH]; intros cur H.
  - now rewrite string_app_nil_r.
  - cbn [starts_nowhere] in H. apply andb_true_iff in H. destruct H as [Hp H].
    apply negb_true_iff in Hp.
    change ((String c a ++ tail)%string) with (String c (a ++ tail)%string) in *.
    cbn [split_from]. rewrite Hp, (IH _ H), string_app_assoc. reflexivity.
Qed.

Lemma split_skip (sep t b cur : string) :
  split_from sep (String.length t) (t ++ b) cur = split_from sep 0 b cur.
Proof.
  induction t as [|c t IH]; [destruct b; reflexivity|]. exact IH.
Qed.

(** At a separator the part read so far is closed. *)
Lemma split_hit (c : ascii) (sep b cur : string) :
  split_from (String c sep) 0 (String c sep ++ b) cur
  = cur :: split_from (String c sep) 0 b EmptyString.
Proof.
  change ((String c sep ++ b)%string) with (String c (sep ++ b)%string).
  cbn [split_from].
  change (String c (sep ++ b)%string) with ((String c sep ++ b)%string).
  rewrite prefix_refl_app.
  change (String.length (String c sep) - 1)%nat with (String.length sep - 0)%nat.
  rewrite Nat.sub_0_r. now rewrite split_skip.
Qed.

(** The first part of a split begins with the part read so far. *)
Lemma split_head (sep s cur : string) :
  exists more parts, split_from sep 0 s cur = (cur ++ more)%string :: parts.
Proof.
  revert cur. induction s as [|c s IH]; intros cur.
  - exists EmptyString, []. now rewrite string_app_nil_r.
  - cbn [split_from]. destruct (String.prefix sep (String c s)).
    + exists EmptyString. eexists. now rewrite string_app_nil_r.
    + destruct (IH (cur ++ String c EmptyString)%string) as (more & parts & E).
      exists (String c more), parts. rewrite E, string_app_assoc. reflexivity.
Qed.

Lemma contains_bracket_space (a : string) :
  contains " [" (a ++ " ") = contains " [" a.
Proof.
  induction a as [|b a IH]; [reflexivity|].
  change ((String b a ++ " ")%string) with (String b (a ++ " ")%string).
  rewrite !contains_cons, IH. f_equal.
  cbn [String.prefix]. destruct (ascii_dec " " b); [|reflexivity].
  destruct a as [|d a]; [reflexivity|].
  change ((String d a ++ " ")%string) with (String d (a ++ " ")%string).
  cbn [String.prefix]. destruct (ascii_dec "[" d); [|reflexivity].
  now rewrite !prefix_nil.
Qed.

(** X25: On a blurb of the form [pre ++ "In " ++ name ++ " [" ++ rest], where
    no "In " starts inside [pre], the name followed by " [" holds no
    "In ", and the name holds no " [", the project is the name - given
    that the name is one the code accepts: not empty, shorter than 100
    characters, without newline and without white space at its ends. *)
Theorem project_of_blurb_pattern (pre name rest : string) :
  contains "In " (pre ++ "In") = false ->
  contains "In " (name ++ " [") = false ->
  contains " [" name = false ->
  strip name = name ->
  nonempty name = true ->
  (String.length name < 100)%nat ->
  contains newline name = false ->
  project_of_blurb (pre ++ "In " ++ name ++ " [" ++ rest) = name.
Proof.
  intros Hpre Hname Hbr Hstrip Hne Hlen Hnl.
  set (text := (pre ++ "In " ++ name ++ " [" ++ rest)%string).
  unfold project_of_blurb.
  assert (G1 : contains "In " text = true).
  { unfold text. apply contains_app_r.
    change (("In " ++ name ++ " [" ++ rest)%string)
      with (String "I" ("n " ++ name ++ " [" ++ rest)%string).
    rewrite contains_cons. apply orb_true_iff. left.
    apply (prefix_refl_app "In " (name ++ " [" ++ rest)). }
  assert (G2 : contains "[" text = true).
  { unfold text. do 3 apply contains_app_r.
    change ((" [" ++ rest)%string) with (String " " (String "[" rest)).
    rewrite contains_cons. apply orb_true_iff. right.
    rewrite contains_cons. apply orb_true_iff. left.
    apply (prefix_refl_app "[" rest). }
  fold text. rewrite G1, G2. cbv zeta. simpl andb.
  assert (P1 : exists more,
             nth 1 (py_split "In " text) EmptyString
             = ((name ++ " [") ++ more)%string).
  { unfold py_split, text.
    change (("In " ++ name ++ " [" ++ rest)%string)
      with (("In" ++ (" " ++ name ++ " [" ++ rest))%string).
    rewrite split_run
      by (apply starts_nowhere_of_contains; [exact Hpre | simpl; lia]).
    change (("In" ++ (" " ++ name ++ " [" ++ rest))%string)
      with (("In " ++ (name ++ " [" ++ rest))%string).
    rewrite split_hit.
    rewrite split_run
      by (apply starts_nowhere_of_contains; [exact Hname | simpl; lia]).
    change ((" [" ++ rest)%string) with (String " " (String "[" rest)).
    cbn [split_from String.prefix]. simpl ascii_dec.
    match goal with
    | |- context [split_from "In " 0 rest ?cur] =>
        destruct (split_head "In " rest cur) as (more & parts & E); rewrite E
    end.
    exists more. cbn [nth]. f_equal.
    rewrite !string_app_assoc. reflexivity. }
  destruct P1 as (more & ->).
  assert (P2 : nth 0 (py_split " [" ((name ++ " [") ++ more)) EmptyString = name).
  { unfold py_split. rewrite string_app_assoc.
    change ((" [" ++ more)%string) with ((" " ++ ("[" ++ more))%string).
    rewrite split_run
      by (apply starts_nowhere_of_contains;
          [rewrite contains_bracket_space; exact Hbr | simpl; lia]).
    change ((" " ++ ("[" ++ more))%string) with ((" [" ++ more)%string).
    rewrite split_hit. reflexivity. }
  rewrite P2, Hstrip, Hne, Hnl.
  apply Nat.ltb_lt in Hlen. rewrite Hlen. reflexivity.
Qed.

Lemma project_of_blurb_pattern_witness :
  let pre := "You edited files. "%string in
  let name := "Bonsai_Tutorials"%string in
  let rest := "https://www.dropbox.com/home], you edited House.ifc"%string in
  contains "In " (pre ++ "In") = false /\
  contains "In " (name ++ " [") = false /\
  contains " [" name = false /\
  strip name = name /\
  nonempty name = true /\
  (String.length name < 100)%nat /\
  contains newline name = false /\
  project_of_blurb (pre ++ "In " ++ name ++ " [" ++ rest) = name.
Proof.
  intros pre name rest.
  assert (H1 : contains "In " (pre ++ "In") = false) by reflexivity.
  assert (H2 : contains "In " (name ++ " [") = false) by reflexivity.
  assert (H3 : contains " [" name = false) by reflexivity.
  assert (H4 : strip name = name) by reflexivity.
  assert (H5 : nonempty name = true) by reflexivity.
  assert (H6 : (String.length name < 100)%nat) by (simpl; lia).
  assert (H7 : contains newline name = false) by reflexivity.
  repeat (split; [assumption|]).
  apply (project_of_blurb_pattern pre name rest H1 H2 H3 H4 H5 H6 H7).
Defined.

(** ** The largest project *)

Lemma py_max_by_spec {A : Type} (key : A -> Q) (l : list A) :
  forall best,
    In (py_max_by key best l) (best :: l) /\
    forall x, In x (best :: l) -> (key x <= key (py_max_by key best l))%Q.
Proof.
  induction l as [|y l IH]; intros best; simpl.
  - split; [now left|]. intros x [-> | []]. apply Qle_refl.
  - unfold Qlt_bool. destruct (Qle_bool (key y) (key best)) eqn:C; simpl.
    + apply Qle_bool_iff in C. destruct (IH best) as [Hin Hmax]. split.
      * destruct Hin as [<- | Hin]; [now left | right; now right].
      * intros x [-> | [-> | Hx]].
        -- apply Hmax. now left.
        -- eapply Qle_trans; [exact C | apply Hmax; now left].
        -- apply Hmax. now right.
    + assert (Hlt : (key best < key y)%Q).
      { apply Qnot_le_lt. intros H. apply Qle_bool_iff in H. congruence. }
      destruct (IH y) as [Hin Hmax]. split.
      * right. exact Hin.
      * intros x [-> | [-> | Hx]].
        -- eapply Qle_trans; [apply Qlt_le_weak; exact Hlt | apply Hmax; now left].
        -- apply Hmax. now left.
        -- apply Hmax. now right.
Qed.

Lemma hours_of_project_in (l : list (string * gmap Z Q)) (k : string)
    (m : gmap Z Q) :
  List.NoDup (map fst l) -> In (k, m) l -> hours_of_project k l = m.
Proof.
  induction l as [|[q m'] l IH]; intros Hnd Hin; [destruct Hin|].
  simpl in Hnd. apply List.NoDup_cons_iff in Hnd. destruct Hnd as [Hq Hnd].
  simpl. destruct (String.eqb_spec k q) as [-> | Hne].
  - destruct Hin as [E | Hin]; [now inversion E|].
    exfalso. apply Hq. apply in_map_iff. exists (q, m). auto.
  - destruct Hin as [E | Hin]; [inversion E; congruence|]. now apply IH.
Qed.

Lemma hours_of_project_key (l : list (string * gmap Z Q)) (k : string) :
  In k (map fst l) -> In (k, hours_of_project k l) l.
Proof.
  induction l as [|[q m] l IH]; intros Hin; [destruct Hin|]. simpl.
  destruct (String.eqb_spec k q) as [-> | Hne]; [now left|].
  right. apply IH. destruct Hin as [E | Hin]; [simpl in E; congruence | exact Hin].
Qed.

(** X26: Among projects with distinct names, the daily hours returned are
    those of a listed project whose total is at least the total of every
    listed project; without a project the result is empty. *)
Theorem largest_project_hours_largest (project_hours : list (string * gmap Z Q)) :
  List.NoDup (map fst project_hours) ->
  (project_hours = [] /\ largest_project_hours project_hours = ∅) \/
  ((exists p, In (p, largest_project_hours project_hours) project_hours) /\
   forall q m, In (q, m) project_hours ->
     (sum_values m <= sum_values (largest_project_hours project_hours))%Q).
Proof.
  intros Hnd. unfold largest_project_hours.
  destruct project_hours as [|[k0 m0] rest]; [now left|]. right.
  set (l := (k0, m0) :: rest) in *.
  change (map fst l) with (k0 :: map fst rest).
  cbv zeta.
  destruct (py_max_by_spec (fun k => sum_values (hours_of_project k l))
              (map fst rest) k0) as [Hin Hmax].
  set (largest := py_max_by _ k0 (map fst rest)) in *.
  split.
  - exists largest. apply hours_of_project_key. exact Hin.
  - intros q m Hqm.
    assert (Hq : In q (k0 :: map fst rest)).
    { change (k0 :: map fst rest) with (map fst l).
      apply in_map_iff. exists (q, m). auto. }
    specialize (Hmax q Hq). cbv beta in Hmax.
    now rewrite (hours_of_project_in l q m Hnd Hqm) in Hmax.
Qed.

Lemma largest_project_hours_largest_witness :
  let a : gmap Z Q := <[20298 := (1 # 4)%Q]> ∅ in
  let b : gmap Z Q := <[20298 := (3 # 4)%Q]> ∅ in
  let l := [("A"%string, a); ("B"%string, b)] in
  List.NoDup (map fst l) /\
  ((l = [] /\ largest_project_hours l = ∅) \/
   ((exists p, In (p, largest_project_hours l) l) /\
    forall q m, In (q, m) l ->
      (sum_values m <= sum_values (largest_project_hours l))%Q)).
Proof.
  intros a b l.
  assert (H : List.NoDup (map fst l)).
  { repeat constructor; simpl; intros H; repeat destruct H as [H | H];
      try discriminate H; exact H. }
  split; [exact H|].
  apply (largest_project_hours_largest l H).
Defined.

(** ** The order of the rows *)

(** X27: The analysis of a project does not depend on the order in which its
    events are given: it sorts them first. *)
Theorem analyze_project_order_independent (cfg : config) (dts dts' : list Z) :
  Permutation dts dts' ->
  analyze_project cfg dts = analyze_project cfg dts'.
Proof.
  intros Hp.
  assert (E : sorted dts = sorted dts').
  { apply sorted_unique; try apply sorted_sorted.
    etransitivity; [symmetry; apply sorted_perm|].
    etransitivity; [exact Hp | apply sorted_perm]. }
  unfold analyze_project, build_project. now rewrite E.
Qed.

Lemma analyze_project_order_independent_witness :
  Permutation [37800000000; 32400000000] [32400000000; 37800000000] /\
  analyze_project default_config [37800000000; 32400000000]
  = analyze_project default_config [32400000000; 37800000000].
Proof.
  assert (H : Permutation [37800000000; 32400000000] [32400000000; 37800000000])
    by apply perm_swap.
  split; [exact H|].
  apply (analyze_project_order_independent default_config _ _ H).
Defined.
